(** * hyperGRC: the OpenControl loader, the control resolver and the updaters

    A shallow embedding of [hypergrc/opencontrol.py] and of the model helpers
    of [hypergrc/routes.py], together with the properties the specification
    states about them.

    Conventions of the embedding:
    - a Python [str] is a Rocq [string]; each character stands for one code
      point below 256 (Latin-1 text), so indexing and slicing count
      characters exactly as Python does;
    - a document read by [rtyaml.load] is a [yaml] tree; a file is
      represented by the document it parses to, and [rtyaml.dump] of a
      document by storing that document;
    - a Python exception is a value of type [exn], and code that may raise
      returns in the [res] monad;
    - a generator is the list of the values it yields, followed by the
      exception that ends it, if any. *)

From Stdlib Require Import NArith ZArith Ascii String List Bool Lia.
From Stdlib Require OrderedTypeEx.
From Stdlib Require Import Sorted.
From stdpp Require Import base option list gmap strings.
Import ListNotations.

Local Open Scope string_scope.
Local Open Scope list_scope.

(** ** Characters and character classes *)

Definition code (c : ascii) : N := N_of_ascii c.

Definition in_range (lo hi : N) (c : ascii) : bool :=
  ((lo <=? code c) && (code c <=? hi))%N.

(** [\d]: below 256 the decimal digits are exactly [0-9]. *)
Definition is_digit (c : ascii) : bool := in_range 48 57 c.

(** [str.isspace] and [\s]: tab, newline, vertical tab, form feed, carriage
    return, the four information separators, the space, NEL and the
    no-break space. *)
Definition is_space (c : ascii) : bool :=
  in_range 9 13 c || in_range 28 32 c || (code c =? 133)%N || (code c =? 160)%N.

(** [\w]: letters, every numeric character and the underscore.  Above 127
    the Latin-1 letters are ª µ º and À-ÿ without × and ÷; the numeric
    characters are ² ³ ¹ and ¼ ½ ¾. *)
Definition is_word (c : ascii) : bool :=
  in_range 48 57 c || in_range 65 90 c || in_range 97 122 c || (code c =? 95)%N
  || (code c =? 170)%N || (code c =? 178)%N || (code c =? 179)%N
  || (code c =? 181)%N || (code c =? 185)%N || (code c =? 186)%N
  || in_range 188 190 c || in_range 192 214 c || in_range 216 246 c
  || in_range 248 255 c.

Definition newline : ascii := ascii_of_N 10.

Definition is_newline (c : ascii) : bool := (code c =? 10)%N.

(** The longest prefix whose characters all satisfy [p], and what follows. *)
Fixpoint span (p : ascii -> bool) (l : list ascii) : list ascii * list ascii :=
  match l with
  | [] => ([], [])
  | c :: l' =>
      if p c then let '(run, rest) := span p l' in (c :: run, rest)
      else ([], l)
  end.

Definition chars (s : string) : list ascii := list_ascii_of_string s.
Definition text (l : list ascii) : string := string_of_list_ascii l.

(** ["".join(parts)] *)
Definition join (parts : list string) : string :=
  fold_right String.app "" parts.

(** ** Python values

    What [rtyaml.load] returns: [None], integers, strings, lists, and
    mappings that keep the order of their keys and have strings as keys.
    Booleans, floating-point numbers and timestamps, which the manifests
    do not use, are left out. *)

#[local] Set Warnings "-register-all".

Inductive value :=
| VNone
| VInt (n : Z)
| VStr (s : string)
| VList (items : list value)
| VDict (fields : list (string * value)).

(** [a == b] *)
Fixpoint value_eqb (a b : value) : bool :=
  match a, b with
  | VNone, VNone => true
  | VInt n, VInt m => Z.eqb n m
  | VStr s, VStr t => String.eqb s t
  | VList l, VList l' =>
      (fix items_eqb (l l' : list value) : bool :=
         match l, l' with
         | [], [] => true
         | x :: xs, y :: ys => value_eqb x y && items_eqb xs ys
         | _, _ => false
         end) l l'
  | VDict m, VDict m' =>
      (fix fields_eqb (m m' : list (string * value)) : bool :=
         match m, m' with
         | [], [] => true
         | (k, x) :: xs, (k', y) :: ys =>
             String.eqb k k' && value_eqb x y && fields_eqb xs ys
         | _, _ => false
         end) m m'
  | _, _ => false
  end.

(** [bool(v)] *)
Definition truthy (v : value) : bool :=
  match v with
  | VNone => false
  | VInt n => negb (Z.eqb n 0)
  | VStr s => negb (String.eqb s "")
  | VList l => match l with [] => false | _ => true end
  | VDict m => match m with [] => false | _ => true end
  end.

(** [a or b] *)
Definition py_or (a b : value) : value := if truthy a then a else b.

(** ** Exceptions *)

(** A [ValueError] carries the message template and the arguments that
    [str.format] substitutes into it. *)
Inductive exn :=
| ValueError (template : string) (args : list value)
| KeyError (key : string)
| TypeError
| AttributeError
| FileNotFoundError (path : string).

Inductive res (A : Type) :=
| Ok (a : A)
| Raise (e : exn).
Arguments Ok {A} a.
Arguments Raise {A} e.

Definition bind {A B} (r : res A) (k : A -> res B) : res B :=
  match r with
  | Ok a => k a
  | Raise e => Raise e
  end.

Notation "'let*' x := r 'in' k" := (bind r (fun x => k))
  (at level 10, x name, r at level 100, k at level 200).

(** A loop body run over a list, stopping at the first exception. *)
Fixpoint map_res {A B} (f : A -> res B) (l : list A) : res (list B) :=
  match l with
  | [] => Ok []
  | x :: xs =>
      let* y := f x in
      let* ys := map_res f xs in
      Ok (y :: ys)
  end.

(** *** Mappings *)

(** [key in d], [d[key]] for reading *)
Fixpoint assoc (key : string) (d : list (string * value)) : option value :=
  match d with
  | [] => None
  | (k, v) :: rest => if String.eqb k key then Some v else assoc key rest
  end.

(** [d[key] = v]: an existing key keeps its place, a new key goes last. *)
Fixpoint assoc_set (key : string) (v : value) (d : list (string * value))
    : list (string * value) :=
  match d with
  | [] => [(key, v)]
  | (k, x) :: rest =>
      if String.eqb k key then (k, v) :: rest
      else (k, x) :: assoc_set key v rest
  end.

(** [d.get(key, default)]; only mappings have the method. *)
Definition py_get (d : value) (key : string) (default : value) : res value :=
  match d with
  | VDict m => Ok (match assoc key m with Some v => v | None => default end)
  | _ => Raise AttributeError
  end.

(** [d[key]] with a string key. *)
Definition py_getitem (d : value) (key : string) : res value :=
  match d with
  | VDict m =>
      match assoc key m with
      | Some v => Ok v
      | None => Raise (KeyError key)
      end
  | _ => Raise TypeError
  end.

(** [d[key] = v] with a string key. *)
Definition py_setitem (d : value) (key : string) (v : value) : res value :=
  match d with
  | VDict m => Ok (VDict (assoc_set key v m))
  | _ => Raise TypeError
  end.

(** [for x in v]: a list gives its items, a string its characters, a
    mapping its keys. *)
Definition py_iter (v : value) : res (list value) :=
  match v with
  | VList l => Ok l
  | VStr s => Ok (map (fun c => VStr (String c "")) (chars s))
  | VDict m => Ok (map (fun kv => VStr (fst kv)) m)
  | VNone | VInt _ => Raise TypeError
  end.

(** A value used where only a [str] works; [e] is what the operation raises
    on anything else. *)
Definition as_str (v : value) (e : exn) : res string :=
  match v with
  | VStr s => Ok s
  | _ => Raise e
  end.

(** [key in d] for a mapping with string keys: lists and mappings cannot
    be hashed, and no other value is a key. *)
Definition dict_lookup {A} (key : value) (d : gmap string A) : res (option A) :=
  match key with
  | VStr k => Ok (d !! k)
  | VNone | VInt _ => Ok None
  | VList _ | VDict _ => Raise TypeError
  end.

(** The items of the list stored under [key] were changed in place; the
    mapping itself is untouched when [key] is missing or holds another kind
    of container. *)
Definition with_items (d : value) (key : string) (items : list value) : value :=
  match d with
  | VDict m =>
      match assoc key m with
      | Some (VList _) => VDict (assoc_set key (VList items) m)
      | _ => d
      end
  | _ => d
  end.

(** ** Files *)

(** [open(fn)] followed by [rtyaml.load]. *)
Definition read_yaml (fs : gmap string value) (fn : string) : res value :=
  match fs !! fn with
  | Some doc => Ok doc
  | None => Raise (FileNotFoundError fn)
  end.

(** ** [hashlib.sha256]

    The digest is the standard SHA-256 function (FIPS 180-4) on the byte
    string; 32-bit words are numbers in [N] reduced modulo [2^32]. *)

Module Sha256.
Local Open Scope N_scope.

Definition wrap (x : N) : N := x mod 2 ^ 32.
Definition add (x y : N) : N := wrap (x + y).
Definition rotr (n x : N) : N :=
  N.lor (N.shiftr x n) (wrap (N.shiftl x (32 - n))).
Definition lnot32 (x : N) : N := N.lxor x (2 ^ 32 - 1).

Definition ch (x y z : N) : N := N.lxor (N.land x y) (N.land (lnot32 x) z).
Definition maj (x y z : N) : N :=
  N.lxor (N.lxor (N.land x y) (N.land x z)) (N.land y z).
Definition big_sigma0 (x : N) : N :=
  N.lxor (N.lxor (rotr 2 x) (rotr 13 x)) (rotr 22 x).
Definition big_sigma1 (x : N) : N :=
  N.lxor (N.lxor (rotr 6 x) (rotr 11 x)) (rotr 25 x).
Definition small_sigma0 (x : N) : N :=
  N.lxor (N.lxor (rotr 7 x) (rotr 18 x)) (N.shiftr x 3).
Definition small_sigma1 (x : N) : N :=
  N.lxor (N.lxor (rotr 17 x) (rotr 19 x)) (N.shiftr x 10).

(** A table of 32-bit words written as groups of eight hexadecimal digits. *)
Definition hex_value (c : ascii) : N :=
  let n := N_of_ascii c in
  if n <? 58 then n - 48 else n - 87.

Fixpoint hex_words (digits : list ascii) (count : nat) (acc : N) : list N :=
  match digits with
  | [] => []
  | c :: rest =>
      let acc' := 16 * acc + hex_value c in
      match count with
      | O => acc' :: hex_words rest 7 0
      | S count' => hex_words rest count' acc'
      end
  end.

(** The first 32 bits of the fractional parts of the cube roots of the
    first sixty-four primes. *)
Definition round_constants : list N :=
  hex_words (list_ascii_of_string
    ("428a2f9871374491b5c0fbcfe9b5dba53956c25b59f111f1923f82a4ab1c5ed5"
     ++ "d807aa9812835b01243185be550c7dc372be5d7480deb1fe9bdc06a7c19bf174"
     ++ "e49b69c1efbe47860fc19dc6240ca1cc2de92c6f4a7484aa5cb0a9dc76f988da"
     ++ "983e5152a831c66db00327c8bf597fc7c6e00bf3d5a7914706ca635114292967"
     ++ "27b70a852e1b21384d2c6dfc53380d13650a7354766a0abb81c2c92e92722c85"
     ++ "a2bfe8a1a81a664bc24b8b70c76c51a3d192e819d6990624f40e3585106aa070"
     ++ "19a4c1161e376c082748774c34b0bcb5391c0cb34ed8aa4a5b9cca4f682e6ff3"
     ++ "748f82ee78a5636f84c878148cc7020890befffaa4506cebbef9a3f7c67178f2")%string)
    7 0.

(** The eight working variables, and the chaining value between blocks. *)
Record state := State {
  sa : N; sb : N; sc : N; sd : N; se : N; sf : N; sg : N; sh : N }.

Definition initial : state :=
  State 0x6a09e667 0xbb67ae85 0x3c6ef372 0xa54ff53a
        0x510e527f 0x9b05688c 0x1f83d9ab 0x5be0cd19.

(** Padding: the byte 0x80, zero bytes up to 56 modulo 64, then the length
    in bits as a 64-bit big-endian number. *)
Fixpoint big_endian (width : nat) (x : N) : list N :=
  match width with
  | O => []
  | S width' => (x / 256 ^ N.of_nat width') mod 256 :: big_endian width' x
  end.

Definition pad (msg : list N) : list N :=
  let len := N.of_nat (length msg) in
  let zeros := N.to_nat ((119 - len mod 64) mod 64) in
  (msg ++ 128 :: repeat 0 zeros) ++ big_endian 8 (8 * len).

Definition word_of_bytes (b0 b1 b2 b3 : N) : N :=
  ((b0 * 256 + b1) * 256 + b2) * 256 + b3.

Fixpoint words (nwords : nat) (bytes : list N) : list N :=
  match nwords, bytes with
  | S n, b0 :: b1 :: b2 :: b3 :: rest =>
      word_of_bytes b0 b1 b2 b3 :: words n rest
  | _, _ => []
  end.

(** The message schedule: [window] holds the sixteen latest words, oldest
    first; each step appends W(t) = s1(W(t-2)) + W(t-7) + s0(W(t-15)) + W(t-16). *)
Fixpoint schedule (steps : nat) (window : list N) : list N :=
  match steps with
  | O => []
  | S steps' =>
      let at_ i := nth i window 0 in
      let wt := add (add (small_sigma1 (at_ 14%nat)) (at_ 9%nat))
                    (add (small_sigma0 (at_ 1%nat)) (at_ 0%nat)) in
      wt :: schedule steps' (tl window ++ [wt])
  end.

Definition round (s : state) (kw : N * N) : state :=
  let t1 := add (add (add (sh s) (big_sigma1 (se s)))
                     (add (ch (se s) (sf s) (sg s)) (fst kw))) (snd kw) in
  let t2 := add (big_sigma0 (sa s)) (maj (sa s) (sb s) (sc s)) in
  State (add t1 t2) (sa s) (sb s) (sc s) (add (sd s) t1) (se s) (sf s) (sg s).

Definition compress (h : state) (block : list N) : state :=
  let w16 := words 16 block in
  let w := w16 ++ schedule 48 w16 in
  let s := fold_left round (combine round_constants w) h in
  State (add (sa h) (sa s)) (add (sb h) (sb s)) (add (sc h) (sc s))
        (add (sd h) (sd s)) (add (se h) (se s)) (add (sf h) (sf s))
        (add (sg h) (sg s)) (add (sh h) (sh s)).

Fixpoint blocks (count : nat) (h : state) (bytes : list N) : state :=
  match count with
  | O => h
  | S count' => blocks count' (compress h (firstn 64 bytes)) (skipn 64 bytes)
  end.

Definition digest (msg : list N) : state :=
  let padded := pad msg in
  blocks (length padded / 64) initial padded.

Definition hex_digit (d : N) : ascii :=
  if d <? 10 then ascii_of_N (48 + d) else ascii_of_N (87 + d).

Fixpoint hex (width : nat) (x : N) : list ascii :=
  match width with
  | O => []
  | S width' => hex_digit ((x / 16 ^ N.of_nat width') mod 16) :: hex width' x
  end.

(** [hasher.hexdigest()]: sixty-four lower-case hexadecimal digits. *)
Definition hexdigest (msg : list N) : string :=
  let h := digest msg in
  text (concat (map (hex 8)
    [sa h; sb h; sc h; sd h; se h; sf h; sg h; sh h])).

End Sha256.

(** [s.encode("utf8")] for code points below 256: one byte below 128, two
    bytes above. *)
Definition utf8_char (c : ascii) : list N :=
  if (code c <? 128)%N then [code c]
  else [(192 + code c / 64)%N; (128 + code c mod 64)%N].

Definition encode_utf8 (s : string) : list N :=
  concat (map utf8_char (chars s)).

(** ** [os.path] (POSIX flavour) and [urllib.parse.quote_plus] *)

Definition slash : ascii := "/"%char.
Definition dot : ascii := "."%char.

Definition starts_with_slash (s : string) : bool :=
  match s with
  | String c _ => Ascii.eqb c slash
  | EmptyString => false
  end.

Definition ends_with_slash (s : string) : bool :=
  match rev (chars s) with
  | c :: _ => Ascii.eqb c slash
  | [] => false
  end.

(** One step of [os.path.join]: an absolute component replaces what came
    before it; otherwise it is appended, after a slash unless the path so
    far is empty or already ends in one. *)
Definition join_step (path b : string) : string :=
  if starts_with_slash b then b
  else if String.eqb path "" || ends_with_slash path then path +:+ b
  else path +:+ "/" +:+ b.

Definition path_join (a : string) (ps : list string) : string :=
  fold_left join_step ps a.

(** [str.split(sep)] for a one-character separator. *)
Fixpoint split_on (sep : ascii) (l : list ascii) : list (list ascii) :=
  match l with
  | [] => [[]]
  | c :: l' =>
      if Ascii.eqb c sep then [] :: split_on sep l'
      else match split_on sep l' with
           | comp :: comps => (c :: comp) :: comps
           | [] => [[c]]
           end
  end.

Definition str_split (sep : ascii) (s : string) : list string :=
  map text (split_on sep (chars s)).

(** ["/".join(comps)] *)
Fixpoint join_with_slash (comps : list string) : string :=
  match comps with
  | [] => ""
  | [c] => c
  | c :: rest => c +:+ "/" +:+ join_with_slash rest
  end.

(** The loop body of [posixpath.normpath]. *)
Definition normpath_step (initial_slashes : nat) (new_comps : list string)
    (comp : string) : list string :=
  if String.eqb comp "" || String.eqb comp "." then new_comps
  else if negb (String.eqb comp "..")
          || (Nat.eqb initial_slashes 0 && Nat.eqb (length new_comps) 0)
          || match rev new_comps with
             | lastc :: _ => String.eqb lastc ".."
             | [] => false
             end
       then new_comps ++ [comp]
  else removelast new_comps.

Definition normpath (path : string) : string :=
  if String.eqb path "" then "."
  else
    let initial_slashes :=
      match chars path with
      | c1 :: c2 :: c3 :: _ =>
          if Ascii.eqb c1 slash then
            if Ascii.eqb c2 slash && negb (Ascii.eqb c3 slash) then 2 else 1
          else 0
      | [c1; c2] =>
          if Ascii.eqb c1 slash then if Ascii.eqb c2 slash then 2 else 1
          else 0
      | [c1] => if Ascii.eqb c1 slash then 1 else 0
      | [] => 0
      end%nat in
    let comps := fold_left (normpath_step initial_slashes)
                           (str_split slash path) [] in
    let path' := text (repeat slash initial_slashes) +:+ join_with_slash comps in
    if String.eqb path' "" then "." else path'.

(** [posixpath.basename]: what follows the last slash. *)
Definition basename (p : string) : string :=
  match rev (str_split slash p) with
  | lastc :: _ => lastc
  | [] => p
  end.

(** [p.rfind(c)], with -1 when [c] does not occur. *)
Fixpoint rfind_from (c : ascii) (l : list ascii) (i : Z) (found : Z) : Z :=
  match l with
  | [] => found
  | x :: l' => rfind_from c l' (i + 1)%Z (if Ascii.eqb x c then i else found)
  end.

Definition rfind (c : ascii) (s : string) : Z := rfind_from c (chars s) 0%Z (-1)%Z.

(** [posixpath.splitext(p)[0]]: the extension starts at the last dot,
    provided that dot comes after the last slash and some character between
    the two is not a dot. *)
Definition splitext_root (p : string) : string :=
  let sep_index := rfind slash p in
  let dot_index := rfind dot p in
  if (sep_index <? dot_index)%Z then
    let name_start := Z.to_nat (sep_index + 1) in
    let leading := firstn (Z.to_nat dot_index - name_start)
                          (skipn name_start (chars p)) in
    if forallb (fun c => Ascii.eqb c dot) leading then p
    else substring 0 (Z.to_nat dot_index) p
  else p.

(** [string.ascii_letters + string.digits + "_.-~"], the characters
    [quote] never encodes. *)
Definition always_safe (b : N) : bool :=
  (((48 <=? b) && (b <=? 57)) || ((65 <=? b) && (b <=? 90))
   || ((97 <=? b) && (b <=? 122))
   || (b =? 95) || (b =? 46) || (b =? 45) || (b =? 126))%N.

Definition upper_hex_digit (d : N) : ascii :=
  if (d <? 10)%N then ascii_of_N (48 + d) else ascii_of_N (55 + d).

Definition quote_byte (b : N) : list ascii :=
  if always_safe b then [ascii_of_N b]
  else if (b =? 32)%N then ["+"%char]
  else ["%"%char; upper_hex_digit (b / 16); upper_hex_digit (b mod 16)].

Definition quote_plus (s : string) : string :=
  text (concat (map quote_byte (encode_utf8 s))).

(** ** Regular expressions

    A pattern is given by its matcher: applied to what is left of the
    subject, it returns the match that starts there and what follows it.
    None of the patterns used matches the empty string. *)

Definition matcher := list ascii -> option (list ascii * list ascii).

(** A greedy run [p+] of a character class. *)
Definition match_run (p : ascii -> bool) : matcher := fun l =>
  match span p l with
  | ([], _) => None
  | (run, rest) => Some (run, rest)
  end.

(** [(\d+)] *)
Definition match_digits : matcher := match_run is_digit.

(** [(\s+|[^\w\s]+)]: the first alternative is tried first. *)
Definition is_punct (c : ascii) : bool := negb (is_word c) && negb (is_space c).

Definition match_separator : matcher := fun l =>
  match match_run is_space l with
  | Some m => Some m
  | None => match_run is_punct l
  end.

(** [\s+\n]: the greedy [\s+] first takes the whole run of white space
    ([taken] characters) and gives characters back one at a time until a
    newline follows. *)
Fixpoint give_back (taken : nat) (l : list ascii)
    : option (list ascii * list ascii) :=
  match taken with
  | O => None
  | S fewer =>
      match nth_error l taken with
      | Some c =>
          if is_newline c then Some (firstn (S taken) l, skipn (S taken) l)
          else give_back fewer l
      | None => give_back fewer l
      end
  end.

Definition match_space_newline : matcher := fun l =>
  give_back (length (fst (span is_space l))) l.

(** [re.split] with the whole pattern captured: the text before each match
    and the match itself alternate, and the text after the last match ends
    the list.  [pending] is the text read since the last match, latest
    character first. *)
Fixpoint re_split_from (fuel : nat) (m : matcher) (pending l : list ascii)
    : list (list ascii) :=
  match fuel with
  | O => [rev pending ++ l]
  | S fuel' =>
      match l with
      | [] => [rev pending]
      | c :: l' =>
          match m l with
          | Some (sep, rest) => rev pending :: sep :: re_split_from fuel' m [] rest
          | None => re_split_from fuel' m (c :: pending) l'
          end
      end
  end.

Definition re_split (m : matcher) (s : string) : list string :=
  map text (re_split_from (S (length (chars s))) m [] (chars s)).

(** [re.sub]: every match, found from left to right, is replaced. *)
Fixpoint re_sub_from (fuel : nat) (m : matcher) (repl l : list ascii)
    : list ascii :=
  match fuel with
  | O => l
  | S fuel' =>
      match l with
      | [] => []
      | c :: l' =>
          match m l with
          | Some (_, rest) => repl ++ re_sub_from fuel' m repl rest
          | None => c :: re_sub_from fuel' m repl l'
          end
      end
  end.

Definition re_sub (m : matcher) (repl : string) (s : string) : string :=
  text (re_sub_from (S (length (chars s))) m (chars repl) (chars s)).

(** [str.strip()] *)
Fixpoint drop_while (p : ascii -> bool) (l : list ascii) : list ascii :=
  match l with
  | [] => []
  | c :: l' => if p c then drop_while p l' else l
  end.

Definition strip_chars (p : ascii -> bool) (l : list ascii) : list ascii :=
  rev (drop_while p (rev (drop_while p l))).

Definition strip (s : string) : string := text (strip_chars is_space (chars s)).

(** [s.replace(old, new)] for a non-empty [old]: the occurrences are found
    from left to right and do not overlap.  [skip] counts the characters of
    the occurrence just replaced that are still to be passed over. *)
Fixpoint starts_with (prefix l : list ascii) : bool :=
  match prefix, l with
  | [], _ => true
  | p :: prefix', c :: l' => Ascii.eqb p c && starts_with prefix' l'
  | _ :: _, [] => false
  end.

Fixpoint replace_from (old new : list ascii) (skip : nat) (l : list ascii)
    : list ascii :=
  match l with
  | [] => []
  | c :: l' =>
      match skip with
      | S fewer => replace_from old new fewer l'
      | O =>
          if starts_with old l
          then new ++ replace_from old new (length old - 1) l'
          else c :: replace_from old new 0 l'
      end
  end.

Definition str_replace (old new s : string) : string :=
  text (replace_from (chars old) (chars new) 0 (chars s)).

(** ** [int(s)] on a string

    White space around the number is ignored ([int] accepts the C locale's
    white space and the white space above 127), one sign may precede the
    digits, and single underscores may separate digits.  A string with more
    digits than [sys.get_int_max_str_digits()] is refused with [ValueError]
    like any other string that [int] cannot read; the limit is the
    interpreter's default, and sign and underscores do not count. *)

Definition is_int_space (c : ascii) : bool :=
  in_range 9 13 c || (code c =? 32)%N || (code c =? 133)%N || (code c =? 160)%N.

Definition int_max_str_digits : N := 4300.

Definition count_digits (l : list ascii) : N :=
  N.of_nat (length (List.filter is_digit l)).

Definition digit_value (c : ascii) : Z := Z.of_N (code c) - 48.

Fixpoint digits_value (acc : Z) (after_digit : bool) (l : list ascii)
    : option Z :=
  match l with
  | [] => if after_digit then Some acc else None
  | c :: l' =>
      if is_digit c then digits_value (acc * 10 + digit_value c) true l'
      else if Ascii.eqb c "_"%char && after_digit then digits_value acc false l'
      else None
  end.

Definition parse_int (s : string) : option Z :=
  let number := strip_chars is_int_space (chars s) in
  if (int_max_str_digits <? count_digits number)%N then None
  else
    match number with
    | c :: l' =>
        if Ascii.eqb c "-"%char then option_map Z.opp (digits_value 0 false l')
        else if Ascii.eqb c "+"%char then digits_value 0 false l'
        else digits_value 0 false (c :: l')
    | [] => None
    end.

(** ** Generators

    The values yielded so far, and the exception that ended the iteration
    if one was raised. *)

Definition gen (A : Type) : Type := list A * option exn.

Definition gen_raise {A} (e : exn) : gen A := ([], Some e).

(** A [for] loop whose body yields. *)
Fixpoint gen_for {A B} (body : A -> gen B) (items : list A) : gen B :=
  match items with
  | [] => ([], None)
  | x :: xs =>
      match body x with
      | (ys, Some e) => (ys, Some e)
      | (ys, None) => let '(zs, e) := gen_for body xs in (ys ++ zs, e)
      end
  end.

(** A computation that ends in one [yield]. *)
Definition gen_yield {A} (r : res A) : gen A :=
  match r with
  | Ok y => ([y], None)
  | Raise e => gen_raise e
  end.

(** A computation followed by more yielding. *)
Definition gen_bind {A B} (r : res A) (k : A -> gen B) : gen B :=
  match r with
  | Ok a => k a
  | Raise e => gen_raise e
  end.

(** One yielding statement after another. *)
Definition gen_seq {A} (first second : gen A) : gen A :=
  match first with
  | (ys, Some e) => (ys, Some e)
  | (ys, None) => let '(zs, e) := second in (ys ++ zs, e)
  end.

(** A loop body that yields one item, or passes with [continue]. *)
Definition gen_yield_some {A} (r : res (option A)) : gen A :=
  match r with
  | Ok (Some y) => ([y], None)
  | Ok None => ([], None)
  | Raise e => gen_raise e
  end.

(** ** Sorting strings

    [list.sort] on strings that are all different: each is inserted at the
    place the order [<] gives it. *)

Fixpoint insert_sorted (x : string) (l : list string) : list string :=
  match l with
  | [] => [x]
  | y :: l' => if String.ltb x y then x :: l else y :: insert_sorted x l'
  end.

Definition sort_strings (l : list string) : list string :=
  fold_right insert_sorted [] l.

(** ** The records built by [opencontrol.py] *)

(** An element of a natural sort key. *)
Inductive part :=
| PInt (n : Z)
| PStr (s : string).

Module Organization.
Record t := Make { id : string; name : string; abbreviation : string }.
End Organization.

Module Project.
Record t := Make {
  id : string;
  organization : Organization.t;
  title : string;
  path : string;
  description : value;
  url : string }.
End Project.

Module Component.
Record t := Make {
  project : Project.t;
  id : string;
  path : string;
  name : string;
  url : string }.
End Component.

(** The entries of a standard, as [load_project_standards] builds them. *)
Module CatalogControl.
Record t := Make {
  id : string;
  sort_key : string * list part;
  number : string;
  name : value;
  family : value;
  description : value }.
End CatalogControl.

Module CatalogFamily.
Record t := Make {
  id : string;
  sort_key : string;
  number : string;
  name : value }.
End CatalogFamily.

Module Standard.
Record t := Make {
  id : string;
  name : value;
  controls : gmap string CatalogControl.t;
  families : gmap string CatalogFamily.t }.
End Standard.

(** The three nested mappings of a control implementation; the fields that
    only the standard provides are optional. *)
Module StandardInfo.
Record t := Make { id : string; name : value }.
End StandardInfo.

Module FamilyInfo.
Record t := Make {
  abbrev : string;
  name : value;
  sort_key : string;
  id : option string;
  number : option string }.
End FamilyInfo.

Module ControlInfo.
Record t := Make {
  id : string;
  sort_key : string * list part;
  number : string;
  name : value;
  url : string;
  family : option value;
  description : option value }.
End ControlInfo.

Module ControlImpl.
Record t := Make {
  component : Component.t;
  standard : StandardInfo.t;
  family : FamilyInfo.t;
  control : ControlInfo.t;
  source_file : string;
  control_part : value;
  sort_key : (string * list part) * list part;
  narrative : value }.
End ControlImpl.

(** ** [hypergrc/opencontrol.py] *)

Module OpenControl.

Definition short_hash (s : string) (len : nat) : string :=
  substring 0 len (Sha256.hexdigest (encode_utf8 s)).

Definition load_project_from_path (fs : gmap string value)
    (project_dir : string) : res Project.t :=
  let fn := path_join project_dir ["opencontrol.yaml"] in
  let* opencontrol := read_yaml fs fn in
  let* schema_version := py_get opencontrol "schema_version" VNone in
  if negb (value_eqb schema_version (VStr "1.0.0")) then
    Raise (ValueError
      "Don't know how to read OpenControl system file {} which has schema_version {}."
      [VStr fn; schema_version])
  else
    let* declared_name := py_get opencontrol "name" VNone in
    let name := py_or declared_name
      (VStr (splitext_root (basename (normpath project_dir)))) in
    let* metadata := py_get opencontrol "metadata" (VDict []) in
    let* description := py_get metadata "description" VNone in
    let* metadata := py_get opencontrol "metadata" (VDict []) in
    let* organization := py_get metadata "organization" (VDict []) in
    let* organization_name :=
      py_get organization "name" (VStr "No Organization") in
    let* metadata := py_get opencontrol "metadata" (VDict []) in
    let* organization := py_get metadata "organization" (VDict []) in
    let* organization_abbrev :=
      py_get organization "abbreviation" organization_name in
    let* abbrev := as_str organization_abbrev TypeError in
    let* org_name := as_str organization_name AttributeError in
    let organization_id :=
      substring 0 12 abbrev +:+ "-" +:+ short_hash org_name 6 in
    let* title := as_str name TypeError in
    let project_id := substring 0 12 title +:+ "-" +:+ short_hash fn 6 in
    Ok {| Project.id := project_id;
          Project.organization :=
            {| Organization.id := organization_id;
               Organization.name := org_name;
               Organization.abbreviation := abbrev |};
          Project.title := title;
          Project.path := project_dir;
          Project.description := description;
          Project.url :=
            "/organizations/" +:+ quote_plus organization_id
            +:+ "/projects/" +:+ quote_plus project_id |}.

(** The body of the loop of [load_project_components]. *)
Definition load_component (fs : gmap string value) (project : Project.t)
    (component_path : value) : res Component.t :=
  let* component_path := as_str component_path TypeError in
  let fn2 := path_join (Project.path project) [component_path; "component.yaml"] in
  let* component := read_yaml fs fn2 in
  let* schema_version := py_get component "schema_version" VNone in
  if negb (value_eqb schema_version (VStr "3.0.0")) then
    Raise (ValueError
      "Don't know how to read OpenControl component file {} which has schema_version {}."
      [VStr fn2; schema_version])
  else
    let* declared_name := py_get component "name" VNone in
    let name := py_or declared_name
      (VStr (splitext_root (basename (normpath component_path)))) in
    let* name := as_str name TypeError in
    let component_id :=
      substring 0 12 name +:+ "-" +:+ short_hash component_path 6 in
    Ok {| Component.project := project;
          Component.id := component_id;
          Component.path := path_join (Project.path project) [component_path];
          Component.name := name;
          Component.url :=
            Project.url project +:+ "/components/" +:+ quote_plus component_id |}.

Definition load_project_components (fs : gmap string value)
    (project : Project.t) : gen Component.t :=
  let fn1 := path_join (Project.path project) ["opencontrol.yaml"] in
  gen_bind
    (let* opencontrol := read_yaml fs fn1 in
     let* schema_version := py_get opencontrol "schema_version" VNone in
     if negb (value_eqb schema_version (VStr "1.0.0")) then
       Raise (ValueError
         "Don't know how to read OpenControl system file {} which has schema_version {}."
         [VStr fn1; schema_version])
     else
       let* components := py_get opencontrol "components" (VList []) in
       py_iter components)
    (gen_for (fun component_path =>
                gen_yield (load_component fs project component_path))).

(** The loop stops at the first component with the requested id; an
    exception of the generator is met only if no component yielded before it
    has that id. *)
Definition load_project_component (fs : gmap string value)
    (project : Project.t) (component_id : string) : res Component.t :=
  let '(components, raised) := load_project_components fs project in
  match List.find (fun component => String.eqb (Component.id component) component_id)
                  components with
  | Some component => Ok component
  | None =>
      match raised with
      | Some e => Raise e
      | None =>
          Raise (ValueError "Component {} does not exist in project {}."
                            [VStr component_id; VStr (Project.id project)])
      end
  end.

Definition intify (s : string) : part :=
  match parse_int s with
  | Some n => PInt n
  | None => PStr s
  end.

(** [re.split] needs a string, so a true value of another type raises. *)
Definition make_control_number_sort_key (s : value) : res (list part) :=
  let* subject := as_str (py_or s (VStr "")) TypeError in
  Ok (map intify (re_split match_digits subject)).

(** The conditions of the two comprehensions of [load_project_standards]:
    a mapping whose [type] is missing or [None] is a control, a mapping whose
    [type] is "family" is a family. *)
Definition is_control_data (control_data : value) : bool :=
  match control_data with
  | VDict fields => value_eqb (default VNone (assoc "type" fields)) VNone
  | _ => false
  end.

Definition is_family_data (family_data : value) : bool :=
  match family_data with
  | VDict fields => value_eqb (default VNone (assoc "type" fields)) (VStr "family")
  | _ => false
  end.

(** The values of the two comprehensions. *)
Definition catalog_control (standard_key control_number : string)
    (control_data : value) : res CatalogControl.t :=
  let* number_key := make_control_number_sort_key (VStr control_number) in
  let* name := py_getitem control_data "name" in
  let* family := py_getitem control_data "family" in
  let* description := py_getitem control_data "description" in
  Ok {| CatalogControl.id := control_number;
        CatalogControl.sort_key := (standard_key, number_key);
        CatalogControl.number := control_number;
        CatalogControl.name := name;
        CatalogControl.family := family;
        CatalogControl.description := description |}.

Definition catalog_family (family_id : string) (family_data : value)
    : res CatalogFamily.t :=
  let* name := py_getitem family_data "name" in
  Ok {| CatalogFamily.id := family_id;
        CatalogFamily.sort_key := family_id;
        CatalogFamily.number := family_id;
        CatalogFamily.name := name |}.

(** [{key: entry(key, v) for key, v in items if keep(v)}]: the items are
    visited in order, and a key met again replaces the earlier entry. *)
Fixpoint dict_comprehension {A} (keep : value -> bool)
    (entry : string -> value -> res A) (items : list (string * value))
    (built : gmap string A) : res (gmap string A) :=
  match items with
  | [] => Ok built
  | (key, v) :: later =>
      if keep v then
        let* x := entry key v in
        dict_comprehension keep entry later (<[key := x]> built)
      else dict_comprehension keep entry later built
  end.

(** The body of the inner loop of [load_project_standards]: one catalog
    file. *)
Definition load_standard (fs : gmap string value) (project : Project.t)
    (standards_dir : string) (standard_fn : value)
    : res (string * Standard.t) :=
  let* standard_fn := as_str standard_fn TypeError in
  let fn3 := path_join (Project.path project) [standards_dir; standard_fn] in
  let standard_key := splitext_root (basename (normpath fn3)) in
  let* standard_opencontrol := read_yaml fs fn3 in
  let* name := py_getitem standard_opencontrol "name" in
  let* items :=
    match standard_opencontrol with
    | VDict fields => Ok fields
    | _ => Raise AttributeError
    end in
  let* controls :=
    dict_comprehension is_control_data (catalog_control standard_key) items ∅ in
  let* families := dict_comprehension is_family_data catalog_family items ∅ in
  Ok (standard_key,
      {| Standard.id := standard_key;
         Standard.name := name;
         Standard.controls := controls;
         Standard.families := families |}).

(** The body of the outer loop: one directory of standards. *)
Definition standards_of_dir (fs : gmap string value) (project : Project.t)
    (standards_dir : value) : gen (string * Standard.t) :=
  match standards_dir with
  | VStr standards_dir =>
      let fn2 :=
        path_join (Project.path project) [standards_dir; "opencontrol.yaml"] in
      gen_bind
        (let* standards_opencontrol := read_yaml fs fn2 in
         let* schema_version := py_get standards_opencontrol "schema_version" VNone in
         if negb (value_eqb schema_version (VStr "1.0.0")) then
           Raise (ValueError
             "Don't know how to read OpenControl standards file {} which has schema_version {}."
             [VStr fn2; schema_version])
         else
           let* standards := py_get standards_opencontrol "standards" (VList []) in
           py_iter standards)
        (gen_for (fun standard_fn =>
           gen_yield (load_standard fs project standards_dir standard_fn)))
  | _ => gen_raise TypeError
  end.

Definition load_project_standards (fs : gmap string value)
    (project : Project.t) : gen (string * Standard.t) :=
  let fn1 := path_join (Project.path project) ["opencontrol.yaml"] in
  gen_bind
    (let* system_opencontrol := read_yaml fs fn1 in
     let* schema_version := py_get system_opencontrol "schema_version" VNone in
     if negb (value_eqb schema_version (VStr "1.0.0")) then
       Raise (ValueError
         "Don't know how to read OpenControl system file {} which has schema_version {}."
         [VStr fn1; schema_version])
     else
       let* standards := py_getitem system_opencontrol "standards" in
       py_iter standards)
    (gen_for (standards_of_dir fs project)).

(** The metadata of one [satisfies] entry: what the component declares,
    overlaid with what the standards say. *)
Definition control_metadata (component : Component.t)
    (standards : gmap string Standard.t) (control : value)
    : res (StandardInfo.t * FamilyInfo.t * ControlInfo.t) :=
  let* standard_key := py_getitem control "standard_key" in
  let* control_key := py_getitem control "control_key" in
  let* control_key := as_str control_key AttributeError in
  let family_abbrev := hd "" (str_split "-"%char control_key) in
  let* number_key := make_control_number_sort_key (VStr control_key) in
  let* name := py_getitem control "name" in
  let* standard_key := as_str standard_key TypeError in
  let standard0 :=
    {| StandardInfo.id := standard_key; StandardInfo.name := VStr standard_key |} in
  let family0 :=
    {| FamilyInfo.abbrev := family_abbrev;
       FamilyInfo.name := VStr family_abbrev;
       FamilyInfo.sort_key := family_abbrev;
       FamilyInfo.id := None;
       FamilyInfo.number := None |} in
  let control0 :=
    {| ControlInfo.id := control_key;
       ControlInfo.sort_key := (standard_key, number_key);
       ControlInfo.number := control_key;
       ControlInfo.name := name;
       ControlInfo.url :=
         Project.url (Component.project component) +:+ "/controls/"
         +:+ quote_plus standard_key +:+ "/" +:+ quote_plus control_key;
       ControlInfo.family := None;
       ControlInfo.description := None |} in
  match standards !! standard_key with
  | None => Ok (standard0, family0, control0)
  | Some standard =>
      let standard1 :=
        {| StandardInfo.id := standard_key;
           StandardInfo.name := Standard.name standard |} in
      match Standard.controls standard !! control_key with
      | None => Ok (standard1, family0, control0)
      | Some c =>
          let control1 :=
            {| ControlInfo.id := CatalogControl.id c;
               ControlInfo.sort_key := CatalogControl.sort_key c;
               ControlInfo.number := CatalogControl.number c;
               ControlInfo.name := CatalogControl.name c;
               ControlInfo.url := ControlInfo.url control0;
               ControlInfo.family := Some (CatalogControl.family c);
               ControlInfo.description := Some (CatalogControl.description c) |} in
          let* family := dict_lookup (CatalogControl.family c)
                                     (Standard.families standard) in
          match family with
          | None => Ok (standard1, family0, control1)
          | Some f =>
              Ok (standard1,
                  {| FamilyInfo.abbrev := family_abbrev;
                     FamilyInfo.name := CatalogFamily.name f;
                     FamilyInfo.sort_key := CatalogFamily.sort_key f;
                     FamilyInfo.id := Some (CatalogFamily.id f);
                     FamilyInfo.number := Some (CatalogFamily.number f) |},
                  control1)
          end
      end
  end.

(** The record yielded for one narrative part. *)
Definition controlimpl_of_part (component : Component.t) (fn : string)
    (metadata : StandardInfo.t * FamilyInfo.t * ControlInfo.t)
    (narrative_part : value) : res ControlImpl.t :=
  let '(standard, family, control) := metadata in
  let* control_part := py_get narrative_part "key" VNone in
  let* key := py_get narrative_part "key" VNone in
  let* part_key := make_control_number_sort_key key in
  let* narrative := py_getitem narrative_part "text" in
  Ok {| ControlImpl.component := component;
        ControlImpl.standard := standard;
        ControlImpl.family := family;
        ControlImpl.control := control;
        ControlImpl.source_file := fn;
        ControlImpl.control_part := control_part;
        ControlImpl.sort_key := (ControlInfo.sort_key control, part_key);
        ControlImpl.narrative := narrative |}.

(** The body of the loop over [satisfies]: the records of one entry. *)
Definition controls_of_entry (component : Component.t)
    (standards : gmap string Standard.t) (fn : string) (control : value)
    : gen ControlImpl.t :=
  gen_bind (control_metadata component standards control) (fun metadata =>
  gen_bind
    (let* narrative := py_get control "narrative" (VList []) in
     py_iter narrative)
    (gen_for (fun narrative_part =>
       gen_yield (controlimpl_of_part component fn metadata narrative_part)))).

Definition load_project_component_controls (fs : gmap string value)
    (component : Component.t) (standards : gmap string Standard.t)
    : gen ControlImpl.t :=
  let fn := path_join (Component.path component) ["component.yaml"] in
  gen_bind
    (let* component_opencontrol := read_yaml fs fn in
     let* schema_version := py_get component_opencontrol "schema_version" VNone in
     if negb (value_eqb schema_version (VStr "3.0.0")) then
       Raise (ValueError
         "Don't know how to read OpenControl component file {} which has schema_version {}."
         [VStr fn; schema_version])
     else
       let* satisfies := py_get component_opencontrol "satisfies" (VList []) in
       py_iter satisfies)
    (gen_for (controls_of_entry component standards fn)).

(** The inner loop body of [update_component_control]. *)
Definition update_narrative_part (controlimpl : ControlImpl.t)
    (narrative_part : value) : res value :=
  let* key := py_get narrative_part "key" VNone in
  if value_eqb key (ControlImpl.control_part controlimpl) then
    py_setitem narrative_part "text" (ControlImpl.narrative controlimpl)
  else Ok narrative_part.

(** The outer loop body of [update_component_control]. *)
Definition update_satisfies_entry (controlimpl : ControlImpl.t)
    (control : value) : res value :=
  let* standard_key := py_getitem control "standard_key" in
  if value_eqb standard_key
       (VStr (StandardInfo.id (ControlImpl.standard controlimpl))) then
    let* control_key := py_getitem control "control_key" in
    if value_eqb control_key
         (VStr (ControlInfo.id (ControlImpl.control controlimpl))) then
      let* narrative := py_get control "narrative" (VList []) in
      let* parts := py_iter narrative in
      let* parts' := map_res (update_narrative_part controlimpl) parts in
      Ok (with_items control "narrative" parts')
    else Ok control
  else Ok control.

(** The file is read, the document is changed in memory, and the whole
    document is written back; the function has no [return] statement, so
    the caller receives [None]. *)
Definition update_component_control (fs : gmap string value)
    (controlimpl : ControlImpl.t) : res (gmap string value * value) :=
  let fn := ControlImpl.source_file controlimpl in
  let* data := read_yaml fs fn in
  let* satisfies := py_getitem data "satisfies" in
  let* controls := py_iter satisfies in
  let* controls' := map_res (update_satisfies_entry controlimpl) controls in
  Ok (<[fn := with_items data "satisfies" controls']> fs, VNone).

End OpenControl.

(** ** Comparison of sort keys

    Tuples compare item by item: the first pair of unequal items decides,
    and comparing an integer with a string raises [TypeError]. *)

Definition part_eqb (a b : part) : bool :=
  match a, b with
  | PInt n, PInt m => Z.eqb n m
  | PStr s, PStr t => String.eqb s t
  | _, _ => false
  end.

Definition part_lt (a b : part) : res bool :=
  match a, b with
  | PInt n, PInt m => Ok (Z.ltb n m)
  | PStr s, PStr t => Ok (String.ltb s t)
  | _, _ => Raise TypeError
  end.

Fixpoint tuple_lt (a b : list part) : res bool :=
  match a, b with
  | [], [] => Ok false
  | [], _ :: _ => Ok true
  | _ :: _, [] => Ok false
  | x :: a', y :: b' => if part_eqb x y then tuple_lt a' b' else part_lt x y
  end.

(** ** [hypergrc/routes.py] *)

(** What [get_contol] returns. *)
Module Resolved.
Record t := Make { id : string; name : string; description : value }.
End Resolved.

(** The tuple of ten items that [load_component_controls] yields for a
    control entry, item by item. *)
Module ControlRecord.
Record t := Make {
  control_group : value;
  control_key : value;
  control_part : value;
  name : value;
  component_order : value;
  component_name : string;
  security_control_type : value;
  implementation_status : value;
  summary : value;
  narrative : value }.
End ControlRecord.

Module Routes.

(** The loop of [get_contol] over [reversed(range(len(control_parts)))]. *)
Fixpoint get_contol_loop (standard : list (string * value))
    (control_id : string) (control_parts : list string) (indices : list nat)
    : res Resolved.t :=
  match indices with
  | [] =>
      Ok {| Resolved.id := control_id;
            Resolved.name := "[" +:+ control_id +:+ "]";
            Resolved.description := VNone |}
  | i :: earlier =>
      let test_id := join (firstn (i + 1) control_parts) in
      let id_remainder := join (skipn (i + 1) control_parts) in
      match assoc test_id standard with
      | Some entry =>
          let* name := py_getitem entry "name" in
          let* name := as_str name TypeError in
          let* description :=
            if String.eqb id_remainder "" then py_getitem entry "description"
            else Ok (VStr ("See " +:+ test_id +:+ ", " +:+ id_remainder +:+ ".")) in
          Ok {| Resolved.id :=
                  control_id
                  +:+ (if String.eqb id_remainder "" then "" else id_remainder);
                Resolved.name :=
                  name
                  +:+ (if String.eqb id_remainder "" then ""
                       else " " +:+ id_remainder);
                Resolved.description := description |}
      | None => get_contol_loop standard control_id control_parts earlier
      end
  end.

Definition get_contol (standard : list (string * value)) (control_id : string)
    : res Resolved.t :=
  let control_parts := re_split match_separator control_id in
  get_contol_loop standard control_id control_parts
    (rev (seq 0 (length control_parts))).

(** The body of the loop of [load_component_controls] over
    [data.get("satisfies", [])]; the standard's metadata is looked up before
    the control number filter is applied. *)
Definition record_of_satisfies (standards : list (string * value))
    (filter_control_number : value) (component_name : string) (control : value)
    : res (option ControlRecord.t) :=
  let* control_key := py_getitem control "control_key" in
  let* key := as_str control_key AttributeError in
  let control_id := str_replace "-0" "-" key in
  let* control_standard := get_contol standards control_id in
  if truthy filter_control_number
     && negb (value_eqb (VStr control_id) filter_control_number)
  then Ok None
  else
    let* control_group :=
      match control with
      | VDict fields =>
          match assoc "control_family" fields with
          | Some control_family => Ok control_family
          | None => Ok (VStr (hd "" (str_split "-"%char key)))
          end
      | _ => Raise TypeError
      end in
    let* control_key_part := py_get control "control_key_part" VNone in
    let* security_control_type := py_get control "security_control_type" VNone in
    let* implementation_status := py_get control "implementation_status" VNone in
    let* summary := py_get control "summary" VNone in
    let* narrative := py_get control "narrative" VNone in
    Ok (Some
      {| ControlRecord.control_group := control_group;
         ControlRecord.control_key := control_key;
         ControlRecord.control_part := py_or control_key_part (VStr "");
         ControlRecord.name := VStr (Resolved.name control_standard);
         ControlRecord.component_order := VNone;
         ControlRecord.component_name := component_name;
         ControlRecord.security_control_type := security_control_type;
         ControlRecord.implementation_status := implementation_status;
         ControlRecord.summary := summary;
         ControlRecord.narrative := narrative |}).

(** The body of the loop over [data.get("controls", [])]; here the filter
    comes first. *)
Definition record_of_control (standards : list (string * value))
    (filter_control_number : value) (component_name : string) (control : value)
    : res (option ControlRecord.t) :=
  let* skip :=
    if truthy filter_control_number then
      let* number := py_getitem control "control" in
      Ok (negb (value_eqb number filter_control_number))
    else Ok false in
  if skip then Ok None
  else
    let* number := py_getitem control "control" in
    let* control_number := as_str number TypeError in
    let* control_standard := get_contol standards control_number in
    let* security_control_type := py_get control "security_control_type" VNone in
    let* implementation_status := py_get control "implementation_status" VNone in
    let* summary := py_get control "summary" VNone in
    let* narrative := py_get control "control-narrative" VNone in
    Ok (Some
      {| ControlRecord.control_group :=
           VStr (hd "" (str_split "-"%char control_number));
         ControlRecord.control_key := number;
         ControlRecord.control_part := VNone;
         ControlRecord.name := VStr (Resolved.name control_standard);
         ControlRecord.component_order := VNone;
         ControlRecord.component_name := component_name;
         ControlRecord.security_control_type := security_control_type;
         ControlRecord.implementation_status :=
           py_or implementation_status (VStr "Unknown");
         ControlRecord.summary := summary;
         ControlRecord.narrative := narrative |}).

(** The body of the loop over the control files: one file, first its
    [satisfies] entries, then its [controls] entries. *)
Definition records_of_file (standards : list (string * value))
    (filter_control_number : value) (fs : gmap string value)
    (file : string * string) : gen ControlRecord.t :=
  let '(component_name, control_family_fn) := file in
  gen_bind (read_yaml fs control_family_fn) (fun data =>
    gen_seq
      (gen_bind
         (let* satisfies := py_get data "satisfies" (VList []) in
          py_iter satisfies)
         (gen_for (fun control =>
            gen_yield_some
              (record_of_satisfies standards filter_control_number
                                   component_name control))))
      (gen_bind
         (let* controls := py_get data "controls" (VList []) in
          py_iter controls)
         (gen_for (fun control =>
            gen_yield_some
              (record_of_control standards filter_control_number
                                 component_name control))))).

(** [load_component_controls], from its loop on: [standards] is the mapping
    that [get_standard_controls_data] has read, and [control_files] are the
    pairs of component name and file that [iterate_control_files] yields;
    the configuration lookup and the directory listing that produce them
    are not part of the model. *)
Definition load_component_controls (standards : list (string * value))
    (control_files : list (string * string)) (filter_control_number : value)
    (fs : gmap string value) : gen ControlRecord.t :=
  gen_for (records_of_file standards filter_control_number fs) control_files.

(** [load_components]: the names of the components that have records, as
    a set, made into mappings and sorted by name. *)
Definition load_components (standards : list (string * value))
    (control_files : list (string * string)) (fs : gmap string value)
    : res (list value) :=
  match load_component_controls standards control_files VNone fs with
  | (entries, None) =>
      let component_names :=
        remove_dups (map ControlRecord.component_name entries) in
      Ok (map (fun component_name => VDict [("name", VStr component_name)])
              (sort_strings component_names))
  | (_, Some e) => Raise e
  end.

(** [update_control.clean_text] *)
Definition clean_text (text : string) : value :=
  let text := strip text in
  let text := re_sub match_space_newline (String newline "") text in
  if String.eqb text "" then VNone else VStr text.

(** [request.form.get(key, "")] *)
Definition form_get (form : gmap string string) (key : string) : string :=
  default "" (form !! key).

(** [request.form[key]] *)
Definition form_getitem (form : gmap string string) (key : string) : res string :=
  match form !! key with
  | Some v => Ok v
  | None => Raise (KeyError key)
  end.

(** The test of [update_control] on one entry. *)
Definition form_matches (form : gmap string string) (controldata : value)
    : res bool :=
  let* control_key := py_getitem controldata "control_key" in
  let* wanted := form_getitem form "control_key" in
  if value_eqb control_key (VStr wanted) then
    let* control_key_part := py_get controldata "control_key_part" VNone in
    Ok (value_eqb (py_or control_key_part (VStr ""))
                  (VStr (form_get form "control_part")))
  else Ok false.

(** The three assignments made on the entry that was found. *)
Definition apply_form (form : gmap string string) (controldata : value)
    : res value :=
  let* controldata :=
    py_setitem controldata "summary" (clean_text (form_get form "summary")) in
  let* controldata :=
    py_setitem controldata "narrative" (clean_text (form_get form "narrative")) in
  py_setitem controldata "implementation_status"
    (clean_text (form_get form "status")).

(** The loop over [data["satisfies"]]: the entries as they are written
    back when one of them matched, [None] when none did. *)
Fixpoint update_first_match (form : gmap string string) (entries : list value)
    : res (option (list value)) :=
  match entries with
  | [] => Ok None
  | controldata :: later =>
      let* hit := form_matches form controldata in
      if hit then
        let* updated := apply_form form controldata in
        Ok (Some (updated :: later))
      else
        let* found := update_first_match form later in
        Ok (option_map (cons controldata) found)
  end.

(** [update_control], from its loop on: [control_files] are the files that
    [iterate_control_files] yields for the component named in the form; the
    configuration lookup and the directory listing that produce them are
    not part of the model. *)
Fixpoint update_control (control_files : list string)
    (form : gmap string string) (fs : gmap string value)
    : res (gmap string value * value) :=
  match control_files with
  | [] => Ok (fs, VStr "NOTFOUND")
  | control_file :: later =>
      let* data := read_yaml fs control_file in
      let* satisfies := py_getitem data "satisfies" in
      let* entries := py_iter satisfies in
      let* found := update_first_match form entries in
      match found with
      | Some entries' =>
          Ok (<[control_file := with_items data "satisfies" entries']> fs,
              VStr "OK")
      | None => update_control later form fs
      end
  end.

End Routes.

(** * The vocabulary of the properties

    Predicates in which the properties are stated, and the sample system
    on which they are exercised. *)

(** ** Natural sort keys *)

Definition digit_free (l : list ascii) : Prop :=
  Forall (fun c => is_digit c = false) l.

Definition all_digits (l : list ascii) : Prop :=
  Forall (fun c => is_digit c = true) l.

(** A text with no more digits than [int] reads. *)
Definition within_int_limit (l : list ascii) : bool :=
  (count_digits l <=? int_max_str_digits)%N.

(** What [re.split] with [(\d+)] returns: text without digits and non-empty
    runs of digits alternate, text first and last. *)
Fixpoint key_shape (parts : list (list ascii)) : Prop :=
  match parts with
  | [] => False
  | [t] => digit_free t
  | t :: d :: rest => digit_free t /\ d <> [] /\ all_digits d /\ key_shape rest
  end.

Definition is_int (x : part) : bool :=
  match x with
  | PInt _ => true
  | PStr _ => false
  end.

(** The kinds of the items of a key alternate, starting with an integer
    when [odd] holds and with a string otherwise. *)
Fixpoint kinded (odd : bool) (k : list part) : Prop :=
  match k with
  | [] => True
  | x :: k' => is_int x = odd /\ kinded (negb odd) k'
  end.

(** The argument of the key builder: a string, or [None]. *)
Definition key_argument (s : option string) : value :=
  match s with
  | Some s => VStr s
  | None => VNone
  end.

(** The strings whose runs of digits [int] reads: each part that
    [re.split] returns is within the limit.  [None] has no digits. *)
Definition numerals_within_limit (s : option string) : bool :=
  match s with
  | Some s => forallb (fun p => within_int_limit (chars p)) (re_split match_digits s)
  | None => true
  end.

(** A numeral with one digit more than [int] reads. *)
Definition long_numeral : string :=
  text (repeat "9"%char (S (N.to_nat int_max_str_digits))).

(** Items of kind integer sit exactly at the odd positions of a key. *)
Definition alternates (k : list part) : Prop :=
  forall i x, k !! i = Some x -> is_int x = Nat.odd i.

(** ** Identifiers *)

Definition is_lower_hex (c : ascii) : bool := in_range 48 57 c || in_range 97 102 c.

(** The manifest of the sample component: one control, implemented in two
    narrative fragments; [text] is the text of fragment "a". *)
Definition demo_manifest (text : value) : value :=
  VDict [("schema_version", VStr "3.0.0");
         ("satisfies", VList [
            VDict [("standard_key", VStr "NIST-800-53");
                   ("control_key", VStr "AC-2");
                   ("name", VStr "Account Management");
                   ("narrative", VList [
                      VDict [("key", VStr "a"); ("text", text)];
                      VDict [("key", VStr "b");
                             ("text", VStr "Accounts expire.")]])]])].

(** A system that declares only its schema version and one component, in
    a directory whose name contains a space. *)
Definition demo_fs : gmap string value :=
  {[ "my project/opencontrol.yaml" :=
       VDict [("schema_version", VStr "1.0.0");
              ("components", VList [VStr "components/web app"])];
     "my project/components/web app/component.yaml" :=
       demo_manifest (VStr "Accounts are reviewed.") ]}.

Definition demo_project : Project.t :=
  {| Project.id := "my project-c16e81";
     Project.organization :=
       {| Organization.id := "No Organizat-7ac559";
          Organization.name := "No Organization";
          Organization.abbreviation := "No Organization" |};
     Project.title := "my project";
     Project.path := "my project";
     Project.description := VNone;
     Project.url :=
       "/organizations/No+Organizat-7ac559/projects/my+project-c16e81" |}.

Definition demo_component : Component.t :=
  {| Component.project := demo_project;
     Component.id := "web app-801886";
     Component.path := "my project/components/web app";
     Component.name := "web app";
     Component.url :=
       "/organizations/No+Organizat-7ac559/projects/my+project-c16e81"
       +:+ "/components/web+app-801886" |}.

(** The identifier generator in the words of the specification: the first
    six hexadecimal digits of the SHA-256 digest, and the first twelve
    characters of the name joined to them by a hyphen. *)
Definition shortHash (input : string) : string :=
  substring 0 6 (Sha256.hexdigest (encode_utf8 input)).

Definition makeId (name stableSource : string) : string :=
  substring 0 12 name +:+ "-" +:+ shortHash stableSource.

(** The characters that need no percent-encoding, and those that occur in
    a percent-encoded string. *)
Definition is_unreserved (c : ascii) : bool :=
  in_range 48 57 c || in_range 65 90 c || in_range 97 122 c
  || (code c =? 45)%N || (code c =? 46)%N || (code c =? 95)%N || (code c =? 126)%N.

Definition is_url_safe (c : ascii) : bool :=
  is_unreserved c || (code c =? 37)%N || (code c =? 43)%N.

(** ** The narrative aggregator *)

(** An entry without narrative fragments: the key is missing or holds an
    empty list. *)
Definition no_fragments (control : value) : Prop :=
  exists fields, control = VDict fields
    /\ (assoc "narrative" fields = None \/ assoc "narrative" fields = Some (VList [])).

(** Whether the family that the standards give for the control of an
    entry can be looked up among the families: a list or a mapping cannot.
    Nothing is looked up when the standards do not list the control. *)
Definition is_hashable (v : value) : bool :=
  match v with
  | VList _ | VDict _ => false
  | _ => true
  end.

Definition family_is_hashable (standards : gmap string Standard.t)
    (standard_key control_key : string) : bool :=
  match standards !! standard_key with
  | Some standard =>
      match Standard.controls standard !! control_key with
      | Some c => is_hashable (CatalogControl.family c)
      | None => true
      end
  | None => true
  end.

(** The manifest of the demo component with an entry that has its two
    fragments but no [name]. *)
Definition demo_fs_unnamed : gmap string value :=
  {[ "my project/components/web app/component.yaml" :=
       VDict [("schema_version", VStr "3.0.0");
              ("satisfies", VList [
                 VDict [("standard_key", VStr "NIST-800-53");
                        ("control_key", VStr "AC-2");
                        ("narrative", VList [
                           VDict [("key", VStr "a");
                                  ("text", VStr "Accounts are reviewed.")];
                           VDict [("key", VStr "b");
                                  ("text", VStr "Accounts expire.")]])]])] ]}.

Definition demo_standards : gmap string Standard.t :=
  {[ "NIST-800-53" :=
       {| Standard.id := "NIST-800-53";
          Standard.name := VStr "NIST SP 800-53";
          Standard.controls :=
            {[ "AC-2" :=
                 {| CatalogControl.id := "AC-2";
                    CatalogControl.sort_key :=
                      ("NIST-800-53", [PStr "AC-"; PInt 2; PStr ""]);
                    CatalogControl.number := "AC-2";
                    CatalogControl.name := VStr "Account Management";
                    CatalogControl.family := VStr "AC";
                    CatalogControl.description := VStr "Manage accounts." |} ]};
          Standard.families :=
            {[ "AC" :=
                 {| CatalogFamily.id := "AC";
                    CatalogFamily.sort_key := "AC";
                    CatalogFamily.number := "AC";
                    CatalogFamily.name := VStr "Access Control" |} ]} |} ]}.

(** ** The targeted updater *)

(** The tests of the two loops of [update_component_control]. *)
Definition entry_matches (controlimpl : ControlImpl.t)
    (entry : list (string * value)) : bool :=
  match assoc "standard_key" entry, assoc "control_key" entry with
  | Some standard_key, Some control_key =>
      value_eqb standard_key
        (VStr (StandardInfo.id (ControlImpl.standard controlimpl)))
      && value_eqb control_key
           (VStr (ControlInfo.id (ControlImpl.control controlimpl)))
  | _, _ => false
  end.

Definition part_matches (controlimpl : ControlImpl.t)
    (narrative_part : list (string * value)) : bool :=
  value_eqb (default VNone (assoc "key" narrative_part))
            (ControlImpl.control_part controlimpl).

(** All the fields of a mapping but the one called [key], in their order. *)
Definition fields_except (key : string) (d : list (string * value))
    : list (string * value) :=
  List.filter (fun kv => negb (String.eqb (fst kv) key)) d.

(** [d'] is [d] up to the value stored under [key]: the other fields and
    their order are the same, and a key that was there keeps its place. *)
Definition same_but (key : string) (d d' : list (string * value)) : Prop :=
  fields_except key d' = fields_except key d
  /\ (is_Some (assoc key d) -> map fst d' = map fst d).

(** How a narrative part, a [satisfies] entry and a whole document may
    differ after the update. *)
Definition part_frame (controlimpl : ControlImpl.t) (p p' : value) : Prop :=
  match p with
  | VDict fields =>
      if part_matches controlimpl fields then
        exists fields', p' = VDict fields'
          /\ same_but "text" fields fields'
          /\ assoc "text" fields' = Some (ControlImpl.narrative controlimpl)
      else p' = p
  | _ => p' = p
  end.

Definition entry_frame (controlimpl : ControlImpl.t) (e e' : value) : Prop :=
  match e with
  | VDict fields =>
      match entry_matches controlimpl fields, assoc "narrative" fields with
      | true, Some (VList parts) =>
          exists fields' parts', e' = VDict fields'
            /\ same_but "narrative" fields fields'
            /\ assoc "narrative" fields' = Some (VList parts')
            /\ Forall2 (part_frame controlimpl) parts parts'
      | _, _ => e' = e
      end
  | _ => e' = e
  end.

Definition doc_frame (controlimpl : ControlImpl.t) (d d' : value) : Prop :=
  match d with
  | VDict fields =>
      match assoc "satisfies" fields with
      | Some (VList entries) =>
          exists fields' entries', d' = VDict fields'
            /\ same_but "satisfies" fields fields'
            /\ assoc "satisfies" fields' = Some (VList entries')
            /\ Forall2 (entry_frame controlimpl) entries entries'
      | _ => d' = d
      end
  | _ => d' = d
  end.

(** The record the aggregator yields for fragment [part] of the demo
    component, carrying [narrative]. *)
Definition demo_controlimpl (part : string) (narrative : value) : ControlImpl.t :=
  {| ControlImpl.component := demo_component;
     ControlImpl.standard :=
       {| StandardInfo.id := "NIST-800-53";
          StandardInfo.name := VStr "NIST SP 800-53" |};
     ControlImpl.family :=
       {| FamilyInfo.abbrev := "AC";
          FamilyInfo.name := VStr "Access Control";
          FamilyInfo.sort_key := "AC";
          FamilyInfo.id := Some "AC";
          FamilyInfo.number := Some "AC" |};
     ControlImpl.control :=
       {| ControlInfo.id := "AC-2";
          ControlInfo.sort_key := ("NIST-800-53", [PStr "AC-"; PInt 2; PStr ""]);
          ControlInfo.number := "AC-2";
          ControlInfo.name := VStr "Account Management";
          ControlInfo.url :=
            Project.url demo_project +:+ "/controls/NIST-800-53/AC-2";
          ControlInfo.family := Some (VStr "AC");
          ControlInfo.description := Some (VStr "Manage accounts.") |};
     ControlImpl.source_file := "my project/components/web app/component.yaml";
     ControlImpl.control_part := VStr part;
     ControlImpl.sort_key :=
       (("NIST-800-53", [PStr "AC-"; PInt 2; PStr ""]), [PStr part]);
     ControlImpl.narrative := narrative |}.

(** A manifest whose entry has two fragments without a key, and the
    record the aggregator yields for such a fragment. *)
Definition demo_keyless_manifest (first second : value) : value :=
  VDict [("schema_version", VStr "3.0.0");
         ("satisfies", VList [
            VDict [("standard_key", VStr "NIST-800-53");
                   ("control_key", VStr "AC-2");
                   ("name", VStr "Account Management");
                   ("narrative", VList [
                      VDict [("text", first)];
                      VDict [("text", second)]])]])].

Definition demo_fs_keyless : gmap string value :=
  {[ "my project/components/web app/component.yaml" :=
       demo_keyless_manifest (VStr "Accounts are reviewed.")
                             (VStr "Accounts expire.") ]}.

Definition keyless_controlimpl (narrative : value) : ControlImpl.t :=
  let r := demo_controlimpl "" narrative in
  {| ControlImpl.component := ControlImpl.component r;
     ControlImpl.standard := ControlImpl.standard r;
     ControlImpl.family := ControlImpl.family r;
     ControlImpl.control := ControlImpl.control r;
     ControlImpl.source_file := ControlImpl.source_file r;
     ControlImpl.control_part := VNone;
     ControlImpl.sort_key := ControlImpl.sort_key r;
     ControlImpl.narrative := narrative |}.

Definition is_dict (v : value) : bool :=
  match v with
  | VDict _ => true
  | _ => false
  end.

Definition has_key (key : string) (d : list (string * value)) : bool :=
  match assoc key d with
  | Some _ => true
  | None => false
  end.

(** A component manifest as the format describes it: [satisfies] is a list
    of mappings, each with a [standard_key] and a [control_key], whose
    [narrative], when present, is a list of mappings. *)
Definition well_formed_entry (e : value) : bool :=
  match e with
  | VDict fields =>
      has_key "standard_key" fields
      && has_key "control_key" fields
      && match assoc "narrative" fields with
         | None => true
         | Some (VList parts) => forallb is_dict parts
         | Some _ => false
         end
  | _ => false
  end.

Definition well_formed_component (d : value) : bool :=
  match d with
  | VDict fields =>
      match assoc "satisfies" fields with
      | Some (VList entries) => forallb well_formed_entry entries
      | _ => false
      end
  | _ => false
  end.

(** Some fragment of the document matches the record's standard, control
    and part. *)
Definition part_hit (controlimpl : ControlImpl.t) (p : value) : bool :=
  match p with
  | VDict fields => part_matches controlimpl fields
  | _ => false
  end.

Definition entry_hit (controlimpl : ControlImpl.t) (e : value) : bool :=
  match e with
  | VDict fields =>
      entry_matches controlimpl fields
      && match assoc "narrative" fields with
         | Some (VList parts) => existsb (part_hit controlimpl) parts
         | _ => false
         end
  | _ => false
  end.

Definition has_match (controlimpl : ControlImpl.t) (d : value) : bool :=
  match d with
  | VDict fields =>
      match assoc "satisfies" fields with
      | Some (VList entries) => existsb (entry_hit controlimpl) entries
      | _ => false
      end
  | _ => false
  end.

(** ** Text normalisation *)

(** No white space stands right before a line break. *)
Fixpoint tidy (l : list ascii) : bool :=
  match l with
  | [] => true
  | x :: rest =>
      negb (is_space x
            && match rest with y :: _ => is_newline y | [] => false end)
      && tidy rest
  end.

(** What [clean_text] promises about the value it returns: [None], or a
    non-empty string that [strip] leaves alone and in which no line break
    is preceded by white space. *)
Definition is_normalized (v : value) : bool :=
  match v with
  | VNone => true
  | VStr s => negb (String.eqb s "") && String.eqb (strip s) s && tidy (chars s)
  | _ => false
  end.

Definition head_fails (p : ascii -> bool) (l : list ascii) : Prop :=
  match l with
  | c :: _ => p c = false
  | [] => True
  end.

(** The white space at the head of [l] contains no line break. *)
Definition no_newline_run (l : list ascii) : Prop :=
  Forall (fun c => is_newline c = false) (fst (span is_space l)).

(** The characters [clean_text] is left with after [strip] and [re.sub]. *)
Definition cleaned (t : string) : list ascii :=
  let stripped := strip_chars is_space (chars t) in
  re_sub_from (S (length stripped)) match_space_newline [newline] stripped.

(** A component file in the older layout that [update_control] edits, and
    a submitted form. *)
Definition legacy_fs : gmap string value :=
  {[ "components/web/AC.yaml" :=
       VDict [("name", VStr "web");
              ("satisfies", VList [
                 VDict [("control_key", VStr "AC-1");
                        ("narrative", VStr "Policy is documented.")];
                 VDict [("control_key", VStr "AC-2");
                        ("narrative", VStr "Accounts are reviewed.");
                        ("implementation_status", VStr "Planned")]])] ]}.

Definition legacy_form : gmap string string :=
  {[ "control_key" := "AC-2";
     "narrative" := "  Reviewed weekly.  " +:+ String newline "" +:+ "By the owner. ";
     "status" := " " ]}.

(** ** The control resolver *)

(** A matcher splits what it is given and takes at least one character. *)
Definition sound (m : matcher) : Prop :=
  forall l sep rest, m l = Some (sep, rest) -> l = sep ++ rest /\ sep <> [].

Definition demo_catalog : list (string * value) :=
  [("AC-2", VDict [("name", VStr "Account Management");
                   ("description", VStr "Manage accounts.")])].

(** ** Numbers in sort keys *)

(** The number a run of decimal digits denotes. *)
Definition decimal (d : list ascii) : Z :=
  fold_left (fun acc c => (acc * 10 + digit_value c)%Z) d 0%Z.

(** ** Loading components *)

(** The sample system with a second component declared whose directory
    does not exist. *)
Definition demo_fs_dangling : gmap string value :=
  <["my project/opencontrol.yaml" :=
      VDict [("schema_version", VStr "1.0.0");
             ("components", VList [VStr "components/web app";
                                   VStr "components/gone"])]]> demo_fs.

(** A system whose manifest declares nothing but its schema version. *)
Definition bare_fs : gmap string value :=
  {[ "sys/opencontrol.yaml" := VDict [("schema_version", VStr "1.0.0")] ]}.

Definition bare_project : Project.t :=
  {| Project.id := "sys-22ec7f";
     Project.organization :=
       {| Organization.id := "No Organizat-7ac559";
          Organization.name := "No Organization";
          Organization.abbreviation := "No Organization" |};
     Project.title := "sys";
     Project.path := "sys";
     Project.description := VNone;
     Project.url := "/organizations/No+Organizat-7ac559/projects/sys-22ec7f" |}.

(** ** Loading standards *)

(** The sample system with a catalog: the system manifest names one
    directory of standards, whose manifest names one catalog file. *)
Definition demo_catalog_file : list (string * value) :=
  [("name", VStr "NIST SP 800-53");
   ("AC", VDict [("type", VStr "family"); ("name", VStr "Access Control")]);
   ("AC-2", VDict [("name", VStr "Account Management");
                   ("family", VStr "AC");
                   ("description", VStr "Manage accounts.")])].

Definition demo_system_manifest : list (string * value) :=
  [("schema_version", VStr "1.0.0");
   ("components", VList [VStr "components/web app"]);
   ("standards", VList [VStr "standards"])].

Definition demo_fs_catalog : gmap string value :=
  <["my project/opencontrol.yaml" := VDict demo_system_manifest]>
  (<["my project/standards/opencontrol.yaml" :=
       VDict [("schema_version", VStr "1.0.0");
              ("standards", VList [VStr "NIST-800-53.yaml"])]]>
   (<["my project/standards/NIST-800-53.yaml" := VDict demo_catalog_file]>
    demo_fs)).

(** The same catalog with a control that has no description. *)
Definition demo_fs_incomplete : gmap string value :=
  <["my project/standards/NIST-800-53.yaml" :=
      VDict (demo_catalog_file
             ++ [("AC-3", VDict [("name", VStr "Access Enforcement");
                                 ("family", VStr "AC")])])]>
  demo_fs_catalog.

(** ** Updating and reloading *)

(** The record [r] carrying another narrative. *)
Definition with_narrative (r : ControlImpl.t) (t : value) : ControlImpl.t :=
  {| ControlImpl.component := ControlImpl.component r;
     ControlImpl.standard := ControlImpl.standard r;
     ControlImpl.family := ControlImpl.family r;
     ControlImpl.control := ControlImpl.control r;
     ControlImpl.source_file := ControlImpl.source_file r;
     ControlImpl.control_part := ControlImpl.control_part r;
     ControlImpl.sort_key := ControlImpl.sort_key r;
     ControlImpl.narrative := t |}.

(** The fields by which [update_component_control] finds its fragment:
    the standard's id, the control's id and the part. *)
Definition same_target (a b : ControlImpl.t) : bool :=
  String.eqb (StandardInfo.id (ControlImpl.standard a))
             (StandardInfo.id (ControlImpl.standard b))
  && String.eqb (ControlInfo.id (ControlImpl.control a))
                (ControlInfo.id (ControlImpl.control b))
  && value_eqb (ControlImpl.control_part a) (ControlImpl.control_part b).

(** What a record looks like after the update [u] was written. *)
Definition retarget (u r : ControlImpl.t) : ControlImpl.t :=
  if same_target r u then with_narrative r (ControlImpl.narrative u) else r.

(** Every control of every standard is stored under its own id, as in the
    standards [load_project_standards] yields. *)
Definition catalog_ids_match (standards : gmap string Standard.t) : Prop :=
  forall sk s ck c,
    standards !! sk = Some s -> Standard.controls s !! ck = Some c ->
    CatalogControl.id c = ck.

(** The sample component with a second entry that has no [name]. *)
Definition demo_fs_nameless : gmap string value :=
  <["my project/components/web app/component.yaml" :=
      VDict [("schema_version", VStr "3.0.0");
             ("satisfies", VList [
                VDict [("standard_key", VStr "NIST-800-53");
                       ("control_key", VStr "AC-2");
                       ("name", VStr "Account Management");
                       ("narrative", VList [
                          VDict [("key", VStr "a");
                                 ("text", VStr "Accounts are reviewed.")]])];
                VDict [("standard_key", VStr "NIST-800-53");
                       ("control_key", VStr "AC-3");
                       ("narrative", VList [
                          VDict [("text", VStr "Access is enforced.")]])]])]]>
  demo_fs.

(** ** Catalogs for the control resolver *)

(** An entry of the catalog that [get_contol] can read: a mapping with a
    string under [name] and something under [description]. *)
Definition catalog_entry_ok (v : value) : bool :=
  match v with
  | VDict fields =>
      match assoc "name" fields with
      | Some (VStr _) => has_key "description" fields
      | _ => false
      end
  | _ => false
  end.

(** ** Fragment keys *)

Definition is_str (v : value) : bool :=
  match v with
  | VStr _ => true
  | _ => false
  end.

(** The sample component with numbered fragments, as YAML reads [key: 1]. *)
Definition demo_fs_numbered : gmap string value :=
  <["my project/components/web app/component.yaml" :=
      VDict [("schema_version", VStr "3.0.0");
             ("satisfies", VList [
                VDict [("standard_key", VStr "NIST-800-53");
                       ("control_key", VStr "AC-2");
                       ("name", VStr "Account Management");
                       ("narrative", VList [
                          VDict [("key", VInt 1);
                                 ("text", VStr "Accounts are reviewed.")]])]])]]>
  demo_fs.

(** ** Independent updates *)

(** The sample manifest after both of its fragments were rewritten. *)
Definition demo_manifest_both : value :=
  VDict [("schema_version", VStr "3.0.0");
         ("satisfies", VList [
            VDict [("standard_key", VStr "NIST-800-53");
                   ("control_key", VStr "AC-2");
                   ("name", VStr "Account Management");
                   ("narrative", VList [
                      VDict [("key", VStr "a");
                             ("text", VStr "Reviewed weekly.")];
                      VDict [("key", VStr "b");
                             ("text", VStr "Accounts expire after a year.")]])]])].

(** The document [update_component_control] writes back for the document
    [data] it read. *)
Definition updated_document (u : ControlImpl.t) (data : value) : res value :=
  let* satisfies := py_getitem data "satisfies" in
  let* controls := py_iter satisfies in
  let* controls' := map_res (OpenControl.update_satisfies_entry u) controls in
  Ok (with_items data "satisfies" controls').

(** ** The records of [load_component_controls] *)

(** A component directory in the older layout, with one file that holds
    an entry in each of the two formats, a zero-padded control key among
    them. *)
Definition legacy_files : list (string * string) :=
  [("web", "components/web/AC.yaml"); ("db", "components/db/AC.yaml")].

Definition legacy_fs_two : gmap string value :=
  <["components/db/AC.yaml" :=
      VDict [("name", VStr "db");
             ("satisfies", VList [
                VDict [("control_key", VStr "AC-02");
                       ("control_key_part", VStr "a");
                       ("narrative", VStr "Accounts are per person.")]]);
             ("controls", VList [
                VDict [("control", VStr "AC-3");
                       ("control-narrative", VStr "Roles are enforced.")]])]]>
  legacy_fs.

(** A file that [update_control] reads and passes over: its [satisfies]
    can be iterated and none of the entries matches the form. *)
Definition passed_over (form : gmap string string) (fs : gmap string value)
    (control_file : string) : Prop :=
  exists data entries,
    fs !! control_file = Some data
    /\ (let* satisfies := py_getitem data "satisfies" in py_iter satisfies)
       = Ok entries
    /\ Forall (fun x => Routes.form_matches form x = Ok false) entries.

(** The two legacy component files, the one with the entry the demo form
    names listed last. *)
Definition legacy_files_db_first : list string :=
  ["components/db/AC.yaml"; "components/web/AC.yaml"].

(** Whether the filter lets a record through: a record of a [satisfies]
    entry is compared by its control key with "-0" replaced by "-", a
    record of a [controls] entry (the ones without a part) by its control
    number as it stands. *)
Definition passes_filter (filter_control_number : value)
    (r : ControlRecord.t) : bool :=
  match ControlRecord.control_part r, ControlRecord.control_key r with
  | VNone, number => value_eqb number filter_control_number
  | _, VStr key => value_eqb (VStr (str_replace "-0" "-" key)) filter_control_number
  | _, _ => false
  end.

(** The record of an entry that [update_control] has changed. *)
Definition with_form (form : gmap string string) (r : ControlRecord.t)
    : ControlRecord.t :=
  {| ControlRecord.control_group := ControlRecord.control_group r;
     ControlRecord.control_key := ControlRecord.control_key r;
     ControlRecord.control_part := ControlRecord.control_part r;
     ControlRecord.name := ControlRecord.name r;
     ControlRecord.component_order := ControlRecord.component_order r;
     ControlRecord.component_name := ControlRecord.component_name r;
     ControlRecord.security_control_type := ControlRecord.security_control_type r;
     ControlRecord.implementation_status :=
       Routes.clean_text (Routes.form_get form "status");
     ControlRecord.summary := Routes.clean_text (Routes.form_get form "summary");
     ControlRecord.narrative :=
       Routes.clean_text (Routes.form_get form "narrative") |}.


(** The characters of a text that are not white space, in order. *)
Definition visible (l : list ascii) : list ascii :=
  List.filter (fun c => negb (is_space c)) l.

(** The text a cleaned field stands for: [None] stands for no text. *)
Definition text_of (v : value) : string :=
  match v with
  | VStr s => s
  | _ => ""
  end.

(** The family of a control as the manifest alone gives it: the control key
    up to its first hyphen. *)
Definition family_of_key (control_key : string) : FamilyInfo.t :=
  let abbrev := hd "" (str_split "-"%char control_key) in
  {| FamilyInfo.abbrev := abbrev;
     FamilyInfo.name := VStr abbrev;
     FamilyInfo.sort_key := abbrev;
     FamilyInfo.id := None;
     FamilyInfo.number := None |}.
(** * Properties *)

(** ** The digest *)

Example sha256_abc :
  Sha256.hexdigest (encode_utf8 "abc")
  = "ba7816bf8f01cfea414140de5dae2223b00361a396177a9cb410ff61f20015ad".
Proof. vm_compute. reflexivity. Qed.

Example sha256_empty :
  Sha256.hexdigest (encode_utf8 "")
  = "e3b0c44298fc1c149afbf4c8996fb92427ae41e4649b934ca495991b7852b855".
Proof. vm_compute. reflexivity. Qed.

Example sha256_two_blocks :
  Sha256.hexdigest
    (encode_utf8 "abcdbcdecdefdefgefghfghighijhijkijkljklmklmnlmnomnopnopq")
  = "248d6a61d20638b8e5c026930c3e6039a33ce45964ff2167f6ecedd419db06c1".
Proof. vm_compute. reflexivity. Qed.

(** ** The library functions on sample inputs *)

Example normpath_samples :
  map normpath [""; "/"; "//"; "///"; "a/b/"; "a//b/./c/.."; "../a"; "/../a";
                "a/../.."; "//a/.."; "./"; "proj.d/"]
  = ["."; "/"; "//"; "/"; "a/b"; "a/b"; "../a"; "/a"; ".."; "//"; "."; "proj.d"].
Proof. reflexivity. Qed.

Example fallback_name_samples :
  map (fun p => splitext_root (basename (normpath p)))
      ["a/b.yaml"; "a/.hidden"; "a/..x"; "a/b.c.d/"; "a/..."; "x/.a.b"]
  = ["b"; ".hidden"; "..x"; "b.c"; "..."; ".a"].
Proof. reflexivity. Qed.

Example path_join_samples :
  map (fun p => path_join (fst p) (snd p))
      [("a", ["b"]); ("a/", ["b"; "c"]); ("", ["b"]); ("a", ["/b"; "c"]); ("a", [""])]
  = ["a/b"; "a/b/c"; "b"; "/b/c"; "a/"].
Proof. reflexivity. Qed.

Example quote_plus_sample :
  quote_plus ("a b/~_.-" +:+ String (ascii_of_N 233) "") = "a+b%2F~_.-%C3%A9".
Proof. reflexivity. Qed.

Example split_separator_samples :
  map (re_split match_separator) ["AC-2 (H)"; "AC-2(H)"; " AC"; ""]
  = [["AC"; "-"; "2"; " "; ""; "("; "H"; ")"; ""];
     ["AC"; "-"; "2"; "("; "H"; ")"; ""]; [""; " "; "AC"]; [""]].
Proof. reflexivity. Qed.

Example split_digits_samples :
  map (re_split match_digits) ["AC-2"; ""; "12ab"; "a1"]
  = [["AC-"; "2"; ""]; [""]; [""; "12"; "ab"]; ["a"; "1"; ""]].
Proof. reflexivity. Qed.

Example parse_int_samples :
  map parse_int [""; " 12 "; "+12"; "1_000"; "_1"; "1__0"; "1_"; "+ 1"; "-0";
                 "007"; "--1"; "+"; "0x10"; "1 2"]
  = [None; Some 12%Z; Some 12%Z; Some 1000%Z; None; None; None; None; Some 0%Z;
     Some 7%Z; None; None; None; None].
Proof. reflexivity. Qed.

Example clean_text_samples :
  Routes.clean_text ("  a " +:+ String newline "" +:+ String newline "" +:+ " b  ")
  = VStr ("a" +:+ String newline "" +:+ " b")
  /\ Routes.clean_text ("   " +:+ String newline "") = VNone.
Proof. split; reflexivity. Qed.

(** ** Equality of values *)

(** [==] on the values of the model is equality. *)
Lemma value_eqb_eq : forall a b : value, value_eqb a b = true <-> a = b.
Proof.
  fix IH 1. intros a b.
  destruct a as [|n|s|l|m], b as [|n'|s'|l'|m']; simpl;
    try (split; [discriminate|done || discriminate]).
  - done.
  - rewrite Z.eqb_eq. split; congruence.
  - rewrite String.eqb_eq. split; congruence.
  - revert l'. induction l as [|x l IHl]; intros [|y l'];
      try (split; [discriminate|done || discriminate]).
    + done.
    + rewrite andb_true_iff, IH. specialize (IHl l'). rewrite IHl.
      split; [intros [-> [= ->]]; done|intros [= -> ->]; done].
  - revert m'. induction m as [|[k x] m IHm]; intros [|[k' y] m'];
      try (split; [discriminate|done || discriminate]).
    + done.
    + rewrite !andb_true_iff, IH, String.eqb_eq. specialize (IHm m'). rewrite IHm.
      split; [intros [[-> ->] [= ->]]; done|intros [= -> -> ->]; done].
Qed.


Lemma value_eqb_neq (a b : value) : value_eqb a b = false <-> a <> b.
Proof.
  rewrite <- value_eqb_eq. destruct (value_eqb a b); split; congruence.
Qed.

(** ** The schema version check *)

(** C6: a system manifest whose [schema_version] is anything but "1.0.0"
    (or is missing) makes [load_project_from_path] raise the ValueError
    that names the file and the version found; no project record is
    returned. *)
Theorem load_project_rejects_other_schema (fs : gmap string value)
    (project_dir : string) (manifest : list (string * value)) :
  fs !! path_join project_dir ["opencontrol.yaml"] = Some (VDict manifest) ->
  assoc "schema_version" manifest <> Some (VStr "1.0.0") ->
  OpenControl.load_project_from_path fs project_dir
  = Raise (ValueError
      "Don't know how to read OpenControl system file {} which has schema_version {}."
      [VStr (path_join project_dir ["opencontrol.yaml"]);
       default VNone (assoc "schema_version" manifest)]).
Proof.
  intros Hfile Hversion.
  unfold OpenControl.load_project_from_path, read_yaml.
  rewrite Hfile. simpl.
  destruct (assoc "schema_version" manifest) as [v|] eqn:Hv; simpl.
  - assert (value_eqb v (VStr "1.0.0") = false) as ->; [|done].
    apply value_eqb_neq. congruence.
  - done.
Qed.

Lemma load_project_rejects_other_schema_witness :
  OpenControl.load_project_from_path
    {[ "sys/opencontrol.yaml" :=
         VDict [("schema_version", VStr "0.9.0"); ("name", VStr "System")] ]}
    "sys"
  = Raise (ValueError
      "Don't know how to read OpenControl system file {} which has schema_version {}."
      [VStr "sys/opencontrol.yaml"; VStr "0.9.0"]).
Proof.
  apply (load_project_rejects_other_schema _ "sys"
           [("schema_version", VStr "0.9.0"); ("name", VStr "System")]).
  - reflexivity.
  - simpl. discriminate.
Defined.

(** ** Strings as lists of characters *)

Lemma chars_text (l : list ascii) : chars (text l) = l.
Proof. apply list_ascii_of_string_of_list_ascii. Qed.

Lemma text_chars (s : string) : text (chars s) = s.
Proof. apply string_of_list_ascii_of_string. Qed.

Lemma span_app (p : ascii -> bool) (l : list ascii) :
  fst (span p l) ++ snd (span p l) = l.
Proof.
  induction l as [|c l IH]; simpl; [done|].
  destruct (p c); [|done].
  destruct (span p l) as [run rest]. simpl in *. by rewrite IH.
Qed.

Lemma span_run (p : ascii -> bool) (l : list ascii) :
  Forall (fun c => p c = true) (fst (span p l)).
Proof.
  induction l as [|c l IH]; simpl; [constructor|].
  destruct (p c) eqn:Hc; [|constructor].
  destruct (span p l) as [run rest]. simpl in *. by constructor.
Qed.

Lemma span_rest_length (p : ascii -> bool) (l : list ascii) :
  length (snd (span p l)) <= length l.
Proof.
  induction l as [|c l IH]; simpl; [lia|].
  destruct (p c); [|simpl; lia].
  destruct (span p l) as [run rest]. simpl in *. lia.
Qed.

Lemma drop_while_Forall (P : ascii -> Prop) (p : ascii -> bool) (l : list ascii) :
  Forall P l -> Forall P (drop_while p l).
Proof.
  induction 1 as [|c l Hc Hl IH]; simpl; [constructor|].
  destruct (p c); [done|by constructor].
Qed.

Lemma strip_chars_Forall (P : ascii -> Prop) (p : ascii -> bool) (l : list ascii) :
  Forall P l -> Forall P (strip_chars p l).
Proof.
  intros H. unfold strip_chars.
  apply Forall_rev, drop_while_Forall, Forall_rev, drop_while_Forall, H.
Qed.

Lemma drop_while_head (p : ascii -> bool) (l : list ascii) :
  match l with [] => True | c :: _ => p c = false end -> drop_while p l = l.
Proof. destruct l as [|c l]; simpl; [done|]. by intros ->. Qed.

(** ** Natural sort keys *)

Lemma split_digits_shape (fuel : nat) :
  forall pending l, length l < fuel -> digit_free pending ->
    key_shape (re_split_from fuel match_digits pending l).
Proof.
  induction fuel as [|fuel IH]; intros pending l Hfuel Hpending; [lia|].
  destruct l as [|c l]; simpl.
  - by apply Forall_rev.
  - unfold match_digits, match_run. simpl.
    destruct (is_digit c) eqn:Hc.
    + pose proof (span_run is_digit l) as Hrun.
      pose proof (span_rest_length is_digit l) as Hlen.
      destruct (span is_digit l) as [run rest]. simpl in *.
      repeat split.
      * by apply Forall_rev.
      * discriminate.
      * by constructor.
      * apply IH; [lia|constructor].
    + apply IH; [simpl in Hfuel; lia|]. by constructor.
Qed.

Lemma digit_not_int_space (c : ascii) : is_digit c = true -> is_int_space c = false.
Proof.
  destruct c as [[] [] [] [] [] [] [] []]; vm_compute; congruence.
Qed.

Lemma digit_not_sign (c : ascii) :
  is_digit c = true -> Ascii.eqb c "-"%char = false /\ Ascii.eqb c "+"%char = false.
Proof.
  destruct c as [[] [] [] [] [] [] [] []]; vm_compute; split; congruence.
Qed.

Lemma digits_value_all_digits (l : list ascii) :
  all_digits l -> forall acc after_digit, l <> [] \/ after_digit = true ->
    exists n, digits_value acc after_digit l = Some n.
Proof.
  induction 1 as [|c l Hc Hl IH]; intros acc after_digit Hne; simpl.
  - destruct Hne as [?| ->]; [done|eauto].
  - rewrite Hc. apply IH. by right.
Qed.

Lemma digits_value_digit_free (l : list ascii) (acc : Z) :
  digit_free l -> digits_value acc false l = None.
Proof.
  destruct 1 as [|c l Hc Hl]; simpl; [done|].
  rewrite Hc. by rewrite andb_false_r.
Qed.

Lemma strip_int_space_digits (d : list ascii) :
  all_digits d -> strip_chars is_int_space d = d.
Proof.
  intros Hd. unfold strip_chars.
  rewrite (drop_while_head _ d).
  - rewrite drop_while_head; [apply rev_involutive|].
    apply Forall_rev in Hd. destruct (rev d) as [|c r]; [done|].
    inversion Hd; subst. by apply digit_not_int_space.
  - destruct Hd as [|c d Hc Hd]; [done|]. by apply digit_not_int_space.
Qed.

Lemma within_int_limit_ltb (l : list ascii) :
  within_int_limit l = true -> (int_max_str_digits <? count_digits l)%N = false.
Proof. unfold within_int_limit. intros H%N.leb_le. by apply N.ltb_ge. Qed.

Lemma parse_int_digits (d : list ascii) :
  d <> [] -> all_digits d -> within_int_limit d = true ->
  exists n, parse_int (text d) = Some n.
Proof.
  intros Hne Hd Hlimit. unfold parse_int.
  rewrite chars_text, strip_int_space_digits by done. cbv zeta.
  rewrite within_int_limit_ltb by done.
  destruct Hd as [|c d Hc Hd]; [done|].
  destruct (digit_not_sign c Hc) as [-> ->].
  apply digits_value_all_digits; [by constructor|by left].
Qed.

Lemma parse_int_digit_free (t : list ascii) :
  digit_free t -> parse_int (text t) = None.
Proof.
  intros Ht. unfold parse_int. rewrite chars_text. cbv zeta.
  destruct (_ <? _)%N; [done|].
  pose proof (strip_chars_Forall _ is_int_space t Ht) as Hs.
  destruct (strip_chars is_int_space t) as [|c l]; [done|].
  inversion Hs as [|? ? Hc Hl]; subst.
  destruct (Ascii.eqb c "-"); [by rewrite digits_value_digit_free|].
  destruct (Ascii.eqb c "+"); [by rewrite digits_value_digit_free|].
  by apply digits_value_digit_free.
Qed.

Lemma key_shape_kinded (parts : list (list ascii)) :
  key_shape parts -> forallb within_int_limit parts = true ->
  kinded false (map OpenControl.intify (map text parts)).
Proof.
  revert parts.
  fix IH 1. intros [|t [|d rest]]; simpl.
  - done.
  - intros Ht _. unfold OpenControl.intify.
    by rewrite parse_int_digit_free.
  - intros (Ht & Hne & Hd & Hrest) Hlimit. unfold OpenControl.intify.
    rewrite parse_int_digit_free by done.
    apply andb_prop in Hlimit as [_ Hlimit].
    apply andb_prop in Hlimit as [Hlimit_d Hlimit_rest].
    destruct (parse_int_digits d Hne Hd Hlimit_d) as [n ->].
    repeat split. by apply IH.
Qed.

Lemma make_key_str (s : string) :
  OpenControl.make_control_number_sort_key (VStr s)
  = Ok (map OpenControl.intify (re_split match_digits s)).
Proof.
  unfold OpenControl.make_control_number_sort_key, py_or. simpl.
  destruct (String.eqb s "") eqn:Hs; simpl; [|done].
  apply String.eqb_eq in Hs. by subst.
Qed.

Lemma make_key_kinded (s : string) :
  numerals_within_limit (Some s) = true ->
  kinded false (map OpenControl.intify (re_split match_digits s)).
Proof.
  unfold numerals_within_limit, re_split. intros Hlimit.
  apply key_shape_kinded; [apply split_digits_shape; [lia|constructor]|].
  rewrite <- Hlimit. clear Hlimit.
  induction (re_split_from _ _ _ _) as [|p parts IH]; simpl; [done|].
  by rewrite chars_text, IH.
Qed.

Lemma key_argument_kinded (s : option string) :
  numerals_within_limit s = true ->
  exists k, OpenControl.make_control_number_sort_key (key_argument s) = Ok k
            /\ kinded false k.
Proof.
  destruct s as [s|]; simpl; intros Hlimit.
  - eexists. split; [apply make_key_str|by apply make_key_kinded].
  - exists [PStr ""]. by repeat split.
Qed.

Lemma kinded_lookup (k : list part) :
  forall odd i x, kinded odd k -> k !! i = Some x ->
    is_int x = xorb odd (Nat.odd i).
Proof.
  induction k as [|y k IH]; intros odd i x Hk Hi; [done|].
  destruct Hk as [Hy Hk]. destruct i as [|i]; simpl in *.
  - inversion Hi; subst. by destruct (is_int x).
  - rewrite (IH _ _ _ Hk Hi). rewrite Nat.odd_succ, <- Nat.negb_odd.
    by destruct odd, (Nat.odd i).
Qed.

Lemma tuple_lt_kinded (a : list part) :
  forall odd b, kinded odd a -> kinded odd b -> exists r, tuple_lt a b = Ok r.
Proof.
  induction a as [|x a IH]; intros odd [|y b] Ha Hb; simpl; eauto.
  destruct Ha as [Hx Ha], Hb as [Hy Hb].
  destruct (part_eqb x y); [by eapply IH|].
  destruct x, y; simpl in *; eauto; congruence.
Qed.

Lemma part_eqb_refl (x : part) : part_eqb x x = true.
Proof. destruct x; simpl; [apply Z.eqb_refl|apply String.eqb_refl]. Qed.

Lemma tuple_lt_extension (k extra : list part) :
  extra <> [] -> tuple_lt k (k ++ extra) = Ok true.
Proof.
  intros Hne. induction k as [|x k IH]; simpl.
  - by destruct extra.
  - by rewrite part_eqb_refl.
Qed.

(** C4: the key of "AC-2" compares below the key of "AC-10"; the key of any
    string compares below that key extended by a non-empty sequence of
    further items; and [None] has the key of the empty string. *)
Theorem sort_key_natural_order :
  (exists k2 k10,
      OpenControl.make_control_number_sort_key (VStr "AC-2") = Ok k2
      /\ OpenControl.make_control_number_sort_key (VStr "AC-10") = Ok k10
      /\ tuple_lt k2 k10 = Ok true)
  /\ (forall (s : string) (extra : list part), extra <> [] ->
        exists k, OpenControl.make_control_number_sort_key (VStr s) = Ok k
                  /\ tuple_lt k (k ++ extra) = Ok true)
  /\ OpenControl.make_control_number_sort_key VNone
     = OpenControl.make_control_number_sort_key (VStr "").
Proof.
  split; [|split].
  - exists [PStr "AC-"; PInt 2; PStr ""], [PStr "AC-"; PInt 10; PStr ""].
    repeat split; reflexivity.
  - intros s extra Hne. eexists. split; [apply make_key_str|].
    by apply tuple_lt_extension.
  - reflexivity.
Qed.

Lemma sort_key_natural_order_witness :
  exists k, OpenControl.make_control_number_sort_key (VStr "AC-2") = Ok k
            /\ tuple_lt k (k ++ [PStr "a"]) = Ok true.
Proof.
  apply (proj1 (proj2 sort_key_natural_order) "AC-2" [PStr "a"]).
  discriminate.
Defined.

(** A run of more digits than [int] reads stays the string it was. *)
Lemma intify_long_numeral (d : list ascii) :
  all_digits d -> within_int_limit d = false ->
  OpenControl.intify (text d) = PStr (text d).
Proof.
  intros Hd Hlimit. unfold OpenControl.intify, parse_int.
  rewrite chars_text, strip_int_space_digits by done. cbv zeta.
  unfold within_int_limit in Hlimit. apply N.leb_gt, N.ltb_lt in Hlimit.
  by rewrite Hlimit.
Qed.

Lemma long_numeral_stays_string_counterexample :
  String.length long_numeral = 4301
  /\ Forall (fun c => c = "9"%char) (chars long_numeral)
  /\ OpenControl.make_control_number_sort_key (VStr "1")
     = Ok [PStr ""; PInt 1; PStr ""]
  /\ OpenControl.make_control_number_sort_key (VStr long_numeral)
     = Ok [PStr ""; PStr long_numeral; PStr ""]
  /\ ~ alternates [PStr ""; PStr long_numeral; PStr ""]
  /\ tuple_lt [PStr ""; PInt 1; PStr ""] [PStr ""; PStr long_numeral; PStr ""]
     = Raise TypeError.
Proof.
  split; [vm_compute; reflexivity|].
  split; [unfold long_numeral; rewrite chars_text; apply List.Forall_forall;
          intros c Hc; by apply repeat_spec in Hc|].
  split; [reflexivity|].
  split; [vm_compute; reflexivity|].
  split; [|reflexivity].
  intros H. discriminate (H 1 (PStr long_numeral) eq_refl).
Qed.

(** C10, as the code has it: whatever two strings (or [None]) the keys are
    built from, provided [int] reads each of their runs of digits (a run has
    no more digits than the interpreter's limit), each key holds its
    integers exactly at the odd positions and its strings at the even ones,
    and comparing the two keys never raises: no integer is compared with a
    string. *)
Theorem sort_keys_compare_like_with_like (a b : option string) :
  numerals_within_limit a = true ->
  numerals_within_limit b = true ->
  exists ka kb,
    OpenControl.make_control_number_sort_key (key_argument a) = Ok ka
    /\ OpenControl.make_control_number_sort_key (key_argument b) = Ok kb
    /\ alternates ka /\ alternates kb
    /\ exists r, tuple_lt ka kb = Ok r.
Proof.
  intros Hlimit_a Hlimit_b.
  pose proof key_argument_kinded as Hkey.
  destruct (Hkey a Hlimit_a) as (ka & Ha & Hka),
    (Hkey b Hlimit_b) as (kb & Hb & Hkb).
  exists ka, kb. repeat split; try done.
  - intros i x Hi. by rewrite (kinded_lookup _ _ _ _ Hka Hi).
  - intros i x Hi. by rewrite (kinded_lookup _ _ _ _ Hkb Hi).
  - by eapply tuple_lt_kinded.
Qed.

Lemma sort_keys_compare_like_with_like_witness :
  exists ka kb,
    OpenControl.make_control_number_sort_key (VStr "AC-2 (10)") = Ok ka
    /\ OpenControl.make_control_number_sort_key VNone = Ok kb
    /\ alternates ka /\ alternates kb
    /\ exists r, tuple_lt ka kb = Ok r.
Proof.
  apply (sort_keys_compare_like_with_like (Some "AC-2 (10)") None);
    vm_compute; reflexivity.
Defined.

(** ** Identifiers *)

Lemma bind_Ok {A B} (r : res A) (k : A -> res B) (b : B) :
  bind r k = Ok b -> exists a, r = Ok a /\ k a = Ok b.
Proof. destruct r as [a|e]; simpl; [eauto|discriminate]. Qed.

(** Splits every successful [let*] of a hypothesis into its two steps. *)
Ltac unbind H :=
  repeat (let a := fresh "v" in
          let Ha := fresh "Hv" in
          apply bind_Ok in H as (a & Ha & H)).

Lemma as_str_Ok (v : value) (e : exn) (s : string) :
  as_str v e = Ok s -> v = VStr s.
Proof. destruct v; simpl; congruence. Qed.

Lemma chars_substring (n : nat) (s : string) :
  chars (substring 0 n s) = firstn n (chars s).
Proof.
  revert s. induction n as [|n IH]; intros [|c s]; simpl; try done.
  f_equal. apply IH.
Qed.

Lemma length_chars (s : string) : length (chars s) = String.length s.
Proof. induction s as [|c s IH]; simpl; [done|by rewrite IH]. Qed.

Lemma hex_digit_lower_hex (d : N) : (d < 16)%N -> is_lower_hex (Sha256.hex_digit d) = true.
Proof.
  intros Hd. destruct d as [|p]; [reflexivity|].
  do 4 (destruct p as [p|p|]; try reflexivity); lia.
Qed.

Lemma hex_spec (width : nat) (x : N) :
  length (Sha256.hex width x) = width
  /\ Forall (fun c => is_lower_hex c = true) (Sha256.hex width x).
Proof.
  induction width as [|width [IHlen IHall]]; simpl; [by split|].
  split; [by rewrite IHlen|]. constructor; [|done].
  apply hex_digit_lower_hex, N.mod_lt. discriminate.
Qed.

Lemma hex_words_spec (width : nat) (ws : list N) :
  length (concat (map (Sha256.hex width) ws)) = length ws * width
  /\ Forall (fun c => is_lower_hex c = true) (concat (map (Sha256.hex width) ws)).
Proof.
  induction ws as [|x ws [IHlen IHall]]; simpl; [by split|].
  destruct (hex_spec width x) as [Hlen Hall].
  rewrite length_app, Hlen, IHlen. split; [done|].
  by apply Forall_app.
Qed.

Lemma hexdigest_spec (msg : list N) :
  String.length (Sha256.hexdigest msg) = 64
  /\ Forall (fun c => is_lower_hex c = true) (chars (Sha256.hexdigest msg)).
Proof.
  unfold Sha256.hexdigest. rewrite <- length_chars, chars_text.
  cbv zeta. apply (hex_words_spec 8).
Qed.

Lemma short_hash_spec (s : string) :
  String.length (OpenControl.short_hash s 6) = 6
  /\ Forall (fun c => is_lower_hex c = true) (chars (OpenControl.short_hash s 6)).
Proof.
  unfold OpenControl.short_hash.
  destruct (hexdigest_spec (encode_utf8 s)) as [Hlen Hall].
  rewrite <- length_chars, chars_substring. split.
  - rewrite length_firstn, length_chars, Hlen. done.
  - by apply Forall_take.
Qed.

(** What a successful [load_project_from_path] puts into the record. *)
Lemma load_project_fields (fs : gmap string value) (project_dir : string)
    (p : Project.t) :
  OpenControl.load_project_from_path fs project_dir = Ok p ->
  let fn := path_join project_dir ["opencontrol.yaml"] in
  let org := Project.organization p in
  Project.id p
    = substring 0 12 (Project.title p) +:+ "-" +:+ OpenControl.short_hash fn 6
  /\ Organization.id org
    = substring 0 12 (Organization.abbreviation org) +:+ "-"
      +:+ OpenControl.short_hash (Organization.name org) 6
  /\ Project.url p
    = "/organizations/" +:+ quote_plus (Organization.id org)
      +:+ "/projects/" +:+ quote_plus (Project.id p).
Proof.
  unfold OpenControl.load_project_from_path. intros H.
  unbind H.
  destruct (negb (value_eqb v0 (VStr "1.0.0"))); [discriminate|].
  unbind H. inversion H; subst; clear H. simpl. done.
Qed.

(** What a successful pass through the loop of [load_project_components]
    puts into the record. *)
Lemma load_component_fields (fs : gmap string value) (project : Project.t)
    (component_path : value) (c : Component.t) :
  OpenControl.load_component fs project component_path = Ok c ->
  exists path : string,
    component_path = VStr path
    /\ Component.id c
       = substring 0 12 (Component.name c) +:+ "-" +:+ OpenControl.short_hash path 6
    /\ Component.path c = path_join (Project.path project) [path]
    /\ Component.url c
       = Project.url project +:+ "/components/" +:+ quote_plus (Component.id c).
Proof.
  unfold OpenControl.load_component. intros H.
  unbind H. apply as_str_Ok in Hv. subst.
  destruct (negb (value_eqb v1 (VStr "3.0.0"))); [discriminate|].
  unbind H. inversion H; subst; clear H. simpl. eauto.
Qed.

Lemma gen_for_elem {A B} (body : A -> gen B) (items : list A) (y : B) :
  y ∈ fst (gen_for body items) -> exists x, x ∈ items /\ y ∈ fst (body x).
Proof.
  induction items as [|x items IH]; simpl; [by intros ?%elem_of_nil|].
  destruct (body x) as [ys [e|]] eqn:Hx; simpl.
  - intros Hy. exists x. rewrite Hx. split; [left|done].
  - destruct (gen_for body items) as [zs e]. simpl in *.
    intros [Hy|Hy]%elem_of_app.
    + exists x. rewrite Hx. split; [left|done].
    + destruct (IH Hy) as (x' & Hx' & Hy'). exists x'. split; [by right|done].
Qed.

Lemma load_project_components_elem (fs : gmap string value)
    (project : Project.t) (c : Component.t) :
  c ∈ fst (OpenControl.load_project_components fs project) ->
  exists component_path,
    OpenControl.load_component fs project component_path = Ok c.
Proof.
  unfold OpenControl.load_project_components, gen_bind.
  match goal with |- context [match ?r with _ => _ end] => destruct r as [paths|e] end;
    [|by intros ?%elem_of_nil].
  intros (x & _ & Hc)%gen_for_elem. exists x.
  destruct (OpenControl.load_component fs project x) as [c'|e]; simpl in Hc.
  - apply list_elem_of_singleton in Hc. by subst.
  - by apply elem_of_nil in Hc.
Qed.

Example demo_project_loads :
  OpenControl.load_project_from_path demo_fs "my project" = Ok demo_project.
Proof. vm_compute. reflexivity. Qed.

Example demo_components_load :
  OpenControl.load_project_components demo_fs demo_project
  = ([demo_component], None).
Proof. vm_compute. reflexivity. Qed.

(** C9: every identifier the loaders build is [makeId] of a name and a
    stable source: the project's of its title and manifest path, the
    organization's of its abbreviation and name, a component's of its name
    and declared path, wherever the component stands in the list; the hash
    part is six lower-case hexadecimal digits.  Being a function of these
    two strings alone, the identifier is the same on every call. *)
Theorem identifiers_follow_make_id :
  (forall input : string,
      String.length (shortHash input) = 6
      /\ Forall (fun c => is_lower_hex c = true) (chars (shortHash input)))
  /\ (forall fs project_dir p,
        OpenControl.load_project_from_path fs project_dir = Ok p ->
        Project.id p
          = makeId (Project.title p) (path_join project_dir ["opencontrol.yaml"])
        /\ Organization.id (Project.organization p)
          = makeId (Organization.abbreviation (Project.organization p))
                   (Organization.name (Project.organization p)))
  /\ (forall fs project c,
        c ∈ fst (OpenControl.load_project_components fs project) ->
        exists component_path : string,
          Component.path c = path_join (Project.path project) [component_path]
          /\ Component.id c = makeId (Component.name c) component_path).
Proof.
  split; [|split].
  - intros input. apply (short_hash_spec input).
  - intros fs project_dir p H.
    destruct (load_project_fields _ _ _ H) as (Hid & Horg & _). by split.
  - intros fs project c (cp & H)%load_project_components_elem.
    destruct (load_component_fields _ _ _ _ H) as (path & _ & Hid & Hpath & _).
    by exists path.
Qed.

Lemma identifiers_follow_make_id_witness :
  Project.id demo_project = makeId "my project" "my project/opencontrol.yaml"
  /\ Organization.id (Project.organization demo_project)
     = makeId "No Organization" "No Organization".
Proof.
  apply (proj1 (proj2 identifiers_follow_make_id) demo_fs "my project" demo_project).
  vm_compute. reflexivity.
Defined.

Lemma quote_char_safe (c : ascii) :
  forallb is_url_safe (concat (map quote_byte (utf8_char c))) = true.
Proof. destruct c as [[] [] [] [] [] [] [] []]; vm_compute; reflexivity. Qed.

Lemma quote_plus_safe (s : string) :
  forallb is_url_safe (chars (quote_plus s)) = true.
Proof.
  unfold quote_plus, encode_utf8. rewrite chars_text.
  induction (chars s) as [|c l IH]; simpl; [done|].
  rewrite map_app, concat_app, forallb_app, IH, quote_char_safe. done.
Qed.

(** C3: the identifiers of the demo system are not safe in a URL as they
    are generated.  The component "components/web app", whose manifest has
    no name, gets the id "web app-801886", the project the id
    "my project-c16e81" and the default organization the id
    "No Organizat-7ac559": each keeps a space of the name it was cut from,
    although the loader announces a URL-safe component identifier. *)
Lemma identifiers_keep_name_characters :
  OpenControl.load_project_from_path demo_fs "my project" = Ok demo_project
  /\ Project.id demo_project = "my project-c16e81"
  /\ forallb is_unreserved (chars (Project.id demo_project)) = false
  /\ Organization.id (Project.organization demo_project) = "No Organizat-7ac559"
  /\ forallb is_unreserved
       (chars (Organization.id (Project.organization demo_project))) = false
  /\ OpenControl.load_project_components demo_fs demo_project
     = ([demo_component], None)
  /\ Component.id demo_component = "web app-801886"
  /\ forallb is_unreserved (chars (Component.id demo_component)) = false.
Proof. repeat split; vm_compute; reflexivity. Qed.

(** X28: an identifier is the first twelve characters of the name (or
    abbreviation), whatever they are, then a hyphen and six lower-case
    hexadecimal digits; the URLs the loaders build embed every identifier
    through [quote_plus], whose result consists only of letters, digits and
    the characters [_ . - ~ % +]. *)
Theorem identifiers_are_quoted_in_urls :
  (forall s : string, forallb is_url_safe (chars (quote_plus s)) = true)
  /\ (forall fs project_dir p,
        OpenControl.load_project_from_path fs project_dir = Ok p ->
        let org := Project.organization p in
        Project.url p
          = "/organizations/" +:+ quote_plus (Organization.id org)
            +:+ "/projects/" +:+ quote_plus (Project.id p)
        /\ (exists h, Project.id p = substring 0 12 (Project.title p) +:+ "-" +:+ h
              /\ String.length h = 6
              /\ Forall (fun c => is_lower_hex c = true) (chars h))
        /\ (exists h, Organization.id org
                      = substring 0 12 (Organization.abbreviation org) +:+ "-" +:+ h
              /\ String.length h = 6
              /\ Forall (fun c => is_lower_hex c = true) (chars h)))
  /\ (forall fs project c,
        c ∈ fst (OpenControl.load_project_components fs project) ->
        Component.url c
          = Project.url project +:+ "/components/" +:+ quote_plus (Component.id c)
        /\ (exists h, Component.id c = substring 0 12 (Component.name c) +:+ "-" +:+ h
              /\ String.length h = 6
              /\ Forall (fun c => is_lower_hex c = true) (chars h))).
Proof.
  split; [exact quote_plus_safe|split].
  - intros fs project_dir p H.
    destruct (load_project_fields _ _ _ H) as (Hid & Horg & Hurl).
    repeat split; [done| |]; eexists; (split; [eassumption|apply short_hash_spec]).
  - intros fs project c (cp & H)%load_project_components_elem.
    destruct (load_component_fields _ _ _ _ H) as (path & _ & Hid & _ & Hurl).
    split; [done|]. eexists. split; [eassumption|apply short_hash_spec].
Qed.

Lemma identifiers_are_quoted_in_urls_witness :
  Component.url demo_component
  = Project.url demo_project +:+ "/components/"
    +:+ quote_plus (Component.id demo_component).
Proof.
  apply (proj2 (proj2 identifiers_are_quoted_in_urls) demo_fs demo_project).
  vm_compute. left.
Defined.

(** ** The narrative aggregator *)

Lemma gen_for_nothing {A B} (body : A -> gen B) (items : list A) :
  Forall (fun x => fst (body x) = []) items -> fst (gen_for body items) = [].
Proof.
  induction 1 as [|x items Hx Hitems IH]; simpl; [done|].
  destruct (body x) as [ys [e|]]; simpl in *; [done|].
  destruct (gen_for body items) as [zs e]. simpl in *. by subst.
Qed.

Lemma controls_of_entry_no_fragments (component : Component.t)
    (standards : gmap string Standard.t) (fn : string) (control : value) :
  no_fragments control ->
  fst (OpenControl.controls_of_entry component standards fn control) = [].
Proof.
  intros (fields & -> & Hnarrative). unfold OpenControl.controls_of_entry.
  destruct (OpenControl.control_metadata _ _ _) as [metadata|e]; simpl; [|done].
  by destruct Hnarrative as [-> | ->].
Qed.

Lemma control_metadata_succeeds (component : Component.t)
    (standards : gmap string Standard.t) (entry : list (string * value))
    (sk ck : string) (name : value) :
  assoc "standard_key" entry = Some (VStr sk) ->
  assoc "control_key" entry = Some (VStr ck) ->
  assoc "name" entry = Some name ->
  family_is_hashable standards sk ck = true ->
  exists standard family control,
    OpenControl.control_metadata component standards (VDict entry)
      = Ok (standard, family, control)
    /\ StandardInfo.id standard = sk
    /\ StandardInfo.name standard
       = match standards !! sk with
         | Some std => Standard.name std
         | None => VStr sk
         end
    /\ FamilyInfo.abbrev family = hd "" (str_split "-"%char ck)
    /\ ControlInfo.url control
       = Project.url (Component.project component) +:+ "/controls/"
         +:+ quote_plus sk +:+ "/" +:+ quote_plus ck.
Proof.
  intros Hsk Hck Hname Hfamily.
  unfold OpenControl.control_metadata. simpl.
  rewrite Hsk, Hck. simpl. rewrite make_key_str. simpl. rewrite Hname. simpl.
  unfold family_is_hashable in Hfamily.
  destruct (standards !! sk) as [std|]; [|by eexists _, _, _].
  destruct (Standard.controls std !! ck) as [c|]; [|by eexists _, _, _].
  destruct (CatalogControl.family c) as [| |f| |]; simpl in *; try done;
    try by eexists _, _, _.
  destruct (Standard.families std !! f); by eexists _, _, _.
Qed.

Lemma aggregator_needs_entry_name_counterexample :
  OpenControl.load_project_component_controls demo_fs_unnamed demo_component
    demo_standards
  = ([], Some (KeyError "name")).
Proof. vm_compute. reflexivity. Qed.

(** C5, as the code has it: a manifest whose one [satisfies] entry has a
    [standard_key], a [control_key] and a [name], and the two fragments "a"
    and "b", yields exactly two records and ends normally (the family the
    standards give for the control, if they list it, must be a value that
    can be looked up); both records carry the entry's merged standard,
    family and control metadata, which the aggregator builds for the entry,
    and each carries its own fragment's key, text and sort key, the two keys
    and sort keys being different.  An entry without fragments yields no
    record. *)
Theorem aggregator_one_record_per_fragment :
  (forall fs component standards manifest entry sk ck name
          part_a part_b text_a text_b,
      let fn := path_join (Component.path component) ["component.yaml"] in
      fs !! fn = Some (VDict manifest) ->
      assoc "schema_version" manifest = Some (VStr "3.0.0") ->
      assoc "satisfies" manifest = Some (VList [VDict entry]) ->
      assoc "standard_key" entry = Some (VStr sk) ->
      assoc "control_key" entry = Some (VStr ck) ->
      assoc "name" entry = Some name ->
      family_is_hashable standards sk ck = true ->
      assoc "narrative" entry = Some (VList [VDict part_a; VDict part_b]) ->
      assoc "key" part_a = Some (VStr "a") ->
      assoc "text" part_a = Some text_a ->
      assoc "key" part_b = Some (VStr "b") ->
      assoc "text" part_b = Some text_b ->
      exists standard family control ra rb,
        OpenControl.control_metadata component standards (VDict entry)
          = Ok (standard, family, control)
        /\ StandardInfo.id standard = sk
        /\ StandardInfo.name standard
           = match standards !! sk with
             | Some std => Standard.name std
             | None => VStr sk
             end
        /\ FamilyInfo.abbrev family = hd "" (str_split "-"%char ck)
        /\ ControlInfo.url control
           = Project.url (Component.project component) +:+ "/controls/"
             +:+ quote_plus sk +:+ "/" +:+ quote_plus ck
        /\ OpenControl.load_project_component_controls fs component standards
           = ([ra; rb], None)
        /\ ra = {| ControlImpl.component := component;
                   ControlImpl.standard := standard;
                   ControlImpl.family := family;
                   ControlImpl.control := control;
                   ControlImpl.source_file := fn;
                   ControlImpl.control_part := VStr "a";
                   ControlImpl.sort_key := (ControlInfo.sort_key control, [PStr "a"]);
                   ControlImpl.narrative := text_a |}
        /\ rb = {| ControlImpl.component := component;
                   ControlImpl.standard := standard;
                   ControlImpl.family := family;
                   ControlImpl.control := control;
                   ControlImpl.source_file := fn;
                   ControlImpl.control_part := VStr "b";
                   ControlImpl.sort_key := (ControlInfo.sort_key control, [PStr "b"]);
                   ControlImpl.narrative := text_b |}
        /\ ControlImpl.control_part ra <> ControlImpl.control_part rb
        /\ ControlImpl.sort_key ra <> ControlImpl.sort_key rb
        /\ (text_a <> text_b -> ControlImpl.narrative ra <> ControlImpl.narrative rb))
  /\ (forall component standards fn control,
        no_fragments control ->
        fst (OpenControl.controls_of_entry component standards fn control) = [])
  /\ (forall fs component standards manifest entries,
        fs !! path_join (Component.path component) ["component.yaml"]
          = Some (VDict manifest) ->
        assoc "satisfies" manifest = Some (VList entries) ->
        Forall no_fragments entries ->
        fst (OpenControl.load_project_component_controls fs component standards) = []).
Proof.
  split; [|split].
  - intros fs component standards manifest entry sk ck name part_a part_b
      text_a text_b fn Hfile Hversion Hsatisfies Hsk Hck Hname Hfamily Hnarrative
      Hka Hta Hkb Htb.
    destruct (control_metadata_succeeds component standards entry sk ck name)
      as (standard & family & control & Hmetadata & Hid & Hsname & Habbrev & Hurl);
      [done..|].
    exists standard, family, control. eexists _, _.
    split; [exact Hmetadata|]. split; [exact Hid|]. split; [exact Hsname|].
    split; [exact Habbrev|]. split; [exact Hurl|].
    split; [|repeat split; [discriminate|discriminate|]].
    + unfold OpenControl.load_project_component_controls, read_yaml.
      fold fn. rewrite Hfile. simpl. rewrite Hversion, Hsatisfies. simpl.
      unfold OpenControl.controls_of_entry. rewrite Hmetadata. simpl.
      rewrite Hnarrative. simpl. rewrite Hka, Hta, Hkb, Htb. simpl.
      reflexivity.
    + simpl. auto.
  - apply controls_of_entry_no_fragments.
  - intros fs component standards manifest entries Hfile Hsatisfies Hentries.
    unfold OpenControl.load_project_component_controls, read_yaml.
    rewrite Hfile. simpl.
    destruct (negb _); [done|]. rewrite Hsatisfies. simpl.
    apply gen_for_nothing.
    eapply Forall_impl; [exact Hentries|].
    intros control Hc. by apply controls_of_entry_no_fragments.
Qed.

Lemma aggregator_one_record_per_fragment_witness :
  exists standard family control ra rb,
    OpenControl.control_metadata demo_component demo_standards
      (VDict [("standard_key", VStr "NIST-800-53");
              ("control_key", VStr "AC-2");
              ("name", VStr "Account Management");
              ("narrative", VList [
                 VDict [("key", VStr "a"); ("text", VStr "Accounts are reviewed.")];
                 VDict [("key", VStr "b"); ("text", VStr "Accounts expire.")]])])
      = Ok (standard, family, control)
    /\ OpenControl.load_project_component_controls demo_fs demo_component
         demo_standards
       = ([ra; rb], None)
    /\ ControlImpl.control ra = control
    /\ ControlImpl.control rb = control
    /\ ControlImpl.control_part ra = VStr "a"
    /\ ControlImpl.control_part rb = VStr "b"
    /\ ControlImpl.narrative ra = VStr "Accounts are reviewed."
    /\ ControlImpl.narrative rb = VStr "Accounts expire.".
Proof.
  edestruct (proj1 aggregator_one_record_per_fragment
               demo_fs demo_component demo_standards)
    as (standard & family & control & ra & rb & Hmetadata & _ & _ & _ & _ & Hload
        & Hra & Hrb & _);
    [vm_compute; reflexivity .. |].
  exists standard, family, control, ra, rb.
  split; [exact Hmetadata|]. split; [exact Hload|]. subst ra rb. repeat split.
Defined.

(** ** The targeted updater *)

Lemma assoc_set_lookup (key : string) (v : value) (d : list (string * value)) :
  assoc key (assoc_set key v d) = Some v.
Proof.
  induction d as [|[k x] d IH]; simpl.
  - by rewrite String.eqb_refl.
  - destruct (String.eqb k key) eqn:Hk; simpl; by rewrite Hk.
Qed.

Lemma assoc_set_same_but (key : string) (v : value) (d : list (string * value)) :
  same_but key d (assoc_set key v d).
Proof.
  split.
  - induction d as [|[k x] d IH]; simpl.
    + by rewrite String.eqb_refl.
    + destruct (String.eqb k key) eqn:Hk; simpl; rewrite Hk; simpl; [done|].
      by rewrite IH.
  - induction d as [|[k x] d IH]; simpl; [by intros [? ?]|].
    destruct (String.eqb k key) eqn:Hk; simpl; [done|].
    intros Hsome. by rewrite IH.
Qed.

Lemma map_res_Forall2 {A B} (f : A -> res B) (l : list A) (l' : list B) :
  map_res f l = Ok l' -> Forall2 (fun x y => f x = Ok y) l l'.
Proof.
  revert l'. induction l as [|x l IH]; simpl; intros l' H.
  - inversion H. constructor.
  - unbind H. inversion H; subst. constructor; auto.
Qed.

Lemma update_narrative_part_frame (controlimpl : ControlImpl.t) (p p' : value) :
  OpenControl.update_narrative_part controlimpl p = Ok p' ->
  part_frame controlimpl p p'.
Proof.
  unfold OpenControl.update_narrative_part, part_frame, part_matches.
  destruct p as [| | | |fields]; simpl; try discriminate.
  replace (match assoc "key" fields with Some v => v | None => VNone end)
    with (default VNone (assoc "key" fields)) by by destruct (assoc "key" fields).
  destruct (value_eqb (default VNone (assoc "key" fields))
              (ControlImpl.control_part controlimpl));
    intros H; inversion H; subst; [|done].
  eexists. repeat split;
    [apply assoc_set_same_but|apply assoc_set_same_but|apply assoc_set_lookup].
Qed.

Lemma update_satisfies_entry_frame (controlimpl : ControlImpl.t) (e e' : value) :
  OpenControl.update_satisfies_entry controlimpl e = Ok e' ->
  entry_frame controlimpl e e'.
Proof.
  unfold OpenControl.update_satisfies_entry, entry_frame, entry_matches.
  destruct e as [| | | |fields]; simpl; try discriminate.
  destruct (assoc "standard_key" fields) as [sk|]; simpl; [|discriminate].
  destruct (value_eqb sk _); simpl;
    [|intros [= <-]; by destruct (assoc "control_key" fields)].
  destruct (assoc "control_key" fields) as [ck|]; simpl; [|discriminate].
  destruct (value_eqb ck _); simpl; [|by intros [= <-]].
  intros H. unbind H. inversion H; subst; clear H.
  destruct (assoc "narrative" fields) as [narrative|] eqn:Hn; simpl in *.
  - destruct narrative as [| | |parts|]; simpl in Hv; try discriminate; try done.
    inversion Hv; subst.
    exists (assoc_set "narrative" (VList v0) fields), v0. repeat split.
    + apply assoc_set_same_but.
    + apply assoc_set_same_but.
    + apply assoc_set_lookup.
    + apply map_res_Forall2 in Hv0.
      eapply Forall2_impl; [exact Hv0|]. apply update_narrative_part_frame.
  - done.
Qed.

Lemma update_rewrites_every_match_counterexample :
  OpenControl.load_project_component_controls demo_fs_keyless demo_component
    demo_standards
  = ([keyless_controlimpl (VStr "Accounts are reviewed.");
      keyless_controlimpl (VStr "Accounts expire.")], None)
  /\ OpenControl.update_component_control demo_fs_keyless
       (keyless_controlimpl (VStr "Reviewed weekly."))
     = Ok ({[ "my project/components/web app/component.yaml" :=
                demo_keyless_manifest (VStr "Reviewed weekly.")
                                      (VStr "Reviewed weekly.") ]}, VNone).
Proof. split; vm_compute; reflexivity. Qed.

(** C7, as the code has it: when [update_component_control] succeeds,
    nothing but the file of the record is written, and the document written
    differs from the one read only in the [text] of the narrative fragments
    whose entry and key match the record, each of which holds the record's
    narrative (the loops do not stop at the first match): every other field
    of the document, of its entries and of their fragments, every entry and
    fragment that does not match, and the order of fields, entries and
    fragments are as they were. *)
Theorem update_changes_only_matched_text (fs fs' : gmap string value)
    (controlimpl : ControlImpl.t) (r : value) :
  OpenControl.update_component_control fs controlimpl = Ok (fs', r) ->
  exists d d',
    fs !! ControlImpl.source_file controlimpl = Some d
    /\ fs' = <[ControlImpl.source_file controlimpl := d']> fs
    /\ doc_frame controlimpl d d'
    /\ forall path, path <> ControlImpl.source_file controlimpl ->
          fs' !! path = fs !! path.
Proof.
  unfold OpenControl.update_component_control, read_yaml. intros H.
  destruct (fs !! ControlImpl.source_file controlimpl) as [d|] eqn:Hfile;
    simpl in H; [|discriminate].
  unbind H. inversion H; subst; clear H.
  exists d, (with_items d "satisfies" v1). repeat split.
  - unfold doc_frame, with_items.
    destruct d as [| | | |fields]; simpl in Hv; try discriminate.
    destruct (assoc "satisfies" fields) as [satisfies|] eqn:Hs; [|discriminate].
    inversion Hv; subst.
    destruct v as [| | |entries|]; try done.
    simpl in Hv0. inversion Hv0; subst.
    exists (assoc_set "satisfies" (VList v1) fields), v1. repeat split.
    + apply assoc_set_same_but.
    + apply assoc_set_same_but.
    + apply assoc_set_lookup.
    + apply map_res_Forall2 in Hv1.
      eapply Forall2_impl; [exact Hv1|]. apply update_satisfies_entry_frame.
  - intros path Hpath. by rewrite lookup_insert_ne.
Qed.

Example demo_controls_load :
  OpenControl.load_project_component_controls demo_fs demo_component demo_standards
  = ([demo_controlimpl "a" (VStr "Accounts are reviewed.");
      demo_controlimpl "b" (VStr "Accounts expire.")], None).
Proof. vm_compute. reflexivity. Qed.

Example demo_update :
  OpenControl.update_component_control demo_fs
    (demo_controlimpl "a" (VStr "Reviewed weekly."))
  = Ok (<["my project/components/web app/component.yaml"
            := demo_manifest (VStr "Reviewed weekly.")]> demo_fs, VNone).
Proof. vm_compute. reflexivity. Qed.

Lemma update_changes_only_matched_text_witness :
  exists d d',
    demo_fs !! "my project/components/web app/component.yaml" = Some d
    /\ <["my project/components/web app/component.yaml"
           := demo_manifest (VStr "Reviewed weekly.")]> demo_fs
       = <["my project/components/web app/component.yaml" := d']> demo_fs
    /\ doc_frame (demo_controlimpl "a" (VStr "Reviewed weekly.")) d d'
    /\ forall path, path <> "my project/components/web app/component.yaml" ->
         (<["my project/components/web app/component.yaml"
              := demo_manifest (VStr "Reviewed weekly.")]> demo_fs) !! path
         = demo_fs !! path.
Proof.
  apply (update_changes_only_matched_text demo_fs _
           (demo_controlimpl "a" (VStr "Reviewed weekly.")) VNone).
  vm_compute. reflexivity.
Defined.

Lemma assoc_set_id (key : string) (v : value) (d : list (string * value)) :
  assoc key d = Some v -> assoc_set key v d = d.
Proof.
  induction d as [|[k x] d IH]; simpl; [done|].
  destruct (String.eqb k key); [by intros [= ->]|].
  intros H. by rewrite IH.
Qed.

Lemma map_res_id {A} (f : A -> res A) (l : list A) :
  Forall (fun x => f x = Ok x) l -> map_res f l = Ok l.
Proof.
  induction 1 as [|x l Hx Hl IH]; simpl; [done|]. by rewrite Hx, IH.
Qed.

Lemma update_narrative_part_miss (controlimpl : ControlImpl.t) (p : value) :
  is_dict p = true -> part_hit controlimpl p = false ->
  OpenControl.update_narrative_part controlimpl p = Ok p.
Proof.
  destruct p as [| | | |fields]; simpl; try discriminate. intros _.
  unfold OpenControl.update_narrative_part, part_matches. simpl.
  destruct (assoc "key" fields); simpl; by intros ->.
Qed.

Lemma update_satisfies_entry_miss (controlimpl : ControlImpl.t) (e : value) :
  well_formed_entry e = true -> entry_hit controlimpl e = false ->
  OpenControl.update_satisfies_entry controlimpl e = Ok e.
Proof.
  destruct e as [| | | |fields]; simpl; try discriminate.
  unfold OpenControl.update_satisfies_entry, entry_matches, has_key. simpl.
  destruct (assoc "standard_key" fields) as [sk|]; simpl; [|discriminate].
  destruct (assoc "control_key" fields) as [ck|]; simpl; [|discriminate].
  destruct (value_eqb sk _); simpl; [|done].
  destruct (value_eqb ck _); simpl; [|done].
  destruct (assoc "narrative" fields) as [[| | |parts|]|] eqn:Hn;
    simpl; try discriminate; [|done].
  intros Hparts Hmiss.
  rewrite map_res_id.
  - simpl. by rewrite assoc_set_id.
  - apply Forall_forall. intros p Hp%list_elem_of_In.
    apply update_narrative_part_miss.
    + rewrite forallb_forall in Hparts. by apply Hparts.
    + destruct (part_hit controlimpl p) eqn:Hhit; [|done].
      assert (existsb (part_hit controlimpl) parts = true) as E; [|congruence].
      apply existsb_exists. eauto.
Qed.

Lemma update_component_control_returns_none (fs fs' : gmap string value)
    (controlimpl : ControlImpl.t) (r : value) :
  OpenControl.update_component_control fs controlimpl = Ok (fs', r) -> r = VNone.
Proof.
  unfold OpenControl.update_component_control. intros H.
  unbind H. by inversion H.
Qed.

Lemma update_without_match (fs : gmap string value)
    (controlimpl : ControlImpl.t) (d : value) :
  fs !! ControlImpl.source_file controlimpl = Some d ->
  well_formed_component d = true ->
  has_match controlimpl d = false ->
  OpenControl.update_component_control fs controlimpl = Ok (fs, VNone).
Proof.
  intros Hfile Hwf Hmiss.
  unfold OpenControl.update_component_control, read_yaml. rewrite Hfile. simpl.
  destruct d as [| | | |fields]; simpl in *; try discriminate.
  destruct (assoc "satisfies" fields) as [[| | |entries|]|] eqn:Hs;
    try discriminate.
  simpl. rewrite map_res_id.
  - simpl. rewrite assoc_set_id by done. by rewrite insert_id.
  - apply Forall_forall. intros e He%list_elem_of_In.
    apply update_satisfies_entry_miss.
    + rewrite forallb_forall in Hwf. by apply Hwf.
    + destruct (entry_hit controlimpl e) eqn:Hhit; [|done].
      assert (existsb (entry_hit controlimpl) entries = true) as E; [|congruence].
      apply existsb_exists. eauto.
Qed.

(** The caller receives [None] whether or not a fragment matched. *)
Lemma update_does_not_report_counterexample :
  has_match (demo_controlimpl "z" (VStr "Reviewed weekly."))
    (demo_manifest (VStr "Accounts are reviewed.")) = false
  /\ OpenControl.update_component_control demo_fs
       (demo_controlimpl "z" (VStr "Reviewed weekly."))
     = Ok (demo_fs, VNone)
  /\ has_match (demo_controlimpl "a" (VStr "Reviewed weekly."))
       (demo_manifest (VStr "Accounts are reviewed.")) = true
  /\ OpenControl.update_component_control demo_fs
       (demo_controlimpl "a" (VStr "Reviewed weekly."))
     = Ok (<["my project/components/web app/component.yaml"
               := demo_manifest (VStr "Reviewed weekly.")]> demo_fs, VNone).
Proof. repeat split; vm_compute; reflexivity. Qed.

(** C1, as the code has it: for a record that matches no fragment of a
    well-formed manifest, [update_component_control] raises nothing and
    writes back the very document it read, so the file holds what it held;
    it returns [None], which is what it returns after every successful
    call, so the result does not say whether a match was found. *)
Theorem update_without_match_keeps_document :
  (forall fs controlimpl d,
      fs !! ControlImpl.source_file controlimpl = Some d ->
      well_formed_component d = true ->
      has_match controlimpl d = false ->
      OpenControl.update_component_control fs controlimpl = Ok (fs, VNone))
  /\ (forall fs fs' controlimpl r,
        OpenControl.update_component_control fs controlimpl = Ok (fs', r) ->
        r = VNone).
Proof.
  split.
  - exact update_without_match.
  - exact update_component_control_returns_none.
Qed.

Lemma update_without_match_keeps_document_witness :
  OpenControl.update_component_control demo_fs
    (demo_controlimpl "z" (VStr "Reviewed weekly."))
  = Ok (demo_fs, VNone).
Proof.
  apply (proj1 update_without_match_keeps_document demo_fs
           (demo_controlimpl "z" (VStr "Reviewed weekly."))
           (demo_manifest (VStr "Accounts are reviewed."))).
  - reflexivity.
  - reflexivity.
  - reflexivity.
Defined.

(** ** Text normalisation *)

Lemma newline_is_space (c : ascii) : is_newline c = true -> is_space c = true.
Proof. destruct c as [[] [] [] [] [] [] [] []]; vm_compute; congruence. Qed.

Lemma not_space_not_newline (c : ascii) : is_space c = false -> is_newline c = false.
Proof.
  intros H. destruct (is_newline c) eqn:E; [|done].
  apply newline_is_space in E. congruence.
Qed.

Lemma span_rest_head (p : ascii -> bool) (l : list ascii) :
  head_fails p (snd (span p l)).
Proof.
  induction l as [|c l IH]; simpl; [done|].
  destruct (p c) eqn:Hc; [|done].
  by destruct (span p l).
Qed.

Lemma span_of_app (p : ascii -> bool) (run rest : list ascii) :
  Forall (fun c => p c = true) run -> head_fails p rest ->
  span p (run ++ rest) = (run, rest).
Proof.
  induction 1 as [|c run Hc Hrun IH]; simpl; intros Hrest.
  - destruct rest as [|c rest]; [done|]. simpl in *. by rewrite Hrest.
  - simpl in Hc. rewrite Hc, IH; done.
Qed.

Lemma give_back_Some (n : nat) (l m rest : list ascii) :
  give_back n l = Some (m, rest) ->
  exists k c, 1 <= k <= n /\ nth_error l k = Some c /\ is_newline c = true
    /\ rest = skipn (S k) l
    /\ forall k' c', k < k' <= n -> nth_error l k' = Some c' -> is_newline c' = false.
Proof.
  induction n as [|n IH]; cbn [give_back]; [discriminate|].
  assert (give_back n l = Some (m, rest) ->
          (forall c', nth_error l (S n) = Some c' -> is_newline c' = false) ->
          exists k c, 1 <= k <= S n /\ nth_error l k = Some c /\ is_newline c = true
            /\ rest = skipn (S k) l
            /\ forall k' c', k < k' <= S n -> nth_error l k' = Some c' ->
                 is_newline c' = false) as Hstep.
  { intros H Hlast. destruct (IH H) as (k & c & Hk & Hc & Hnl & Hrest & Hlater).
    exists k, c. repeat split; try lia; try done.
    intros k' c' Hk' Hc'. destruct (decide (k' = S n)) as [->|Hne].
    - by apply Hlast.
    - apply (Hlater k'); [lia|done]. }
  destruct (nth_error l (S n)) as [c|] eqn:Hc.
  - destruct (is_newline c) eqn:Hnl.
    + intros H. inversion H; subst. exists (S n), c.
      repeat split; try lia; try done.
    + intros H. apply Hstep; [done|]. by intros c' [= <-].
  - intros H. apply Hstep; [done|]. discriminate.
Qed.

Lemma give_back_None (n : nat) (l : list ascii) :
  give_back n l = None ->
  forall k c, 1 <= k <= n -> nth_error l k = Some c -> is_newline c = false.
Proof.
  induction n as [|n IH]; cbn [give_back]; [intros; lia|].
  intros H k c Hk Hc.
  destruct (decide (k = S n)) as [->|Hne].
  - rewrite Hc in H. destruct (is_newline c); [discriminate|done].
  - apply (IH) with (k := k); [|lia|done].
    destruct (nth_error l (S n)) as [c'|]; [|done].
    by destruct (is_newline c').
Qed.

Lemma match_none_no_newline_run (l : list ascii) :
  no_newline_run l -> match_space_newline l = None.
Proof.
  unfold no_newline_run, match_space_newline. intros Hrun.
  destruct (give_back _ l) as [[m rest]|] eqn:H; [|done]. exfalso.
  apply give_back_Some in H as (k & c & Hk & Hc & Hnl & _).
  pose proof (span_app is_space l) as Happ.
  pose proof (span_rest_head is_space l) as Hhead.
  destruct (span is_space l) as [run rest0]; simpl in *. subst l.
  destruct (decide (k < length run)) as [Hlt|Hge].
  - rewrite nth_error_app1 in Hc by done. apply nth_error_In in Hc.
    rewrite List.Forall_forall in Hrun. rewrite (Hrun c Hc) in Hnl. discriminate.
  - assert (k = length run) as -> by lia.
    rewrite nth_error_app2, Nat.sub_diag in Hc by lia.
    destruct rest0 as [|c0 rest0]; simpl in Hc; [discriminate|].
    inversion Hc; subst. apply newline_is_space in Hnl. simpl in Hhead. congruence.
Qed.

Lemma no_newline_run_tail (c : ascii) (l : list ascii) :
  is_space c = true -> match_space_newline (c :: l) = None -> no_newline_run l.
Proof.
  unfold match_space_newline, no_newline_run. cbn [span]. intros ->.
  pose proof (span_app is_space l) as Happ.
  destruct (span is_space l) as [run rest0]; cbn [fst snd length] in *. intros H.
  apply List.Forall_forall. intros x Hx. apply In_nth_error in Hx as [j Hj].
  assert (j < length run) as Hlt by (apply nth_error_Some; congruence).
  apply (give_back_None _ _ H (S j) x); [lia|].
  cbn [nth_error]. rewrite <- Happ. by rewrite nth_error_app1.
Qed.

Lemma match_some_rest (l m rest : list ascii) :
  match_space_newline l = Some (m, rest) ->
  no_newline_run rest /\ length rest < length l.
Proof.
  unfold match_space_newline. intros H.
  apply give_back_Some in H as (k & c & Hk & Hc & Hnl & -> & Hlater).
  pose proof (span_app is_space l) as Happ.
  pose proof (span_run is_space l) as Hrun.
  pose proof (span_rest_head is_space l) as Hhead.
  destruct (span is_space l) as [run rest0]; simpl in *. subst l.
  assert (k < length run) as Hlt.
  { destruct (decide (k < length run)) as [|Hge]; [done|]. exfalso.
    assert (k = length run) as -> by lia.
    rewrite nth_error_app2, Nat.sub_diag in Hc by lia.
    destruct rest0 as [|c0 rest0]; simpl in Hc; [discriminate|].
    inversion Hc; subst. apply newline_is_space in Hnl. simpl in Hhead. congruence. }
  split.
  - unfold no_newline_run. rewrite drop_app_le by lia.
    rewrite span_of_app; [|by apply Forall_drop|done]. simpl.
    apply List.Forall_forall. intros x Hx. apply In_nth_error in Hx as [j Hj].
    rewrite nth_error_skipn in Hj.
    assert (S k + j < length run) as Hj' by (apply nth_error_Some; congruence).
    apply (Hlater (S k + j) x); [lia|]. by rewrite nth_error_app1.
  - rewrite length_drop, length_app. lia.
Qed.

Lemma no_newline_run_head (l : list ascii) :
  no_newline_run l -> head_fails is_newline l.
Proof.
  destruct l as [|c l]; [done|]. unfold no_newline_run. simpl.
  destruct (is_space c) eqn:Hc.
  - destruct (span is_space l). simpl. by inversion 1.
  - intros _. by apply not_space_not_newline.
Qed.

Lemma re_sub_head (fuel : nat) (l : list ascii) :
  no_newline_run l ->
  head_fails is_newline (re_sub_from fuel match_space_newline [newline] l).
Proof.
  intros H. pose proof (no_newline_run_head l H) as Hhead.
  destruct fuel as [|fuel]; simpl; [done|].
  destruct l as [|c l]; [done|].
  by rewrite (match_none_no_newline_run _ H).
Qed.

Lemma tidy_cons (x : ascii) (r : list ascii) :
  is_space x = false \/ head_fails is_newline r ->
  tidy r = true -> tidy (x :: r) = true.
Proof.
  simpl. intros [-> | H] ->; [done|].
  destruct r as [|y r]; simpl in *; [by rewrite andb_false_r|].
  by rewrite H, andb_false_r.
Qed.

Lemma re_sub_tidy (fuel : nat) :
  forall l, length l < fuel ->
    tidy (re_sub_from fuel match_space_newline [newline] l) = true.
Proof.
  induction fuel as [|fuel IH]; intros l Hl; [lia|].
  destruct l as [|c l]; [done|].
  cbn [re_sub_from].
  destruct (match_space_newline (c :: l)) as [[m rest]|] eqn:Hm.
  - apply match_some_rest in Hm as [Hrun Hlen].
    apply tidy_cons; [right; by apply re_sub_head|].
    apply IH. simpl in *. lia.
  - apply tidy_cons; [|apply IH; simpl in Hl; lia].
    destruct (is_space c) eqn:Hc; [right|by left].
    apply re_sub_head. by eapply no_newline_run_tail.
Qed.

Lemma match_none_at_text (c : ascii) (l : list ascii) :
  is_space c = false -> match_space_newline (c :: l) = None.
Proof. intros H. unfold match_space_newline. simpl. by rewrite H. Qed.

Lemma re_sub_nil (fuel : nat) (m : matcher) (repl : list ascii) :
  re_sub_from fuel m repl [] = [].
Proof. by destruct fuel. Qed.

Lemma span_run_app_last (p : ascii -> bool) (l : list ascii) (x : ascii) :
  p x = false -> length (fst (span p (l ++ [x]))) <= length l.
Proof.
  intros Hx. induction l as [|c l IH]; simpl.
  - by rewrite Hx.
  - destruct (p c); [|simpl; lia].
    destruct (span p (l ++ [x])). simpl in *. lia.
Qed.

Lemma match_keeps_last (l : list ascii) (x : ascii) (m rest : list ascii) :
  is_space x = false ->
  match_space_newline (l ++ [x]) = Some (m, rest) ->
  exists rest', rest = rest' ++ [x] /\ length rest' < length l.
Proof.
  unfold match_space_newline. intros Hx H.
  apply give_back_Some in H as (k & c & Hk & Hc & Hnl & -> & _).
  pose proof (span_run_app_last is_space l x Hx) as Hrun.
  assert (k < length l) as Hlt.
  { destruct (decide (k < length l)) as [|Hge]; [done|]. exfalso.
    assert (k = length l) as -> by lia.
    rewrite nth_error_app2, Nat.sub_diag in Hc by lia. simpl in Hc.
    inversion Hc; subst. apply newline_is_space in Hnl. congruence. }
  exists (skipn (S k) l). rewrite drop_app_le by lia. split; [done|].
  rewrite length_drop. lia.
Qed.

Lemma re_sub_last (fuel : nat) :
  forall l x, length l < fuel -> is_space x = false ->
    exists r, re_sub_from fuel match_space_newline [newline] (l ++ [x]) = r ++ [x].
Proof.
  induction fuel as [|fuel IH]; intros l x Hl Hx; [lia|].
  destruct l as [|c l]; cbn [re_sub_from app].
  - rewrite match_none_at_text by done. rewrite re_sub_nil. by exists [].
  - destruct (match_space_newline (c :: l ++ [x])) as [[m rest]|] eqn:Hm.
    + apply (match_keeps_last (c :: l)) in Hm as (rest' & -> & Hlen); [|done].
      destruct (IH rest' x) as [r Hr]; [simpl in *; lia|done|].
      rewrite Hr. by exists (newline :: r).
    + destruct (IH l x) as [r Hr]; [simpl in *; lia|done|].
      rewrite Hr. by exists (c :: r).
Qed.

Lemma drop_while_suffix (p : ascii -> bool) (l : list ascii) :
  exists pre, l = pre ++ drop_while p l.
Proof.
  induction l as [|c l [pre IH]]; simpl; [by exists []|].
  destruct (p c); [|by exists []].
  exists (c :: pre). simpl. by rewrite <- IH.
Qed.

Lemma drop_while_hd (p : ascii -> bool) (l : list ascii) :
  head_fails p (drop_while p l).
Proof.
  induction l as [|c l IH]; simpl; [done|].
  destruct (p c) eqn:Hc; [done|]. simpl. done.
Qed.

Lemma drop_while_nil (p : ascii -> bool) (l : list ascii) :
  drop_while p l = [] <-> forallb p l = true.
Proof.
  induction l as [|c l IH]; simpl; [done|].
  destruct (p c); simpl; [done|]. split; discriminate.
Qed.

Lemma strip_chars_ends (p : ascii -> bool) (l : list ascii) :
  head_fails p (strip_chars p l) /\ head_fails p (rev (strip_chars p l)).
Proof.
  unfold strip_chars. rewrite rev_involutive. split; [|apply drop_while_hd].
  destruct (drop_while_suffix p (rev (drop_while p l))) as [pre Hpre].
  pose proof (drop_while_hd p l) as Hhd.
  apply (f_equal (@rev ascii)) in Hpre. rewrite rev_involutive, rev_app_distr in Hpre.
  destruct (rev (drop_while p (rev (drop_while p l)))) as [|c r]; [done|].
  rewrite Hpre in Hhd. done.
Qed.

Lemma strip_chars_fixed (p : ascii -> bool) (r : list ascii) :
  head_fails p r -> head_fails p (rev r) -> strip_chars p r = r.
Proof.
  intros Hfirst Hlast. unfold strip_chars.
  rewrite (drop_while_head p r) by (by destruct r).
  rewrite drop_while_head by (by destruct (rev r)).
  apply rev_involutive.
Qed.

Lemma strip_chars_blank (p : ascii -> bool) (l : list ascii) :
  strip_chars p l = [] <-> forallb p l = true.
Proof.
  unfold strip_chars. split.
  - intros H. apply (f_equal (@rev ascii)) in H. rewrite rev_involutive in H.
    simpl in H. apply drop_while_nil in H.
    pose proof (drop_while_hd p l) as Hhd. apply drop_while_nil.
    destruct (drop_while p l) as [|c r] eqn:E; [done|]. exfalso.
    simpl in H. rewrite forallb_app in H. simpl in H, Hhd.
    rewrite Hhd in H. by rewrite andb_false_r in H.
  - intros H. apply drop_while_nil in H. by rewrite H.
Qed.

Lemma text_nil (l : list ascii) : text l = "" <-> l = [].
Proof.
  split; [|by intros ->]. intros H.
  apply (f_equal chars) in H. by rewrite chars_text in H.
Qed.

Lemma strip_text (l : list ascii) : strip (text l) = text (strip_chars is_space l).
Proof. unfold strip. by rewrite chars_text. Qed.

Lemma clean_text_cleaned (t : string) :
  Routes.clean_text t
  = if String.eqb (text (cleaned t)) "" then VNone else VStr (text (cleaned t)).
Proof.
  unfold Routes.clean_text, cleaned, re_sub, strip. by rewrite chars_text.
Qed.

Lemma cleaned_spec (t : string) :
  (cleaned t = [] <-> forallb is_space (chars t) = true)
  /\ strip_chars is_space (cleaned t) = cleaned t
  /\ tidy (cleaned t) = true.
Proof.
  unfold cleaned.
  destruct (strip_chars_ends is_space (chars t)) as [Hfirst Hlast].
  pose proof (strip_chars_blank is_space (chars t)) as Hblank.
  destruct (strip_chars is_space (chars t)) as [|c l] eqn:Hs.
  - repeat split; try done. by apply Hblank.
  - simpl in Hfirst. cbn [re_sub_from].
    rewrite (match_none_at_text c l Hfirst).
    split; [|split].
    + split; [discriminate|]. intros H. apply Hblank in H. discriminate.
    + destruct (rev (c :: l)) as [|x back] eqn:Hrev.
      { apply (f_equal (@length ascii)) in Hrev. rewrite length_rev in Hrev.
        discriminate. }
      apply (f_equal (@rev ascii)) in Hrev. rewrite rev_involutive in Hrev.
      simpl in Hrev, Hlast.
      destruct (re_sub_last (S (length (c :: l))) (rev back) x) as [r Hr];
        [rewrite Hrev, length_app; simpl; lia|done|].
      rewrite <- Hrev in Hr. cbn [re_sub_from] in Hr.
      rewrite (match_none_at_text c l Hfirst) in Hr.
      apply strip_chars_fixed; [done|]. rewrite Hr, rev_app_distr. done.
    + pose proof (re_sub_tidy (S (length (c :: l))) (c :: l)) as Htidy.
      cbn [re_sub_from] in Htidy.
      rewrite (match_none_at_text c l Hfirst) in Htidy. apply Htidy. lia.
Qed.

Lemma clean_text_normalized (t : string) :
  is_normalized (Routes.clean_text t) = true.
Proof.
  rewrite clean_text_cleaned.
  destruct (cleaned_spec t) as (_ & Hstrip & Htidy).
  destruct (String.eqb (text (cleaned t)) "") eqn:E; [done|].
  simpl. rewrite E, strip_text, Hstrip, String.eqb_refl, chars_text, Htidy. done.
Qed.

Lemma clean_text_blank (t : string) :
  Routes.clean_text t = VNone <-> forallb is_space (chars t) = true.
Proof.
  rewrite clean_text_cleaned.
  destruct (cleaned_spec t) as (Hblank & _ & _). rewrite <- Hblank, <- text_nil.
  destruct (String.eqb (text (cleaned t)) "") eqn:E.
  - apply String.eqb_eq in E. done.
  - apply String.eqb_neq in E. split; [discriminate|done].
Qed.

Lemma assoc_set_other (key key' : string) (v : value) (d : list (string * value)) :
  String.eqb key' key = false -> assoc key (assoc_set key' v d) = assoc key d.
Proof.
  intros Hne. induction d as [|[k x] d IH]; simpl.
  - by rewrite Hne.
  - destruct (String.eqb k key') eqn:Hk; simpl.
    + apply String.eqb_eq in Hk. subst k. by rewrite Hne.
    + by rewrite IH.
Qed.

Lemma apply_form_fields (form : gmap string string) (controldata e' : value) :
  Routes.apply_form form controldata = Ok e' ->
  exists fields', e' = VDict fields'
    /\ assoc "summary" fields'
       = Some (Routes.clean_text (Routes.form_get form "summary"))
    /\ assoc "narrative" fields'
       = Some (Routes.clean_text (Routes.form_get form "narrative"))
    /\ assoc "implementation_status" fields'
       = Some (Routes.clean_text (Routes.form_get form "status")).
Proof.
  unfold Routes.apply_form.
  destruct controldata as [| | | |fields]; simpl; try discriminate.
  intros [= <-]. eexists. split; [done|]. repeat split.
  - rewrite !assoc_set_other by done. apply assoc_set_lookup.
  - rewrite assoc_set_other by done. apply assoc_set_lookup.
  - apply assoc_set_lookup.
Qed.

Lemma update_first_match_Some (form : gmap string string)
    (entries entries' : list value) :
  Routes.update_first_match form entries = Ok (Some entries') ->
  exists e', e' ∈ entries' /\ exists e, Routes.apply_form form e = Ok e'.
Proof.
  revert entries'. induction entries as [|e entries IH]; simpl; intros entries' H;
    [discriminate|].
  unbind H. destruct v.
  - unbind H. inversion H; subst. exists v. split; [left|eauto].
  - unbind H. destruct v as [found|]; inversion H; subst.
    destruct (IH found Hv0) as (e' & He' & Happly).
    exists e'. split; [by right|done].
Qed.

Lemma update_first_match_list (form : gmap string string) (satisfies : value)
    (entries entries' : list value) :
  py_iter satisfies = Ok entries ->
  Routes.update_first_match form entries = Ok (Some entries') ->
  satisfies = VList entries.
Proof.
  destruct satisfies as [| |s|l|m]; simpl; try discriminate.
  - intros [= <-]. by destruct (chars s).
  - by intros [= <-].
  - intros [= <-]. by destruct m as [|[k x] m].
Qed.

Lemma update_control_ok (control_files : list string)
    (form : gmap string string) (fs fs' : gmap string value) :
  Routes.update_control control_files form fs = Ok (fs', VStr "OK") ->
  exists control_file data entries entry,
    control_file ∈ control_files
    /\ fs' !! control_file = Some (VDict data)
    /\ assoc "satisfies" data = Some (VList entries)
    /\ VDict entry ∈ entries
    /\ assoc "summary" entry
       = Some (Routes.clean_text (Routes.form_get form "summary"))
    /\ assoc "narrative" entry
       = Some (Routes.clean_text (Routes.form_get form "narrative"))
    /\ assoc "implementation_status" entry
       = Some (Routes.clean_text (Routes.form_get form "status")).
Proof.
  induction control_files as [|control_file later IH]; simpl; [discriminate|].
  intros H. unbind H. destruct v2 as [entries'|].
  - inversion H; subst; clear H.
    apply (update_first_match_list _ _ _ _ Hv1) in Hv2 as Hlist. subst v0.
    destruct v as [| | | |fields]; simpl in Hv0; try discriminate.
    destruct (assoc "satisfies" fields) as [satisfies|] eqn:Hs; [|discriminate].
    inversion Hv0; subst. simpl in Hv1. inversion Hv1; subst.
    apply update_first_match_Some in Hv2 as (e' & He' & e & Happly).
    apply apply_form_fields in Happly as (entry & -> & Hsummary & Hnarrative & Hstatus).
    exists control_file, (assoc_set "satisfies" (VList entries') fields),
      entries', entry.
    repeat split; try done.
    + left.
    + unfold with_items. rewrite Hs. apply lookup_insert_eq.
    + apply assoc_set_lookup.
  - destruct (IH H) as (f & data & entries & entry & Hf & Hrest).
    exists f, data, entries, entry. split; [by right|done].
Qed.

(** A narrative given with white space around it is written as it is, and
    a blank one is written as a string: [update_component_control] does
    not normalize. *)
Lemma update_component_control_keeps_spaces_counterexample :
  OpenControl.update_component_control demo_fs
    (demo_controlimpl "a" (VStr "  Reviewed weekly. "))
  = Ok (<["my project/components/web app/component.yaml"
            := demo_manifest (VStr "  Reviewed weekly. ")]> demo_fs, VNone)
  /\ is_normalized (VStr "  Reviewed weekly. ") = false
  /\ OpenControl.update_component_control demo_fs
       (demo_controlimpl "a" (VStr "   "))
     = Ok (<["my project/components/web app/component.yaml"
               := demo_manifest (VStr "   ")]> demo_fs, VNone)
  /\ is_normalized (VStr "   ") = false.
Proof. repeat split; vm_compute; reflexivity. Qed.

(** C8, as the code has it: the normalisation is [clean_text], which the
    route handler [update_control] applies to the summary, the narrative
    and the status it writes.  Its result is [None] exactly when the text
    is blank; otherwise it is a non-empty string without white space at
    either end and without white space before a line break. *)
Theorem update_control_writes_clean_text :
  (forall t : string, is_normalized (Routes.clean_text t) = true)
  /\ (forall t : string,
        Routes.clean_text t = VNone <-> forallb is_space (chars t) = true)
  /\ (forall control_files form fs fs',
        Routes.update_control control_files form fs = Ok (fs', VStr "OK") ->
        exists control_file data entries entry,
          control_file ∈ control_files
          /\ fs' !! control_file = Some (VDict data)
          /\ assoc "satisfies" data = Some (VList entries)
          /\ VDict entry ∈ entries
          /\ assoc "summary" entry
             = Some (Routes.clean_text (Routes.form_get form "summary"))
          /\ assoc "narrative" entry
             = Some (Routes.clean_text (Routes.form_get form "narrative"))
          /\ assoc "implementation_status" entry
             = Some (Routes.clean_text (Routes.form_get form "status"))).
Proof.
  split; [exact clean_text_normalized|].
  split; [exact clean_text_blank|exact update_control_ok].
Qed.

Example legacy_update :
  Routes.update_control ["components/web/AC.yaml"] legacy_form legacy_fs
  = Ok ({[ "components/web/AC.yaml" :=
             VDict [("name", VStr "web");
                    ("satisfies", VList [
                       VDict [("control_key", VStr "AC-1");
                              ("narrative", VStr "Policy is documented.")];
                       VDict [("control_key", VStr "AC-2");
                              ("narrative",
                               VStr ("Reviewed weekly." +:+ String newline ""
                                     +:+ "By the owner."));
                              ("implementation_status", VNone);
                              ("summary", VNone)]])] ]},
        VStr "OK").
Proof. vm_compute. reflexivity. Qed.

Lemma update_control_writes_clean_text_witness :
  exists control_file data entries entry,
    control_file ∈ ["components/web/AC.yaml"]
    /\ (<["components/web/AC.yaml" :=
           VDict [("name", VStr "web");
                  ("satisfies", VList [
                     VDict [("control_key", VStr "AC-1");
                            ("narrative", VStr "Policy is documented.")];
                     VDict [("control_key", VStr "AC-2");
                            ("narrative",
                             VStr ("Reviewed weekly." +:+ String newline ""
                                   +:+ "By the owner."));
                            ("implementation_status", VNone);
                            ("summary", VNone)]])]]> legacy_fs)
         !! control_file = Some (VDict data)
    /\ assoc "satisfies" data = Some (VList entries)
    /\ VDict entry ∈ entries
    /\ assoc "summary" entry
       = Some (Routes.clean_text (Routes.form_get legacy_form "summary"))
    /\ assoc "narrative" entry
       = Some (Routes.clean_text (Routes.form_get legacy_form "narrative"))
    /\ assoc "implementation_status" entry
       = Some (Routes.clean_text (Routes.form_get legacy_form "status")).
Proof.
  apply (proj2 (proj2 update_control_writes_clean_text)
           ["components/web/AC.yaml"] legacy_form legacy_fs).
  vm_compute. reflexivity.
Defined.

(** ** The control resolver *)

Lemma text_app (a b : list ascii) : text (a ++ b) = text a +:+ text b.
Proof. induction a as [|c a IH]; simpl; [done|]. by rewrite IH. Qed.

Lemma join_map_text (parts : list (list ascii)) :
  join (map text parts) = text (concat parts).
Proof.
  induction parts as [|p parts IH]; [done|].
  change (join (map text (p :: parts))) with (text p +:+ join (map text parts)).
  by rewrite IH, <- text_app.
Qed.

Lemma str_app_assoc (a b c : string) : (a +:+ b) +:+ c = a +:+ (b +:+ c).
Proof.
  induction a as [|x a IH]; [done|].
  change (String x ((a +:+ b) +:+ c) = String x (a +:+ (b +:+ c))).
  by rewrite IH.
Qed.

Lemma join_app (a b : list string) : join (a ++ b) = join a +:+ join b.
Proof.
  induction a as [|s a IH]; [done|].
  change (join ((s :: a) ++ b)) with (s +:+ join (a ++ b)).
  change (join (s :: a)) with (s +:+ join a).
  by rewrite IH, str_app_assoc.
Qed.

Lemma app_empty_r (s : string) : s +:+ "" = s.
Proof.
  induction s as [|c s IH]; [done|].
  change (String c (s +:+ "") = String c s). by rewrite IH.
Qed.

Lemma match_run_sound (p : ascii -> bool) : sound (match_run p).
Proof.
  intros l sep rest. unfold match_run.
  pose proof (span_app p l) as Happ.
  destruct (span p l) as [[|c run] rest0]; [discriminate|].
  intros [= <- <-]. simpl in *. by split.
Qed.

Lemma match_separator_sound : sound match_separator.
Proof.
  intros l sep rest. unfold match_separator.
  destruct (match_run is_space l) as [[sep0 rest0]|] eqn:Hspace.
  - intros [= <- <-]. by apply (match_run_sound is_space).
  - apply (match_run_sound is_punct).
Qed.

Lemma re_split_concat (m : matcher) (fuel : nat) :
  sound m ->
  forall pending l, length l < fuel ->
    concat (re_split_from fuel m pending l) = rev pending ++ l.
Proof.
  intros Hm. induction fuel as [|fuel IH]; intros pending l Hl; [lia|].
  destruct l as [|c l]; cbn [re_split_from].
  - simpl. by rewrite !app_nil_r.
  - destruct (m (c :: l)) as [[sep rest]|] eqn:Hmatch.
    + destruct (Hm _ _ _ Hmatch) as [Hsplit Hne].
      cbn [concat]. rewrite IH.
      * simpl. by rewrite Hsplit.
      * apply (f_equal (@length ascii)) in Hsplit. rewrite length_app in Hsplit.
        destruct sep; [done|]. simpl in *. lia.
    + rewrite IH by (simpl in Hl; lia). simpl. by rewrite <- app_assoc.
Qed.

Lemma re_split_from_nonempty (m : matcher) (fuel : nat) :
  forall pending l, re_split_from fuel m pending l <> [].
Proof.
  induction fuel as [|fuel IH]; intros pending l; [done|].
  destruct l as [|c l]; cbn [re_split_from]; [done|].
  destruct (m (c :: l)) as [[sep rest]|]; [done|apply IH].
Qed.

Lemma sound_shorter (m : matcher) (l sep rest : list ascii) :
  sound m -> m l = Some (sep, rest) -> length rest < length l.
Proof.
  intros Hm Hmatch. destruct (Hm _ _ _ Hmatch) as [-> Hne].
  rewrite length_app. destruct sep; [done|simpl; lia].
Qed.

Lemma match_space_newline_sound : sound match_space_newline.
Proof.
  intros l sep rest. unfold match_space_newline.
  generalize (length (fst (span is_space l))) as taken.
  induction taken as [|taken IH]; cbn [give_back]; [discriminate|].
  destruct (nth_error l (S taken)) as [c|] eqn:Hc; [|done].
  destruct (is_newline c); [|done].
  intros H. inversion H; subst. split; [by rewrite firstn_skipn|].
  destruct l; [discriminate|discriminate].
Qed.

(** The bound on the number of steps is never reached: any two bounds
    above the length of the subject give the same result. *)
Lemma re_split_from_bound (m : matcher) :
  sound m ->
  forall bound bound' pending l,
    length l < bound -> length l < bound' ->
    re_split_from bound m pending l = re_split_from bound' m pending l.
Proof.
  intros Hm. induction bound as [|bound IH]; intros bound' pending l H H'; [lia|].
  destruct bound' as [|bound']; [lia|].
  destruct l as [|c l]; [done|]. cbn [re_split_from].
  destruct (m (c :: l)) as [[sep rest]|] eqn:Hmatch.
  - pose proof (sound_shorter _ _ _ _ Hm Hmatch) as Hlen.
    do 2 f_equal. apply IH; simpl in *; lia.
  - apply IH; simpl in *; lia.
Qed.

Lemma re_sub_from_bound (m : matcher) (repl : list ascii) :
  sound m ->
  forall bound bound' l,
    length l < bound -> length l < bound' ->
    re_sub_from bound m repl l = re_sub_from bound' m repl l.
Proof.
  intros Hm. induction bound as [|bound IH]; intros bound' l H H'; [lia|].
  destruct bound' as [|bound']; [lia|].
  destruct l as [|c l]; [done|]. cbn [re_sub_from].
  destruct (m (c :: l)) as [[sep rest]|] eqn:Hmatch.
  - pose proof (sound_shorter _ _ _ _ Hm Hmatch) as Hlen.
    f_equal. apply IH; simpl in *; lia.
  - f_equal. apply IH; simpl in *; lia.
Qed.

Lemma join_re_split (s : string) : join (re_split match_separator s) = s.
Proof.
  unfold re_split. rewrite join_map_text, re_split_concat.
  - simpl. apply text_chars.
  - apply match_separator_sound.
  - lia.
Qed.

Lemma re_split_length (s : string) : 0 < length (re_split match_separator s).
Proof.
  unfold re_split. rewrite length_map.
  pose proof (re_split_from_nonempty match_separator
                (S (length (chars s))) [] (chars s)) as H.
  destruct (re_split_from _ _ _ _); [done|simpl; lia].
Qed.

Lemma get_contol_loop_skip (standard : list (string * value)) (control_id : string)
    (parts : list string) (skipped earlier : list nat) :
  (forall j, In j skipped -> assoc (join (firstn (j + 1) parts)) standard = None) ->
  Routes.get_contol_loop standard control_id parts (skipped ++ earlier)
  = Routes.get_contol_loop standard control_id parts earlier.
Proof.
  induction skipped as [|j skipped IH]; intros Hnone; simpl; [done|].
  rewrite (Hnone j) by (by left). apply IH. intros j' Hj'. apply Hnone. by right.
Qed.

Lemma rev_seq_split (n i : nat) :
  i < n -> rev (seq 0 n) = rev (seq (S i) (n - S i)) ++ i :: rev (seq 0 i).
Proof.
  intros Hi. replace n with (i + S (n - S i)) at 1 by lia.
  rewrite seq_app, rev_app_distr. simpl. by rewrite <- app_assoc.
Qed.

(** The result of [get_contol] when [i] is the last index whose prefix is
    a key of the standard. *)
Lemma get_contol_at (standard : list (string * value)) (control_id : string)
    (i : nat) (entry : value) :
  let parts := re_split match_separator control_id in
  i < length parts ->
  assoc (join (firstn (i + 1) parts)) standard = Some entry ->
  (forall j, i < j < length parts ->
     assoc (join (firstn (j + 1) parts)) standard = None) ->
  Routes.get_contol standard control_id
  = Routes.get_contol_loop standard control_id parts (i :: rev (seq 0 i)).
Proof.
  intros parts Hi Hentry Hlonger. unfold Routes.get_contol. fold parts.
  rewrite (rev_seq_split _ i Hi). apply get_contol_loop_skip.
  intros j Hj. apply in_rev, in_seq in Hj. apply Hlonger. lia.
Qed.

Lemma resolver_doubles_suffix_counterexample :
  Routes.get_contol demo_catalog "AC-2 (H)"
  = Ok {| Resolved.id := "AC-2 (H) (H)";
          Resolved.name := "Account Management  (H)";
          Resolved.description := VStr "See AC-2,  (H)." |}
  /\ "AC-2 (H) (H)" <> "AC-2 (H)"
  /\ "Account Management  (H)" <> "Account Management (H)".
Proof. split; [vm_compute; reflexivity|split; discriminate]. Qed.

(** C2, as the code has it.  When the longest prefix of tokens that is a
    key of the catalog leaves a non-empty suffix, the name is the entry's
    name, one space, and the suffix as it stands, and the description is
    "See prefix, suffix."; prefix and suffix together are the input.  When
    the whole input is a key, the record has the input as id and the
    entry's own name and description.  When no prefix is a key, the record
    is id = input, name = "[input]", description = None. *)
Theorem resolver_backs_off_to_catalog_key :
  (forall standard control_id i entry name,
      let parts := re_split match_separator control_id in
      let prefix := join (firstn (i + 1) parts) in
      let suffix := join (skipn (i + 1) parts) in
      i < length parts ->
      assoc prefix standard = Some entry ->
      (forall j, i < j < length parts ->
         assoc (join (firstn (j + 1) parts)) standard = None) ->
      py_getitem entry "name" = Ok (VStr name) ->
      suffix <> "" ->
      prefix +:+ suffix = control_id
      /\ exists r, Routes.get_contol standard control_id = Ok r
          /\ Resolved.name r = name +:+ " " +:+ suffix
          /\ Resolved.description r
             = VStr ("See " +:+ prefix +:+ ", " +:+ suffix +:+ "."))
  /\ (forall standard control_id entry name description,
        assoc control_id standard = Some entry ->
        py_getitem entry "name" = Ok (VStr name) ->
        py_getitem entry "description" = Ok description ->
        Routes.get_contol standard control_id
        = Ok {| Resolved.id := control_id;
                Resolved.name := name;
                Resolved.description := description |})
  /\ (forall standard control_id,
        (forall j, j < length (re_split match_separator control_id) ->
           assoc (join (firstn (j + 1) (re_split match_separator control_id)))
                 standard = None) ->
        Routes.get_contol standard control_id
        = Ok {| Resolved.id := control_id;
                Resolved.name := "[" +:+ control_id +:+ "]";
                Resolved.description := VNone |}).
Proof.
  split; [|split].
  - intros standard control_id i entry name parts prefix suffix
      Hi Hentry Hlonger Hname Hsuffix.
    split.
    + unfold prefix, suffix. rewrite <- join_app, firstn_skipn.
      apply join_re_split.
    + rewrite (get_contol_at standard control_id i entry Hi Hentry Hlonger).
      fold parts. cbn [Routes.get_contol_loop]. fold prefix suffix.
      rewrite Hentry, Hname. simpl.
      apply String.eqb_neq in Hsuffix. rewrite Hsuffix.
      eexists. split; [reflexivity|]. by split.
  - intros standard control_id entry name description Hentry Hname Hdescription.
    pose proof (re_split_length control_id) as Hlen.
    pose proof (join_re_split control_id) as Hjoin.
    set (parts := re_split match_separator control_id) in *.
    assert (join (firstn (length parts - 1 + 1) parts) = control_id) as Hfull.
    { rewrite firstn_all2 by lia. done. }
    rewrite (get_contol_at standard control_id (length parts - 1) entry).
    + fold parts. cbn [Routes.get_contol_loop].
      rewrite Hfull, Hentry, Hname. simpl.
      rewrite skipn_all2 by lia. simpl. rewrite Hdescription. simpl.
      by rewrite !app_empty_r.
    + fold parts. lia.
    + fold parts. by rewrite Hfull.
    + fold parts. intros j Hj. lia.
  - intros standard control_id Hnone. unfold Routes.get_contol.
    rewrite <- (app_nil_r (rev _)). rewrite get_contol_loop_skip; [done|].
    intros j Hj. apply in_rev, in_seq in Hj. apply Hnone. lia.
Qed.

Lemma resolver_backs_off_to_catalog_key_witness :
  "AC-2" +:+ " (H)" = "AC-2 (H)"
  /\ exists r, Routes.get_contol demo_catalog "AC-2 (H)" = Ok r
      /\ Resolved.name r = "Account Management" +:+ " " +:+ " (H)"
      /\ Resolved.description r = VStr ("See " +:+ "AC-2" +:+ ", " +:+ " (H)" +:+ ".").
Proof.
  apply (proj1 resolver_backs_off_to_catalog_key demo_catalog "AC-2 (H)" 2
           (VDict [("name", VStr "Account Management");
                   ("description", VStr "Manage accounts.")])
           "Account Management").
  - vm_compute. lia.
  - reflexivity.
  - intros j Hj. change (length (re_split match_separator "AC-2 (H)")) with 9 in Hj.
    assert (j = 3 \/ j = 4 \/ j = 5 \/ j = 6 \/ j = 7 \/ j = 8) as Hcases by lia.
    destruct Hcases as [->|[->|[->|[->|[->| ->]]]]]; reflexivity.
  - reflexivity.
  - discriminate.
Defined.

(** * Further properties

    ** The order of natural sort keys *)

Lemma digits_value_decimal (d : list ascii) :
  all_digits d -> forall acc after_digit, d <> [] \/ after_digit = true ->
    digits_value acc after_digit d
    = Some (fold_left (fun acc c => (acc * 10 + digit_value c)%Z) d acc).
Proof.
  induction 1 as [|c d Hc Hd IH]; intros acc after_digit Hne; simpl.
  - by destruct Hne as [?| ->].
  - rewrite Hc. apply IH. by right.
Qed.

Lemma parse_int_decimal (d : list ascii) :
  d <> [] -> all_digits d -> within_int_limit d = true ->
  parse_int (text d) = Some (decimal d).
Proof.
  intros Hne Hd Hlimit. unfold parse_int.
  rewrite chars_text, strip_int_space_digits by done. cbv zeta.
  rewrite within_int_limit_ltb by done.
  destruct Hd as [|c d Hc Hd]; [done|].
  destruct (digit_not_sign c Hc) as [-> ->].
  apply digits_value_decimal; [by constructor|by left].
Qed.

Lemma match_digits_none (c : ascii) (l : list ascii) :
  is_digit c = false -> match_digits (c :: l) = None.
Proof. intros Hc. unfold match_digits, match_run. simpl. by rewrite Hc. Qed.

Lemma match_digits_run (d u : list ascii) :
  d <> [] -> all_digits d -> head_fails is_digit u ->
  match_digits (d ++ u) = Some (d, u).
Proof.
  intros Hne Hd Hu. unfold match_digits, match_run.
  rewrite span_of_app by done. by destruct d.
Qed.

(** Text without digits, then a number, then anything that does not go on
    with a digit: the split gives the text, the number, and the split of
    what follows. *)
Lemma split_digits_text (t : list ascii) :
  forall fuel pending d u,
    length (t ++ d ++ u) < fuel ->
    digit_free t -> d <> [] -> all_digits d -> head_fails is_digit u ->
    re_split_from fuel match_digits pending (t ++ d ++ u)
    = (rev pending ++ t) :: d :: re_split_from (S (length u)) match_digits [] u.
Proof.
  induction t as [|c t IH]; intros fuel pending d u Hfuel Ht Hne Hd Hu.
  - destruct fuel as [|fuel]; [simpl in Hfuel; lia|].
    simpl app in *. rewrite app_nil_r.
    rewrite (re_split_from_bound match_digits (match_run_sound _)
               (S (length u)) fuel [] u);
      [|lia|rewrite length_app in Hfuel; destruct d; [done|simpl in Hfuel; lia]].
    destruct d as [|c d]; [done|]. cbn [re_split_from app].
    change (c :: d ++ u) with ((c :: d) ++ u).
    by rewrite match_digits_run.
  - destruct fuel as [|fuel]; [simpl in Hfuel; lia|].
    inversion Ht as [|? ? Hc Ht']; subst.
    remember (re_split_from (S (length u)) match_digits [] u) as tail.
    cbn [re_split_from app]. rewrite match_digits_none by done.
    rewrite IH; [|simpl in Hfuel; lia|done..].
    subst tail. simpl. by rewrite <- app_assoc.
Qed.

Lemma intify_digit_free (t : list ascii) :
  digit_free t -> OpenControl.intify (text t) = PStr (text t).
Proof. intros Ht. unfold OpenControl.intify. by rewrite parse_int_digit_free. Qed.

Lemma intify_decimal (d : list ascii) :
  d <> [] -> all_digits d -> within_int_limit d = true ->
  OpenControl.intify (text d) = PInt (decimal d).
Proof.
  intros Hne Hd Hlimit. unfold OpenControl.intify. by rewrite parse_int_decimal.
Qed.

Lemma make_key_number (t d u : list ascii) :
  digit_free t -> d <> [] -> all_digits d -> within_int_limit d = true ->
  head_fails is_digit u ->
  exists rest,
    OpenControl.make_control_number_sort_key (VStr (text u)) = Ok rest
    /\ OpenControl.make_control_number_sort_key (VStr (text (t ++ d ++ u)))
       = Ok (PStr (text t) :: PInt (decimal d) :: rest).
Proof.
  intros Ht Hne Hd Hlimit Hu. eexists. split; [apply make_key_str|].
  rewrite make_key_str. unfold re_split. rewrite !chars_text.
  rewrite split_digits_text by (done || lia). simpl.
  by rewrite intify_digit_free, intify_decimal.
Qed.

(** X1: the text before the first number being the same, and the two
    numbers being written with no more digits than [int] reads (4300), the
    key of the string with the smaller number sorts first, whatever follows
    the numbers; and two spellings of the same number (with or without
    leading zeros) give the same key. *)
Theorem sort_key_orders_numbers_by_value (t d1 d2 u1 u2 : list ascii) :
  digit_free t ->
  d1 <> [] -> all_digits d1 -> within_int_limit d1 = true ->
  head_fails is_digit u1 ->
  d2 <> [] -> all_digits d2 -> within_int_limit d2 = true ->
  head_fails is_digit u2 ->
  exists k1 k2,
    OpenControl.make_control_number_sort_key (VStr (text (t ++ d1 ++ u1))) = Ok k1
    /\ OpenControl.make_control_number_sort_key (VStr (text (t ++ d2 ++ u2))) = Ok k2
    /\ ((decimal d1 < decimal d2)%Z ->
        tuple_lt k1 k2 = Ok true /\ tuple_lt k2 k1 = Ok false)
    /\ (decimal d1 = decimal d2 -> u1 = u2 -> k1 = k2).
Proof.
  intros Ht Hne1 Hd1 Hlimit1 Hu1 Hne2 Hd2 Hlimit2 Hu2.
  destruct (make_key_number t d1 u1) as (r1 & Hr1 & Hk1); try done.
  destruct (make_key_number t d2 u2) as (r2 & Hr2 & Hk2); try done.
  eexists _, _. split; [exact Hk1|]. split; [exact Hk2|]. split.
  - intros Hlt. simpl. rewrite String.eqb_refl.
    assert ((decimal d1 =? decimal d2)%Z = false) as -> by lia.
    assert ((decimal d2 =? decimal d1)%Z = false) as -> by lia.
    simpl. split; f_equal; lia.
  - intros Heq <-. rewrite Heq. congruence.
Qed.

Lemma sort_key_orders_numbers_by_value_witness :
  exists k1 k2,
    OpenControl.make_control_number_sort_key (VStr "AC-9 (1)") = Ok k1
    /\ OpenControl.make_control_number_sort_key (VStr "AC-0010") = Ok k2
    /\ tuple_lt k1 k2 = Ok true /\ tuple_lt k2 k1 = Ok false.
Proof.
  destruct (sort_key_orders_numbers_by_value
              (chars "AC-") (chars "9") (chars "0010") (chars " (1)") [])
    as (k1 & k2 & H1 & H2 & Hlt & _).
  - repeat constructor.
  - discriminate.
  - repeat constructor.
  - reflexivity.
  - reflexivity.
  - discriminate.
  - repeat constructor.
  - reflexivity.
  - exact I.
  - exists k1, k2. split; [exact H1|]. split; [exact H2|].
    apply Hlt. reflexivity.
Defined.

Lemma make_key_long_number (t d u : list ascii) :
  digit_free t -> d <> [] -> all_digits d -> within_int_limit d = false ->
  head_fails is_digit u ->
  exists rest,
    OpenControl.make_control_number_sort_key (VStr (text u)) = Ok rest
    /\ OpenControl.make_control_number_sort_key (VStr (text (t ++ d ++ u)))
       = Ok (PStr (text t) :: PStr (text d) :: rest).
Proof.
  intros Ht Hne Hd Hlimit Hu. eexists. split; [apply make_key_str|].
  rewrite make_key_str. unfold re_split. rewrite !chars_text.
  rewrite split_digits_text by (done || lia). simpl.
  by rewrite intify_digit_free, intify_long_numeral.
Qed.

(** X29: a run of more digits than [int] reads (more than 4300) stays a
    string in the key, at the odd position where a number is expected; the
    key of a string that has a shorter number at the same place, after the
    same text, cannot be compared with it: the comparison raises
    [TypeError], whichever key comes first. *)
Theorem long_number_breaks_comparison (t d1 d2 u1 u2 : list ascii) :
  digit_free t ->
  d1 <> [] -> all_digits d1 -> within_int_limit d1 = true ->
  head_fails is_digit u1 ->
  all_digits d2 -> within_int_limit d2 = false ->
  head_fails is_digit u2 ->
  exists k1 k2 rest,
    OpenControl.make_control_number_sort_key (VStr (text (t ++ d1 ++ u1))) = Ok k1
    /\ OpenControl.make_control_number_sort_key (VStr (text (t ++ d2 ++ u2))) = Ok k2
    /\ k2 = PStr (text t) :: PStr (text d2) :: rest
    /\ tuple_lt k1 k2 = Raise TypeError
    /\ tuple_lt k2 k1 = Raise TypeError.
Proof.
  intros Ht Hne1 Hd1 Hlimit1 Hu1 Hd2 Hlimit2 Hu2.
  assert (d2 <> []) as Hne2 by (by intros ->).
  destruct (make_key_number t d1 u1) as (r1 & Hr1 & Hk1); try done.
  destruct (make_key_long_number t d2 u2) as (r2 & Hr2 & Hk2); try done.
  eexists _, _, r2. split; [exact Hk1|]. split; [exact Hk2|]. split; [done|].
  simpl. by rewrite String.eqb_refl.
Qed.

Lemma long_number_breaks_comparison_witness :
  exists k1 k2 rest,
    OpenControl.make_control_number_sort_key (VStr "AC-1") = Ok k1
    /\ OpenControl.make_control_number_sort_key (VStr (text (chars "AC-" ++ chars long_numeral ++ []))) = Ok k2
    /\ k2 = PStr "AC-" :: PStr long_numeral :: rest
    /\ tuple_lt k1 k2 = Raise TypeError
    /\ tuple_lt k2 k1 = Raise TypeError.
Proof.
  destruct (long_number_breaks_comparison
              (chars "AC-") (chars "1") (chars long_numeral) [] [])
    as (k1 & k2 & rest & H1 & H2 & Hk2 & Hlt & Hgt).
  - repeat constructor.
  - discriminate.
  - repeat constructor.
  - reflexivity.
  - exact I.
  - unfold long_numeral. rewrite chars_text. apply List.Forall_forall.
    intros c Hc. apply repeat_spec in Hc. by subst.
  - vm_compute. reflexivity.
  - exact I.
  - exists k1, k2, rest. rewrite text_chars in Hk2. by repeat split.
Defined.

Lemma string_ltb_lt (s t : string) :
  String.ltb s t = true <-> OrderedTypeEx.String_as_OT.lt s t.
Proof.
  rewrite <- OrderedTypeEx.String_as_OT.cmp_lt.
  unfold String.ltb, OrderedTypeEx.String_as_OT.cmp.
  destruct (String.compare s t); split; congruence.
Qed.

Lemma string_ltb_asym (s t : string) : String.ltb s t = true -> String.ltb t s = false.
Proof.
  unfold String.ltb. rewrite (String.compare_antisym t s).
  by destruct (String.compare s t).
Qed.

Lemma string_ltb_total (s t : string) :
  s <> t -> String.ltb s t = true \/ String.ltb t s = true.
Proof.
  intros Hne. unfold String.ltb. rewrite (String.compare_antisym t s).
  destruct (String.compare s t) eqn:Hc; simpl; auto.
  apply String.compare_eq_iff in Hc. congruence.
Qed.

Lemma string_ltb_trans (s t u : string) :
  String.ltb s t = true -> String.ltb t u = true -> String.ltb s u = true.
Proof.
  rewrite !string_ltb_lt. apply OrderedTypeEx.String_as_OT.lt_trans.
Qed.

Lemma part_eqb_eq (x y : part) : part_eqb x y = true <-> x = y.
Proof.
  destruct x, y; simpl; try (split; [discriminate|congruence]).
  - rewrite Z.eqb_eq. split; congruence.
  - rewrite String.eqb_eq. split; congruence.
Qed.

Lemma part_eqb_sym (x y : part) : part_eqb x y = part_eqb y x.
Proof.
  destruct x, y; simpl; try done; [apply Z.eqb_sym|apply String.eqb_sym].
Qed.

Lemma tuple_lt_irrefl (k : list part) : tuple_lt k k = Ok false.
Proof. induction k as [|x k IH]; simpl; [done|]. by rewrite part_eqb_refl. Qed.

Lemma tuple_lt_asym (a : list part) :
  forall b, tuple_lt a b = Ok true -> tuple_lt b a = Ok false.
Proof.
  induction a as [|x a IH]; intros [|y b]; simpl; try done.
  rewrite (part_eqb_sym y x). destruct (part_eqb x y) eqn:Hxy; [apply IH|].
  destruct x, y; simpl; try done; intros [= H]; f_equal.
  - lia.
  - by apply string_ltb_asym.
Qed.

Lemma tuple_lt_total (a : list part) :
  forall odd b, kinded odd a -> kinded odd b -> a <> b ->
    tuple_lt a b = Ok true \/ tuple_lt b a = Ok true.
Proof.
  induction a as [|x a IH]; intros odd [|y b] Ha Hb Hne; simpl; auto; [done|].
  destruct Ha as [Hx Ha], Hb as [Hy Hb].
  rewrite (part_eqb_sym y x). destruct (part_eqb x y) eqn:Hxy.
  - apply part_eqb_eq in Hxy. subst y.
    apply (IH (negb odd)); [done..|congruence].
  - destruct x as [n|s], y as [m|t]; simpl in *; try congruence.
    + apply Z.eqb_neq in Hxy.
      destruct (Z.lt_total n m) as [H|[H|H]]; [left|done|right]; f_equal; lia.
    + apply String.eqb_neq in Hxy.
      destruct (string_ltb_total s t Hxy) as [-> | ->]; auto.
Qed.

Lemma tuple_lt_trans (a : list part) :
  forall b c, tuple_lt a b = Ok true -> tuple_lt b c = Ok true ->
    tuple_lt a c = Ok true.
Proof.
  induction a as [|x a IH]; intros [|y b] [|z c]; simpl; try done.
  destruct (part_eqb x y) eqn:Hxy.
  { apply part_eqb_eq in Hxy. subst y.
    destruct (part_eqb x z); [apply IH|done]. }
  destruct (part_eqb y z) eqn:Hyz.
  { apply part_eqb_eq in Hyz. subst z. rewrite Hxy. done. }
  destruct x as [n|s], y as [m|t], z as [p|u]; simpl in *; try done.
  - intros [= H1] [= H2].
    assert ((n =? p)%Z = false) as -> by lia. f_equal. lia.
  - intros [= H1] [= H2].
    pose proof (string_ltb_trans _ _ _ H1 H2) as H3.
    destruct (String.eqb s u) eqn:Hsu; [|by rewrite H3].
    apply String.eqb_eq in Hsu. subst u.
    apply string_ltb_asym in H1. congruence.
Qed.

(** X2: on the keys the builder returns for strings whose runs of digits
    [int] reads (no run has more than 4300 digits), tuple comparison is a
    strict total order: no key sorts before itself, of two different keys
    exactly one sorts before the other, and the order is transitive; so
    sorting by these keys has one result up to the order of records with
    equal keys. *)
Theorem sort_keys_strict_total_order (a b c : option string) :
  numerals_within_limit a = true ->
  numerals_within_limit b = true ->
  numerals_within_limit c = true ->
  exists ka kb kc,
    OpenControl.make_control_number_sort_key (key_argument a) = Ok ka
    /\ OpenControl.make_control_number_sort_key (key_argument b) = Ok kb
    /\ OpenControl.make_control_number_sort_key (key_argument c) = Ok kc
    /\ tuple_lt ka ka = Ok false
    /\ (tuple_lt ka kb = Ok true -> tuple_lt kb ka = Ok false)
    /\ (ka <> kb -> tuple_lt ka kb = Ok true \/ tuple_lt kb ka = Ok true)
    /\ (tuple_lt ka kb = Ok true -> tuple_lt kb kc = Ok true ->
        tuple_lt ka kc = Ok true).
Proof.
  intros Hlimit_a Hlimit_b Hlimit_c.
  destruct (key_argument_kinded a Hlimit_a) as (ka & Ha & Hka),
    (key_argument_kinded b Hlimit_b) as (kb & Hb & Hkb),
    (key_argument_kinded c Hlimit_c) as (kc & Hc & Hkc).
  exists ka, kb, kc. split; [done|]. split; [done|]. split; [done|].
  split; [apply tuple_lt_irrefl|]. split; [apply tuple_lt_asym|].
  split; [by apply (tuple_lt_total ka false kb)|apply tuple_lt_trans].
Qed.

Lemma sort_keys_strict_total_order_witness :
  exists ka kb kc,
    OpenControl.make_control_number_sort_key (VStr "AC-2") = Ok ka
    /\ OpenControl.make_control_number_sort_key (VStr "AC-10") = Ok kb
    /\ OpenControl.make_control_number_sort_key VNone = Ok kc
    /\ tuple_lt ka ka = Ok false
    /\ (tuple_lt ka kb = Ok true -> tuple_lt kb ka = Ok false)
    /\ (ka <> kb -> tuple_lt ka kb = Ok true \/ tuple_lt kb ka = Ok true)
    /\ (tuple_lt ka kb = Ok true -> tuple_lt kb kc = Ok true ->
        tuple_lt ka kc = Ok true).
Proof.
  apply (sort_keys_strict_total_order (Some "AC-2") (Some "AC-10") None);
    vm_compute; reflexivity.
Defined.

(** ** Generators *)

Lemma gen_for_app {A B} (body : A -> gen B) (done_ later : list A) (ys : list B) :
  gen_for body done_ = (ys, None) ->
  gen_for body (done_ ++ later)
  = (ys ++ fst (gen_for body later), snd (gen_for body later)).
Proof.
  revert ys. induction done_ as [|x done_ IH]; simpl; intros ys H.
  - inversion H; subst. by destruct (gen_for body later).
  - destruct (body x) as [zs [e|]]; [done|].
    destruct (gen_for body done_) as [ws e] eqn:Hdone.
    inversion H; subst. rewrite (IH ws eq_refl). simpl.
    by rewrite app_assoc.
Qed.

Lemma gen_for_yield_all {A B} (f : A -> res B) (items : list A) (ys : list B) :
  Forall2 (fun x y => f x = Ok y) items ys ->
  gen_for (fun x => gen_yield (f x)) items = (ys, None).
Proof.
  induction 1 as [|x y items ys Hx Hrest IH]; simpl; [done|].
  by rewrite Hx, IH.
Qed.

Lemma gen_for_yield_until {A B} (f : A -> res B) (good : list A) (ys : list B)
    (bad : A) (later : list A) (e : exn) :
  Forall2 (fun x y => f x = Ok y) good ys -> f bad = Raise e ->
  gen_for (fun x => gen_yield (f x)) (good ++ bad :: later) = (ys, Some e).
Proof.
  intros Hgood Hbad. rewrite (gen_for_app _ _ _ ys) by by apply gen_for_yield_all.
  simpl. rewrite Hbad. simpl. by rewrite app_nil_r.
Qed.

(** ** Loading components *)

Lemma load_project_components_list (fs : gmap string value) (project : Project.t)
    (manifest : list (string * value)) (paths : list value) :
  fs !! path_join (Project.path project) ["opencontrol.yaml"] = Some (VDict manifest) ->
  assoc "schema_version" manifest = Some (VStr "1.0.0") ->
  default (VList []) (assoc "components" manifest) = VList paths ->
  OpenControl.load_project_components fs project
  = gen_for (fun component_path =>
               gen_yield (OpenControl.load_component fs project component_path))
            paths.
Proof.
  intros Hfile Hversion Hcomponents.
  unfold OpenControl.load_project_components, read_yaml.
  rewrite Hfile. simpl. rewrite Hversion. simpl.
  replace (match assoc "components" manifest with Some v => v | None => VList [] end)
    with (default (VList []) (assoc "components" manifest))
    by by destruct (assoc "components" manifest).
  by rewrite Hcomponents.
Qed.

(** X3: the components come in the order the system manifest declares
    them.  When every declared component loads, the generator ends
    normally; when one does not, the components declared before it have
    already been yielded and the iteration ends with that component's
    exception, nothing declared after it being read. *)
Theorem components_yielded_until_failure (fs : gmap string value)
    (project : Project.t) (manifest : list (string * value))
    (good later : list value) (cs : list Component.t) :
  fs !! path_join (Project.path project) ["opencontrol.yaml"] = Some (VDict manifest) ->
  assoc "schema_version" manifest = Some (VStr "1.0.0") ->
  assoc "components" manifest = Some (VList (good ++ later)) ->
  Forall2 (fun p c => OpenControl.load_component fs project p = Ok c) good cs ->
  (later = [] -> OpenControl.load_project_components fs project = (cs, None))
  /\ (forall bad rest e,
        later = bad :: rest ->
        OpenControl.load_component fs project bad = Raise e ->
        OpenControl.load_project_components fs project = (cs, Some e)).
Proof.
  intros Hfile Hversion Hcomponents Hgood.
  rewrite (load_project_components_list _ _ _ (good ++ later) Hfile Hversion)
    by by rewrite Hcomponents.
  split.
  - intros ->. rewrite app_nil_r. by apply gen_for_yield_all.
  - intros bad rest e -> Hbad. by apply gen_for_yield_until.
Qed.

Lemma components_yielded_until_failure_witness :
  OpenControl.load_project_components demo_fs_dangling demo_project
  = ([demo_component],
     Some (FileNotFoundError "my project/components/gone/component.yaml")).
Proof.
  apply (proj2 (components_yielded_until_failure demo_fs_dangling demo_project
                  [("schema_version", VStr "1.0.0");
                   ("components", VList [VStr "components/web app";
                                         VStr "components/gone"])]
                  [VStr "components/web app"] [VStr "components/gone"]
                  [demo_component] eq_refl eq_refl eq_refl
                  ltac:(repeat constructor))
           (VStr "components/gone") [] _ eq_refl).
  reflexivity.
Defined.

Lemma find_elem {A} (p : A -> bool) (l later : list A) (x : A) :
  x ∈ l -> p x = true ->
  exists y, List.find p (l ++ later) = Some y /\ y ∈ l /\ p y = true.
Proof.
  induction 1 as [x l|x z l Hx IH]; simpl; intros Hp.
  - rewrite Hp. exists x. split; [done|]. split; [left|done].
  - destruct (p z) eqn:Hz.
    + exists z. split; [done|]. split; [left|done].
    + destruct (IH Hp) as (y & Hfind & Hy & Hpy).
      exists y. split; [done|]. split; [by right|done].
Qed.

Lemma find_Some_elem {A} (p : A -> bool) (l : list A) (y : A) :
  List.find p l = Some y -> y ∈ l /\ p y = true.
Proof.
  induction l as [|x l IH]; simpl; [done|].
  destruct (p x) eqn:Hx.
  - intros [= ->]. split; [left|done].
  - intros [Hy Hp]%IH. split; [by right|done].
Qed.

Lemma find_none {A} (p : A -> bool) (l : list A) :
  Forall (fun x => p x = false) l -> List.find p l = None.
Proof. induction 1 as [|x l Hx Hl IH]; simpl; [done|]. by rewrite Hx. Qed.

(** X4: [load_project_component] returns a component the generator yields,
    with the requested id and the given project; and it stops at the first
    one it finds: a component declared before a broken one is returned
    although iterating over all components would raise. *)
Theorem component_lookup_stops_at_match (fs : gmap string value)
    (project : Project.t) :
  (forall component_id c,
      OpenControl.load_project_component fs project component_id = Ok c ->
      Component.id c = component_id
      /\ Component.project c = project
      /\ c ∈ fst (OpenControl.load_project_components fs project))
  /\ (forall manifest good later cs c,
        fs !! path_join (Project.path project) ["opencontrol.yaml"]
          = Some (VDict manifest) ->
        assoc "schema_version" manifest = Some (VStr "1.0.0") ->
        assoc "components" manifest = Some (VList (good ++ later)) ->
        Forall2 (fun p c => OpenControl.load_component fs project p = Ok c)
                good cs ->
        c ∈ cs ->
        exists c', OpenControl.load_project_component fs project (Component.id c)
                   = Ok c'
                   /\ c' ∈ cs /\ Component.id c' = Component.id c).
Proof.
  split.
  - intros component_id c. unfold OpenControl.load_project_component.
    destruct (OpenControl.load_project_components fs project) as [cs raised] eqn:Hgen.
    destruct (List.find _ cs) as [c'|] eqn:Hfind; [|by destruct raised].
    intros [= ->]. apply find_Some_elem in Hfind as [Hc Hid].
    apply String.eqb_eq in Hid. split; [done|]. split; [|done].
    assert (c ∈ fst (OpenControl.load_project_components fs project)) as Hin
      by by rewrite Hgen.
    apply load_project_components_elem in Hin as (p & Hp).
    unfold OpenControl.load_component in Hp. unbind Hp.
    destruct (negb _); [done|]. unbind Hp. by inversion Hp.
  - intros manifest good later cs c Hfile Hversion Hcomponents Hgood Hc.
    unfold OpenControl.load_project_component.
    rewrite (load_project_components_list _ _ _ (good ++ later) Hfile Hversion)
      by by rewrite Hcomponents.
    rewrite (gen_for_app _ _ _ cs) by by apply gen_for_yield_all.
    destruct (find_elem (fun component =>
                String.eqb (Component.id component) (Component.id c))
                cs (fst (gen_for (fun component_path =>
                   gen_yield (OpenControl.load_component fs project component_path))
                   later)) c Hc (String.eqb_refl _)) as (c' & Hfind & Hc' & Hid).
    rewrite Hfind. exists c'. split; [done|]. split; [done|].
    by apply String.eqb_eq.
Qed.

Lemma component_lookup_stops_at_match_witness :
  exists c',
    OpenControl.load_project_component demo_fs_dangling demo_project
      (Component.id demo_component) = Ok c'
    /\ c' ∈ [demo_component] /\ Component.id c' = Component.id demo_component.
Proof.
  apply (proj2 (component_lookup_stops_at_match demo_fs_dangling demo_project)
           [("schema_version", VStr "1.0.0");
            ("components", VList [VStr "components/web app";
                                  VStr "components/gone"])]
           [VStr "components/web app"] [VStr "components/gone"]
           [demo_component] demo_component eq_refl eq_refl eq_refl).
  - repeat constructor.
  - left.
Defined.

(** X5: when no component yielded has the requested id,
    [load_project_component] raises the ValueError that names the id and
    the project if every declared component loaded (in particular when the
    manifest declares none); but if a declared component failed to load, it
    is that component's exception that reaches the caller. *)
Theorem component_lookup_absent (fs : gmap string value)
    (project : Project.t) (manifest : list (string * value))
    (good later : list value) (cs : list Component.t) (component_id : string) :
  fs !! path_join (Project.path project) ["opencontrol.yaml"] = Some (VDict manifest) ->
  assoc "schema_version" manifest = Some (VStr "1.0.0") ->
  default (VList []) (assoc "components" manifest) = VList (good ++ later) ->
  Forall2 (fun p c => OpenControl.load_component fs project p = Ok c) good cs ->
  Forall (fun c => Component.id c <> component_id) cs ->
  (later = [] ->
   OpenControl.load_project_component fs project component_id
   = Raise (ValueError "Component {} does not exist in project {}."
                       [VStr component_id; VStr (Project.id project)]))
  /\ (forall bad rest e,
        later = bad :: rest ->
        OpenControl.load_component fs project bad = Raise e ->
        OpenControl.load_project_component fs project component_id = Raise e).
Proof.
  intros Hfile Hversion Hcomponents Hgood Hmiss.
  unfold OpenControl.load_project_component.
  rewrite (load_project_components_list _ _ _ _ Hfile Hversion Hcomponents).
  assert (List.find (fun component =>
            String.eqb (Component.id component) component_id) cs = None) as Hfind.
  { apply find_none. eapply Forall_impl; [exact Hmiss|].
    intros c Hc. by apply String.eqb_neq. }
  split.
  - intros ->. rewrite app_nil_r, (gen_for_yield_all _ _ cs) by done.
    by rewrite Hfind.
  - intros bad rest e -> Hbad.
    rewrite (gen_for_yield_until _ _ cs _ _ e) by done. by rewrite Hfind.
Qed.

Lemma component_lookup_absent_witness :
  OpenControl.load_project_component demo_fs demo_project "db-000000"
  = Raise (ValueError "Component {} does not exist in project {}."
                      [VStr "db-000000"; VStr (Project.id demo_project)])
  /\ OpenControl.load_project_component demo_fs_dangling demo_project "db-000000"
     = Raise (FileNotFoundError "my project/components/gone/component.yaml").
Proof.
  split.
  - apply (proj1 (component_lookup_absent demo_fs demo_project
                    [("schema_version", VStr "1.0.0");
                     ("components", VList [VStr "components/web app"])]
                    [VStr "components/web app"] [] [demo_component] "db-000000"
                    eq_refl eq_refl eq_refl
                    ltac:(repeat constructor)
                    ltac:(repeat constructor; discriminate))).
    reflexivity.
  - apply (proj2 (component_lookup_absent demo_fs_dangling demo_project
                    [("schema_version", VStr "1.0.0");
                     ("components", VList [VStr "components/web app";
                                           VStr "components/gone"])]
                    [VStr "components/web app"] [VStr "components/gone"]
                    [demo_component] "db-000000"
                    eq_refl eq_refl eq_refl
                    ltac:(repeat constructor)
                    ltac:(repeat constructor; discriminate))
             (VStr "components/gone") [] _ eq_refl).
    reflexivity.
Defined.

(** ** Loading a project *)

(** X6: a system manifest that gives no name (or an empty one) and no
    metadata still loads: the title is the base name of the project
    directory without its extension, the organization is "No Organization"
    under both its name and its abbreviation, and there is no description.
    An organization given with a name only is abbreviated by that name. *)
Theorem project_defaults (fs : gmap string value) (project_dir : string)
    (manifest : list (string * value)) :
  fs !! path_join project_dir ["opencontrol.yaml"] = Some (VDict manifest) ->
  assoc "schema_version" manifest = Some (VStr "1.0.0") ->
  truthy (default VNone (assoc "name" manifest)) = false ->
  (assoc "metadata" manifest = None ->
   exists p, OpenControl.load_project_from_path fs project_dir = Ok p
     /\ Project.title p = splitext_root (basename (normpath project_dir))
     /\ Project.path p = project_dir
     /\ Project.description p = VNone
     /\ Organization.name (Project.organization p) = "No Organization"
     /\ Organization.abbreviation (Project.organization p) = "No Organization")
  /\ (forall metadata organization name,
        assoc "metadata" manifest = Some (VDict metadata) ->
        assoc "organization" metadata = Some (VDict organization) ->
        assoc "name" organization = Some (VStr name) ->
        assoc "abbreviation" organization = None ->
        exists p, OpenControl.load_project_from_path fs project_dir = Ok p
          /\ Project.title p = splitext_root (basename (normpath project_dir))
          /\ Project.description p = default VNone (assoc "description" metadata)
          /\ Organization.name (Project.organization p) = name
          /\ Organization.abbreviation (Project.organization p) = name).
Proof.
  intros Hfile Hversion Hname.
  unfold OpenControl.load_project_from_path, read_yaml, py_or.
  rewrite Hfile. simpl. rewrite Hversion. simpl.
  replace (match assoc "name" manifest with Some v => v | None => VNone end)
    with (default VNone (assoc "name" manifest))
    by by destruct (assoc "name" manifest).
  rewrite Hname. split.
  - intros ->. simpl. eexists. split; [reflexivity|]. by repeat split.
  - intros metadata organization name -> Horg Hn Habbrev. simpl.
    rewrite Horg. simpl. rewrite Hn, Habbrev. simpl.
    eexists. split; [reflexivity|]. simpl.
    split; [done|]. split; [by destruct (assoc "description" metadata)|done].
Qed.

Lemma project_defaults_witness :
  exists p, OpenControl.load_project_from_path demo_fs "my project" = Ok p
    /\ Project.title p = splitext_root (basename (normpath "my project"))
    /\ Project.path p = "my project"
    /\ Project.description p = VNone
    /\ Organization.name (Project.organization p) = "No Organization"
    /\ Organization.abbreviation (Project.organization p) = "No Organization".
Proof.
  apply (proj1 (project_defaults demo_fs "my project"
                  [("schema_version", VStr "1.0.0");
                   ("components", VList [VStr "components/web app"])]
                  eq_refl eq_refl eq_refl)).
  reflexivity.
Defined.

Lemma load_project_manifest (fs : gmap string value) (project_dir : string)
    (p : Project.t) :
  OpenControl.load_project_from_path fs project_dir = Ok p ->
  Project.path p = project_dir
  /\ exists manifest,
       fs !! path_join project_dir ["opencontrol.yaml"] = Some (VDict manifest)
       /\ assoc "schema_version" manifest = Some (VStr "1.0.0").
Proof.
  unfold OpenControl.load_project_from_path, read_yaml. intros H.
  destruct (fs !! path_join project_dir ["opencontrol.yaml"]) as [doc|] eqn:Hfile;
    simpl in H; [|done].
  destruct doc as [| | | |manifest]; simpl in H; try done.
  destruct (negb _) eqn:Hversion; [done|].
  unbind H. inversion H; subst; clear H. simpl. split; [done|].
  exists manifest. split; [done|].
  apply negb_false_iff, value_eqb_eq in Hversion.
  by destruct (assoc "schema_version" manifest); simpl in Hversion; subst.
Qed.

(** X7: the record [load_project_from_path] returns leads the other
    loaders back to the manifest it was read from.  If that manifest has
    no [components] key, the project has no components and the generator
    ends normally; if it has no [standards] key, iterating over the
    project's standards raises KeyError, an empty list of standards being
    needed for a project without standards. *)
Theorem loaded_project_without_lists (fs : gmap string value)
    (project_dir : string) (p : Project.t) :
  OpenControl.load_project_from_path fs project_dir = Ok p ->
  exists manifest,
    fs !! path_join project_dir ["opencontrol.yaml"] = Some (VDict manifest)
    /\ (assoc "components" manifest = None ->
        OpenControl.load_project_components fs p = ([], None))
    /\ (assoc "standards" manifest = None ->
        OpenControl.load_project_standards fs p
        = ([], Some (KeyError "standards")))
    /\ (assoc "standards" manifest = Some (VList []) ->
        OpenControl.load_project_standards fs p = ([], None)).
Proof.
  intros (Hpath & manifest & Hfile & Hversion)%load_project_manifest.
  exists manifest. split; [done|].
  unfold OpenControl.load_project_components, OpenControl.load_project_standards,
    read_yaml.
  rewrite Hpath, Hfile. simpl. rewrite Hversion. simpl.
  repeat split; by intros ->.
Qed.

Lemma loaded_project_without_lists_witness :
  OpenControl.load_project_components bare_fs bare_project = ([], None)
  /\ OpenControl.load_project_standards bare_fs bare_project
     = ([], Some (KeyError "standards")).
Proof.
  destruct (loaded_project_without_lists bare_fs "sys" bare_project)
    as (manifest & Hfile & Hcomponents & Hstandards & _).
  - vm_compute. reflexivity.
  - assert (manifest = [("schema_version", VStr "1.0.0")]) as ->.
    { vm_compute in Hfile. congruence. }
    split; [apply Hcomponents|apply Hstandards]; reflexivity.
Defined.

(** ** Loading standards *)

Lemma assoc_elem (key : string) (d : list (string * value)) (v : value) :
  assoc key d = Some v -> (key, v) ∈ d.
Proof.
  induction d as [|[k x] d IH]; simpl; [done|].
  destruct (String.eqb k key) eqn:Hk.
  - apply String.eqb_eq in Hk. intros [= ->]. subst. left.
  - intros H. right. by apply IH.
Qed.

Lemma elem_assoc (key : string) (d : list (string * value)) (v : value) :
  NoDup (map fst d) -> (key, v) ∈ d -> assoc key d = Some v.
Proof.
  induction d as [|[k x] d IH]; simpl; [by intros _ ?%elem_of_nil|].
  intros [Hk Hd]%NoDup_cons [[= -> ->]|Hin]%elem_of_cons.
  - by rewrite String.eqb_refl.
  - destruct (String.eqb k key) eqn:Hkey; [|by apply IH].
    apply String.eqb_eq in Hkey. subst k. destruct Hk.
    apply list_elem_of_fmap. by exists (key, v).
Qed.

Lemma dict_comprehension_sound {A} (keep : value -> bool)
    (entry : string -> value -> res A) (items : list (string * value)) :
  forall built result k x,
    OpenControl.dict_comprehension keep entry items built = Ok result ->
    result !! k = Some x ->
    built !! k = Some x
    \/ exists v, (k, v) ∈ items /\ keep v = true /\ entry k v = Ok x.
Proof.
  induction items as [|[key v] items IH]; simpl; intros built result k x H Hk.
  - inversion H; subst. by left.
  - destruct (keep v) eqn:Hkeep.
    + unbind H. destruct (IH _ _ _ _ H Hk) as [Hbuilt|(v' & Hin & Hv' & Hx)].
      * destruct (decide (key = k)) as [->|Hne].
        -- rewrite lookup_insert_eq in Hbuilt. inversion Hbuilt; subst.
           right. exists v. split; [left|done].
        -- rewrite lookup_insert_ne in Hbuilt by done. by left.
      * right. exists v'. split; [by right|done].
    + destruct (IH _ _ _ _ H Hk) as [Hbuilt|(v' & Hin & Hv' & Hx)]; [by left|].
      right. exists v'. split; [by right|done].
Qed.

Lemma dict_comprehension_frame {A} (keep : value -> bool)
    (entry : string -> value -> res A) (items : list (string * value)) :
  forall built result k,
    OpenControl.dict_comprehension keep entry items built = Ok result ->
    k ∉ map fst items -> result !! k = built !! k.
Proof.
  induction items as [|[key v] items IH]; simpl; intros built result k H Hk.
  - by inversion H.
  - apply not_elem_of_cons in Hk as [Hne Hk].
    destruct (keep v).
    + unbind H. rewrite (IH _ _ _ H Hk). by rewrite lookup_insert_ne.
    + by apply IH.
Qed.

Lemma dict_comprehension_complete {A} (keep : value -> bool)
    (entry : string -> value -> res A) (items : list (string * value)) :
  forall built result k v,
    NoDup (map fst items) ->
    OpenControl.dict_comprehension keep entry items built = Ok result ->
    (k, v) ∈ items -> keep v = true ->
    exists x, entry k v = Ok x /\ result !! k = Some x.
Proof.
  induction items as [|[key v'] items IH]; simpl;
    intros built result k v Hnodup H Hin Hkeep; [by apply elem_of_nil in Hin|].
  apply NoDup_cons in Hnodup as [Hkey Hnodup].
  apply elem_of_cons in Hin as [[= -> ->]|Hin].
  - rewrite Hkeep in H. apply bind_Ok in H as (x & Hx & H).
    exists x. split; [done|].
    rewrite (dict_comprehension_frame _ _ _ _ _ _ H Hkey).
    apply lookup_insert_eq.
  - destruct (keep v'); [unbind H|]; by eapply IH.
Qed.

Lemma catalog_control_Ok (standard_key control_number : string)
    (control_data : value) (c : CatalogControl.t) :
  OpenControl.catalog_control standard_key control_number control_data = Ok c ->
  CatalogControl.id c = control_number
  /\ CatalogControl.number c = control_number
  /\ fst (CatalogControl.sort_key c) = standard_key
  /\ OpenControl.make_control_number_sort_key (VStr control_number)
     = Ok (snd (CatalogControl.sort_key c))
  /\ py_getitem control_data "name" = Ok (CatalogControl.name c)
  /\ py_getitem control_data "family" = Ok (CatalogControl.family c)
  /\ py_getitem control_data "description" = Ok (CatalogControl.description c).
Proof.
  unfold OpenControl.catalog_control. intros H. unbind H.
  inversion H; subst; clear H. simpl. by repeat split.
Qed.

Lemma catalog_family_Ok (family_id : string) (family_data : value)
    (f : CatalogFamily.t) :
  OpenControl.catalog_family family_id family_data = Ok f ->
  CatalogFamily.id f = family_id
  /\ CatalogFamily.sort_key f = family_id
  /\ CatalogFamily.number f = family_id
  /\ py_getitem family_data "name" = Ok (CatalogFamily.name f).
Proof.
  unfold OpenControl.catalog_family. intros H. unbind H.
  inversion H; subst; clear H. simpl. by repeat split.
Qed.

Lemma load_standard_Ok (fs : gmap string value) (project : Project.t)
    (standards_dir : string) (standard_fn : value) (key : string)
    (s : Standard.t) :
  OpenControl.load_standard fs project standards_dir standard_fn = Ok (key, s) ->
  exists fn fields,
    standard_fn = VStr fn
    /\ fs !! path_join (Project.path project) [standards_dir; fn]
       = Some (VDict fields)
    /\ key = splitext_root (basename (normpath
               (path_join (Project.path project) [standards_dir; fn])))
    /\ Standard.id s = key
    /\ assoc "name" fields = Some (Standard.name s)
    /\ OpenControl.dict_comprehension OpenControl.is_control_data
         (OpenControl.catalog_control key) fields ∅ = Ok (Standard.controls s)
    /\ OpenControl.dict_comprehension OpenControl.is_family_data
         OpenControl.catalog_family fields ∅ = Ok (Standard.families s).
Proof.
  unfold OpenControl.load_standard, read_yaml. intros H.
  destruct standard_fn as [| |fn| |]; simpl in H; try done.
  destruct (fs !! _) as [doc|] eqn:Hfile; simpl in H; [|done].
  destruct doc as [| | | |fields]; simpl in H; try done.
  destruct (assoc "name" fields) as [name|] eqn:Hname; simpl in H; [|done].
  unbind H. inversion H; subst; clear H. simpl.
  exists fn, fields. by repeat split.
Qed.

Lemma load_project_standards_elem (fs : gmap string value)
    (project : Project.t) (key : string) (s : Standard.t) :
  (key, s) ∈ fst (OpenControl.load_project_standards fs project) ->
  exists standards_dir standard_fn,
    OpenControl.load_standard fs project standards_dir standard_fn = Ok (key, s).
Proof.
  unfold OpenControl.load_project_standards, gen_bind.
  match goal with |- context [match ?r with _ => _ end] => destruct r as [dirs|e] end;
    [|by intros ?%elem_of_nil].
  intros (dir & _ & Hin)%gen_for_elem.
  unfold OpenControl.standards_of_dir in Hin.
  destruct dir as [| |dir| |]; try by apply elem_of_nil in Hin.
  unfold gen_bind in Hin.
  match type of Hin with context [match ?r with _ => _ end] =>
    destruct r as [fns|e] end; [|by apply elem_of_nil in Hin].
  apply gen_for_elem in Hin as (fn & _ & Hin).
  exists dir, fn.
  destruct (OpenControl.load_standard fs project dir fn) as [y|e]; simpl in Hin.
  - apply list_elem_of_singleton in Hin. by subst.
  - by apply elem_of_nil in Hin.
Qed.

(** X8: every standard the generator yields is consistent with itself: it
    is yielded under its own id, which is the base name of its file without
    the extension; each control is stored under its own id and number, with
    the sort key made of the standard's id and the natural key of the
    number; each family is stored under its own id, number and sort key. *)
Theorem standards_are_self_consistent (fs : gmap string value)
    (project : Project.t) (key : string) (s : Standard.t) :
  (key, s) ∈ fst (OpenControl.load_project_standards fs project) ->
  Standard.id s = key
  /\ (exists standards_dir fn,
        key = splitext_root (basename (normpath
                (path_join (Project.path project) [standards_dir; fn]))))
  /\ (forall k c,
        Standard.controls s !! k = Some c ->
        CatalogControl.id c = k /\ CatalogControl.number c = k
        /\ fst (CatalogControl.sort_key c) = key
        /\ OpenControl.make_control_number_sort_key (VStr k)
           = Ok (snd (CatalogControl.sort_key c)))
  /\ (forall k f,
        Standard.families s !! k = Some f ->
        CatalogFamily.id f = k /\ CatalogFamily.number f = k
        /\ CatalogFamily.sort_key f = k).
Proof.
  intros (dir & standard_fn & Hload)%load_project_standards_elem.
  apply load_standard_Ok in Hload
    as (fn & fields & -> & Hfile & Hkey & Hid & Hname & Hcontrols & Hfamilies).
  split; [done|]. split; [by exists dir, fn|]. split.
  - intros k c Hc.
    destruct (dict_comprehension_sound _ _ _ _ _ _ _ Hcontrols Hc)
      as [Hempty|(v & _ & _ & Hv)]; [by rewrite lookup_empty in Hempty|].
    apply catalog_control_Ok in Hv. tauto.
  - intros k f Hf.
    destruct (dict_comprehension_sound _ _ _ _ _ _ _ Hfamilies Hf)
      as [Hempty|(v & _ & _ & Hv)]; [by rewrite lookup_empty in Hempty|].
    apply catalog_family_Ok in Hv. tauto.
Qed.

Example demo_standards_load :
  OpenControl.load_project_standards demo_fs_catalog demo_project
  = (map_to_list demo_standards, None).
Proof. vm_compute. reflexivity. Qed.

Lemma standards_are_self_consistent_witness :
  exists s,
    ("NIST-800-53", s)
      ∈ fst (OpenControl.load_project_standards demo_fs_catalog demo_project)
    /\ Standard.id s = "NIST-800-53"
    /\ (forall k c,
          Standard.controls s !! k = Some c ->
          CatalogControl.id c = k /\ CatalogControl.number c = k
          /\ fst (CatalogControl.sort_key c) = "NIST-800-53"
          /\ OpenControl.make_control_number_sort_key (VStr k)
             = Ok (snd (CatalogControl.sort_key c))).
Proof.
  eexists. split; [vm_compute; left|].
  edestruct (standards_are_self_consistent demo_fs_catalog demo_project
               "NIST-800-53") as (Hid & _ & Hcontrols & _);
    [vm_compute; left|].
  split; [exact Hid|exact Hcontrols].
Defined.

Lemma control_not_family (v : value) :
  OpenControl.is_control_data v = true -> OpenControl.is_family_data v = false.
Proof.
  destruct v as [| | | |fields]; simpl; try done.
  intros ->%value_eqb_eq. done.
Qed.

(** X9: the entries of a catalog file are divided by their [type]: a
    mapping without [type] (or with [type] null) is a control and nothing
    else is; a mapping whose [type] is "family" is a family and nothing else
    is; so the top-level [name], every other scalar, and every mapping with
    another [type] are in neither table, and no key is in both.  Each
    control and family carries the name (and family and description) of its
    entry. *)
Theorem standard_partitions_entries (fs : gmap string value)
    (project : Project.t) (key : string) (s : Standard.t) :
  (key, s) ∈ fst (OpenControl.load_project_standards fs project) ->
  exists standards_dir fn fields,
    fs !! path_join (Project.path project) [standards_dir; fn] = Some (VDict fields)
    /\ assoc "name" fields = Some (Standard.name s)
    /\ (NoDup (map fst fields) ->
        forall k,
          (forall c, Standard.controls s !! k = Some c <->
             exists v, assoc k fields = Some v
               /\ OpenControl.is_control_data v = true
               /\ OpenControl.catalog_control key k v = Ok c)
          /\ (forall f, Standard.families s !! k = Some f <->
                exists v, assoc k fields = Some v
                  /\ OpenControl.is_family_data v = true
                  /\ OpenControl.catalog_family k v = Ok f)
          /\ ~ (is_Some (Standard.controls s !! k)
                /\ is_Some (Standard.families s !! k))).
Proof.
  intros (dir & standard_fn & Hload)%load_project_standards_elem.
  apply load_standard_Ok in Hload
    as (fn & fields & -> & Hfile & Hkey & Hid & Hname & Hcontrols & Hfamilies).
  exists dir, fn, fields. split; [done|]. split; [done|].
  intros Hnodup k.
  assert (forall c, Standard.controls s !! k = Some c <->
            exists v, assoc k fields = Some v
              /\ OpenControl.is_control_data v = true
              /\ OpenControl.catalog_control key k v = Ok c) as Hc.
  { intros c. split.
    - intros Hk.
      destruct (dict_comprehension_sound _ _ _ _ _ _ _ Hcontrols Hk)
        as [Hempty|(v & Hin & Hkeep & Hv)]; [by rewrite lookup_empty in Hempty|].
      exists v. split; [by apply elem_assoc|done].
    - intros (v & Hin%assoc_elem & Hkeep & Hv).
      destruct (dict_comprehension_complete _ _ _ _ _ _ _ Hnodup Hcontrols Hin Hkeep)
        as (x & Hx & Hlookup).
      congruence. }
  assert (forall f, Standard.families s !! k = Some f <->
            exists v, assoc k fields = Some v
              /\ OpenControl.is_family_data v = true
              /\ OpenControl.catalog_family k v = Ok f) as Hf.
  { intros f. split.
    - intros Hk.
      destruct (dict_comprehension_sound _ _ _ _ _ _ _ Hfamilies Hk)
        as [Hempty|(v & Hin & Hkeep & Hv)]; [by rewrite lookup_empty in Hempty|].
      exists v. split; [by apply elem_assoc|done].
    - intros (v & Hin%assoc_elem & Hkeep & Hv).
      destruct (dict_comprehension_complete _ _ _ _ _ _ _ Hnodup Hfamilies Hin Hkeep)
        as (x & Hx & Hlookup).
      congruence. }
  split; [done|]. split; [done|].
  intros [[c (v & Hv & Hcontrol & _)%Hc] [f (v' & Hv' & Hfamily & _)%Hf]].
  apply control_not_family in Hcontrol. congruence.
Qed.

Lemma standard_partitions_entries_witness :
  exists s standards_dir fn fields,
    ("NIST-800-53", s)
      ∈ fst (OpenControl.load_project_standards demo_fs_catalog demo_project)
    /\ demo_fs_catalog !! path_join "my project" [standards_dir; fn]
       = Some (VDict fields)
    /\ assoc "name" fields = Some (Standard.name s)
    /\ (NoDup (map fst fields) ->
        forall k,
          (forall c, Standard.controls s !! k = Some c <->
             exists v, assoc k fields = Some v
               /\ OpenControl.is_control_data v = true
               /\ OpenControl.catalog_control "NIST-800-53" k v = Ok c)
          /\ (forall f, Standard.families s !! k = Some f <->
                exists v, assoc k fields = Some v
                  /\ OpenControl.is_family_data v = true
                  /\ OpenControl.catalog_family k v = Ok f)
          /\ ~ (is_Some (Standard.controls s !! k)
                /\ is_Some (Standard.families s !! k))).
Proof.
  eexists.
  edestruct (standard_partitions_entries demo_fs_catalog demo_project
               "NIST-800-53") as (dir & fn & fields & H);
    [vm_compute; left|].
  exists dir, fn, fields. split; [vm_compute; left|exact H].
Defined.

Lemma dict_comprehension_raises {A} (keep : value -> bool)
    (entry : string -> value -> res A) (P : exn -> Prop)
    (items : list (string * value)) :
  (forall k v e, keep v = true -> entry k v = Raise e -> P e) ->
  forall built k v e,
    (k, v) ∈ items -> keep v = true -> entry k v = Raise e ->
    exists e', P e' /\ OpenControl.dict_comprehension keep entry items built = Raise e'.
Proof.
  intros HP. induction items as [|[key v'] items IH]; simpl;
    intros built k v e Hin Hkeep He; [by apply elem_of_nil in Hin|].
  apply elem_of_cons in Hin as [[= -> ->]|Hin].
  - rewrite Hkeep, He. simpl. exists e. split; [by eapply HP|done].
  - destruct (keep v') eqn:Hkeep'; [|by eapply IH].
    destruct (entry key v') as [x|e'] eqn:Hentry; simpl; [by eapply IH|].
    exists e'. split; [by eapply HP|done].
Qed.

Lemma catalog_control_raises (standard_key k : string) (v : value) (e : exn) :
  OpenControl.is_control_data v = true ->
  OpenControl.catalog_control standard_key k v = Raise e ->
  exists field, field ∈ ["name"; "family"; "description"] /\ e = KeyError field.
Proof.
  destruct v as [| | | |cf]; simpl; try done. intros _.
  unfold OpenControl.catalog_control. rewrite make_key_str. simpl.
  destruct (assoc "name" cf); simpl;
    [|intros [= <-]; exists "name"; split; [set_solver|done]].
  destruct (assoc "family" cf); simpl;
    [|intros [= <-]; exists "family"; split; [set_solver|done]].
  destruct (assoc "description" cf); simpl; [done|].
  intros [= <-]. exists "description". split; [set_solver|done].
Qed.

Lemma load_project_standards_dirs (fs : gmap string value)
    (project : Project.t) (system : list (string * value)) (dirs : list value) :
  fs !! path_join (Project.path project) ["opencontrol.yaml"] = Some (VDict system) ->
  assoc "schema_version" system = Some (VStr "1.0.0") ->
  assoc "standards" system = Some (VList dirs) ->
  OpenControl.load_project_standards fs project
  = gen_for (OpenControl.standards_of_dir fs project) dirs.
Proof.
  intros Hsystem Hversion Hdirs.
  unfold OpenControl.load_project_standards, read_yaml.
  rewrite Hsystem. simpl. rewrite Hversion. simpl. by rewrite Hdirs.
Qed.

Lemma standards_of_dir_files (fs : gmap string value) (project : Project.t)
    (standards_dir : string) (listing : list (string * value))
    (fns : list value) :
  fs !! path_join (Project.path project) [standards_dir; "opencontrol.yaml"]
    = Some (VDict listing) ->
  assoc "schema_version" listing = Some (VStr "1.0.0") ->
  default (VList []) (assoc "standards" listing) = VList fns ->
  OpenControl.standards_of_dir fs project (VStr standards_dir)
  = gen_for (fun standard_fn =>
               gen_yield (OpenControl.load_standard fs project standards_dir
                                                    standard_fn))
            fns.
Proof.
  intros Hlisting Hversion Hfns.
  unfold OpenControl.standards_of_dir, read_yaml.
  rewrite Hlisting. simpl. rewrite Hversion. simpl.
  replace (match assoc "standards" listing with Some v => v | None => VList [] end)
    with (default (VList []) (assoc "standards" listing))
    by by destruct (assoc "standards" listing).
  by rewrite Hfns.
Qed.

(** X10: one incomplete control spoils its catalog: if a control of the
    first catalog file of the first standards directory lacks its [name],
    [family] or [description], iterating over the project's standards
    raises KeyError for one of these three keys before anything is yielded,
    whatever else the catalog and the later directories hold. *)
Theorem incomplete_control_fails_standards (fs : gmap string value)
    (project : Project.t) (system listing fields cf : list (string * value))
    (standards_dir fn k : string) (dirs fns : list value) :
  fs !! path_join (Project.path project) ["opencontrol.yaml"] = Some (VDict system) ->
  assoc "schema_version" system = Some (VStr "1.0.0") ->
  assoc "standards" system = Some (VList (VStr standards_dir :: dirs)) ->
  fs !! path_join (Project.path project) [standards_dir; "opencontrol.yaml"]
    = Some (VDict listing) ->
  assoc "schema_version" listing = Some (VStr "1.0.0") ->
  assoc "standards" listing = Some (VList (VStr fn :: fns)) ->
  fs !! path_join (Project.path project) [standards_dir; fn] = Some (VDict fields) ->
  is_Some (assoc "name" fields) ->
  (k, VDict cf) ∈ fields ->
  OpenControl.is_control_data (VDict cf) = true ->
  has_key "name" cf && has_key "family" cf && has_key "description" cf = false ->
  exists field,
    field ∈ ["name"; "family"; "description"]
    /\ OpenControl.load_project_standards fs project = ([], Some (KeyError field)).
Proof.
  intros Hsystem Hv1 Hdirs Hlisting Hv2 Hfns Hfile [name Hname] Hin Hcontrol Hkeys.
  set (key := splitext_root (basename (normpath
                (path_join (Project.path project) [standards_dir; fn])))).
  assert (exists e, OpenControl.catalog_control key k (VDict cf) = Raise e)
    as (e & He).
  { unfold OpenControl.catalog_control, has_key in *. rewrite make_key_str. simpl.
    destruct (assoc "name" cf); simpl; [|eauto].
    destruct (assoc "family" cf); simpl; [|eauto].
    destruct (assoc "description" cf); simpl; [done|eauto]. }
  destruct (dict_comprehension_raises OpenControl.is_control_data
              (OpenControl.catalog_control key)
              (fun e => exists field,
                 field ∈ ["name"; "family"; "description"] /\ e = KeyError field)
              fields (catalog_control_raises key) ∅ k (VDict cf) e Hin Hcontrol He)
    as (e' & (field & Hfield & ->) & Hraise).
  exists field. split; [done|].
  assert (OpenControl.load_standard fs project standards_dir (VStr fn)
          = Raise (KeyError field)) as Hload.
  { unfold OpenControl.load_standard, read_yaml. cbn [as_str bind].
    rewrite Hfile. cbn [bind py_getitem]. rewrite Hname. cbn [bind].
    fold key. by rewrite Hraise. }
  rewrite (load_project_standards_dirs _ _ _ _ Hsystem Hv1 Hdirs).
  cbn [gen_for].
  rewrite (standards_of_dir_files _ _ _ _ (VStr fn :: fns) Hlisting Hv2)
    by by rewrite Hfns.
  cbn [gen_for]. by rewrite Hload.
Qed.

Lemma incomplete_control_fails_standards_witness :
  exists field,
    field ∈ ["name"; "family"; "description"]
    /\ OpenControl.load_project_standards demo_fs_incomplete demo_project
       = ([], Some (KeyError field)).
Proof.
  apply (incomplete_control_fails_standards demo_fs_incomplete demo_project
           demo_system_manifest
           [("schema_version", VStr "1.0.0");
            ("standards", VList [VStr "NIST-800-53.yaml"])]
           (demo_catalog_file
            ++ [("AC-3", VDict [("name", VStr "Access Enforcement");
                                ("family", VStr "AC")])])
           [("name", VStr "Access Enforcement"); ("family", VStr "AC")]
           "standards" "NIST-800-53.yaml" "AC-3" [] []);
    try reflexivity.
  - by eexists.
  - vm_compute. set_solver.
Defined.

(** ** The records of the narrative aggregator *)

Lemma gen_yield_elem {A} (r : res A) (y : A) : y ∈ fst (gen_yield r) -> r = Ok y.
Proof.
  destruct r as [x|e]; simpl.
  - by intros ->%list_elem_of_singleton.
  - by intros ?%elem_of_nil.
Qed.

Lemma py_iter_dicts (v : value) (items : list value) (fields : list (string * value)) :
  py_iter v = Ok items -> VDict fields ∈ items -> v = VList items.
Proof.
  destruct v as [| |s|l|m]; simpl; try done.
  - intros [= <-] (c & Hc & _)%list_elem_of_fmap. done.
  - by intros [= <-].
  - intros [= <-] (kv & Hkv & _)%list_elem_of_fmap. done.
Qed.

Lemma controlimpl_of_part_Ok (component : Component.t) (fn : string)
    (standard : StandardInfo.t) (family : FamilyInfo.t) (control : ControlInfo.t)
    (narrative_part : value) (r : ControlImpl.t) :
  OpenControl.controlimpl_of_part component fn (standard, family, control)
    narrative_part = Ok r ->
  exists part k t,
    narrative_part = VDict part
    /\ assoc "text" part = Some t
    /\ OpenControl.make_control_number_sort_key (default VNone (assoc "key" part))
       = Ok k
    /\ r = {| ControlImpl.component := component;
              ControlImpl.standard := standard;
              ControlImpl.family := family;
              ControlImpl.control := control;
              ControlImpl.source_file := fn;
              ControlImpl.control_part := default VNone (assoc "key" part);
              ControlImpl.sort_key := (ControlInfo.sort_key control, k);
              ControlImpl.narrative := t |}.
Proof.
  unfold OpenControl.controlimpl_of_part.
  destruct narrative_part as [| | | |part]; simpl; try done.
  replace (match assoc "key" part with Some v => v | None => VNone end)
    with (default VNone (assoc "key" part)) by by destruct (assoc "key" part).
  destruct (OpenControl.make_control_number_sort_key _) as [k|e] eqn:Hk;
    simpl; [|done].
  destruct (assoc "text" part) as [t|] eqn:Ht; simpl; [|done].
  intros [= <-]. by exists part, k, t.
Qed.

Lemma controls_of_entry_elem (component : Component.t)
    (standards : gmap string Standard.t) (fn : string) (control : value)
    (r : ControlImpl.t) :
  r ∈ fst (OpenControl.controls_of_entry component standards fn control) ->
  exists entry metadata parts part,
    control = VDict entry
    /\ OpenControl.control_metadata component standards control = Ok metadata
    /\ assoc "narrative" entry = Some (VList parts)
    /\ VDict part ∈ parts
    /\ OpenControl.controlimpl_of_part component fn metadata (VDict part) = Ok r.
Proof.
  unfold OpenControl.controls_of_entry, gen_bind.
  destruct (OpenControl.control_metadata component standards control)
    as [metadata|e] eqn:Hmetadata; [|by intros ?%elem_of_nil].
  destruct control as [| | | |entry]; try done. simpl.
  destruct (py_iter _) as [parts|e] eqn:Hparts; [|by intros ?%elem_of_nil].
  intros (p & Hp & Hr%gen_yield_elem)%gen_for_elem.
  destruct metadata as [[standard family] control].
  destruct (controlimpl_of_part_Ok _ _ _ _ _ _ _ Hr) as (part & k & t & -> & _).
  exists entry, (standard, family, control), parts, part.
  split; [done|]. split; [done|]. split; [|done].
  pose proof (py_iter_dicts _ _ _ Hparts Hp) as Hlist.
  destruct (assoc "narrative" entry) as [narrative|]; simpl in Hlist.
  - by subst.
  - inversion Hlist; subst. by apply elem_of_nil in Hp.
Qed.

Lemma load_project_component_controls_elem (fs : gmap string value)
    (component : Component.t) (standards : gmap string Standard.t)
    (r : ControlImpl.t) :
  r ∈ fst (OpenControl.load_project_component_controls fs component standards) ->
  exists manifest entries entry,
    fs !! path_join (Component.path component) ["component.yaml"]
      = Some (VDict manifest)
    /\ assoc "schema_version" manifest = Some (VStr "3.0.0")
    /\ assoc "satisfies" manifest = Some (VList entries)
    /\ VDict entry ∈ entries
    /\ r ∈ fst (OpenControl.controls_of_entry component standards
                  (path_join (Component.path component) ["component.yaml"])
                  (VDict entry)).
Proof.
  unfold OpenControl.load_project_component_controls, read_yaml, gen_bind.
  destruct (fs !! _) as [doc|] eqn:Hfile; simpl; [|by intros ?%elem_of_nil].
  destruct doc as [| | | |manifest]; simpl; try by intros ?%elem_of_nil.
  destruct (negb _) eqn:Hversion; simpl; [by intros ?%elem_of_nil|].
  destruct (py_iter _) as [entries|e] eqn:Hentries; [|by intros ?%elem_of_nil].
  intros (control & Hcontrol & Hr)%gen_for_elem.
  destruct (controls_of_entry_elem _ _ _ _ _ Hr) as (entry & _ & _ & _ & -> & _).
  exists manifest, entries, entry. split; [done|]. split.
  { apply negb_false_iff, value_eqb_eq in Hversion.
    by destruct (assoc "schema_version" manifest); simpl in Hversion; subst. }
  split; [|done].
  pose proof (py_iter_dicts _ _ _ Hentries Hcontrol) as Hlist.
  destruct (assoc "satisfies" manifest) as [satisfies|]; simpl in Hlist.
  - by subst.
  - inversion Hlist; subst. by apply elem_of_nil in Hcontrol.
Qed.

Lemma control_metadata_Ok (component : Component.t)
    (standards : gmap string Standard.t) (entry : list (string * value))
    (standard : StandardInfo.t) (family : FamilyInfo.t) (control : ControlInfo.t) :
  OpenControl.control_metadata component standards (VDict entry)
    = Ok (standard, family, control) ->
  exists sk ck name,
    assoc "standard_key" entry = Some (VStr sk)
    /\ assoc "control_key" entry = Some (VStr ck)
    /\ assoc "name" entry = Some name
    /\ StandardInfo.id standard = sk
    /\ FamilyInfo.abbrev family = hd "" (str_split "-"%char ck)
    /\ ControlInfo.url control
       = Project.url (Component.project component) +:+ "/controls/"
         +:+ quote_plus sk +:+ "/" +:+ quote_plus ck.
Proof.
  unfold OpenControl.control_metadata. simpl.
  destruct (assoc "standard_key" entry) as [sk|]; simpl; [|done].
  destruct (assoc "control_key" entry) as [ck|]; simpl; [|done].
  destruct ck as [| |ck| |]; simpl; try done.
  rewrite make_key_str. simpl.
  destruct (assoc "name" entry) as [name|]; simpl; [|done].
  destruct sk as [| |sk| |]; simpl; try done.
  intros H. exists sk, ck, name.
  destruct (standards !! sk) as [std|]; [|by inversion H].
  destruct (Standard.controls std !! ck) as [c|]; [|by inversion H].
  destruct (dict_lookup _ _) as [[f|]|e]; simpl in H; by inversion H.
Qed.

(** X11: every record the aggregator yields comes from one narrative
    fragment of one [satisfies] entry of the component's manifest: it names
    that manifest as its source file and the given component as its
    component; its standard id is the entry's [standard_key]; its part and
    narrative are the fragment's [key] (or [None]) and [text]; its URL is
    built from the entry's two keys; and its sort key is its control's sort
    key followed by the natural key of the part. *)
Theorem records_come_from_fragments (fs : gmap string value)
    (component : Component.t) (standards : gmap string Standard.t)
    (r : ControlImpl.t) :
  r ∈ fst (OpenControl.load_project_component_controls fs component standards) ->
  exists manifest entries entry parts part ck k,
    fs !! ControlImpl.source_file r = Some (VDict manifest)
    /\ ControlImpl.source_file r
       = path_join (Component.path component) ["component.yaml"]
    /\ ControlImpl.component r = component
    /\ assoc "satisfies" manifest = Some (VList entries)
    /\ VDict entry ∈ entries
    /\ assoc "standard_key" entry
       = Some (VStr (StandardInfo.id (ControlImpl.standard r)))
    /\ assoc "control_key" entry = Some (VStr ck)
    /\ ControlInfo.url (ControlImpl.control r)
       = Project.url (Component.project component) +:+ "/controls/"
         +:+ quote_plus (StandardInfo.id (ControlImpl.standard r))
         +:+ "/" +:+ quote_plus ck
    /\ assoc "narrative" entry = Some (VList parts)
    /\ VDict part ∈ parts
    /\ ControlImpl.control_part r = default VNone (assoc "key" part)
    /\ assoc "text" part = Some (ControlImpl.narrative r)
    /\ OpenControl.make_control_number_sort_key (ControlImpl.control_part r) = Ok k
    /\ ControlImpl.sort_key r = (ControlInfo.sort_key (ControlImpl.control r), k).
Proof.
  intros (manifest & entries & entry & Hfile & _ & Hsatisfies & Hentry & Hr)
    %load_project_component_controls_elem.
  apply controls_of_entry_elem in Hr
    as (entry' & [[standard family] control] & parts & part & [= <-] & Hmetadata
        & Hnarrative & Hpart & Hr).
  apply controlimpl_of_part_Ok in Hr as (part' & k & t & [= <-] & Htext & Hk & ->).
  apply control_metadata_Ok in Hmetadata
    as (sk & ck & name & Hsk & Hck & Hname & Hid & Habbrev & Hurl).
  simpl. exists manifest, entries, entry, parts, part, ck, k.
  rewrite Hid. by repeat split.
Qed.

Lemma records_come_from_fragments_witness :
  exists manifest entries entry parts part ck k,
    demo_fs !! "my project/components/web app/component.yaml"
      = Some (VDict manifest)
    /\ "my project/components/web app/component.yaml"
       = path_join (Component.path demo_component) ["component.yaml"]
    /\ demo_component = demo_component
    /\ assoc "satisfies" manifest = Some (VList entries)
    /\ VDict entry ∈ entries
    /\ assoc "standard_key" entry = Some (VStr "NIST-800-53")
    /\ assoc "control_key" entry = Some (VStr ck)
    /\ Project.url demo_project +:+ "/controls/NIST-800-53/AC-2"
       = Project.url (Component.project demo_component) +:+ "/controls/"
         +:+ quote_plus "NIST-800-53" +:+ "/" +:+ quote_plus ck
    /\ assoc "narrative" entry = Some (VList parts)
    /\ VDict part ∈ parts
    /\ VStr "b" = default VNone (assoc "key" part)
    /\ assoc "text" part = Some (VStr "Accounts expire.")
    /\ OpenControl.make_control_number_sort_key (VStr "b") = Ok k
    /\ (("NIST-800-53", [PStr "AC-"; PInt 2; PStr ""]), [PStr "b"])
       = (("NIST-800-53", [PStr "AC-"; PInt 2; PStr ""]), k).
Proof.
  apply (records_come_from_fragments demo_fs demo_component demo_standards
           (demo_controlimpl "b" (VStr "Accounts expire."))).
  vm_compute. right. left.
Defined.

Lemma split_on_head (sep : ascii) (l : list ascii) :
  exists first others,
    split_on sep l = first :: others
    /\ Forall (fun c => c <> sep) first
    /\ (l = first \/ exists tail, l = first ++ sep :: tail).
Proof.
  induction l as [|c l (first & others & Hsplit & Hfirst & Hl)]; simpl.
  - exists [], []. split; [done|]. split; [constructor|by left].
  - destruct (Ascii.eqb c sep) eqn:Hc.
    + apply Ascii.eqb_eq in Hc. subst c.
      exists [], (split_on sep l). split; [done|]. split; [constructor|].
      right. by exists l.
    + apply Ascii.eqb_neq in Hc. rewrite Hsplit.
      exists (c :: first), others. split; [done|]. split; [by constructor|].
      destruct Hl as [->|(tail & ->)]; [by left|right; by exists tail].
Qed.

Lemma control_metadata_unknown (component : Component.t)
    (standards : gmap string Standard.t) (entry : list (string * value))
    (standard : StandardInfo.t) (family : FamilyInfo.t) (control : ControlInfo.t) :
  OpenControl.control_metadata component standards (VDict entry)
    = Ok (standard, family, control) ->
  standards !! StandardInfo.id standard = None ->
  exists ck name k,
    assoc "control_key" entry = Some (VStr ck)
    /\ assoc "name" entry = Some name
    /\ OpenControl.make_control_number_sort_key (VStr ck) = Ok k
    /\ StandardInfo.name standard = VStr (StandardInfo.id standard)
    /\ family = {| FamilyInfo.abbrev := hd "" (str_split "-"%char ck);
                   FamilyInfo.name := VStr (hd "" (str_split "-"%char ck));
                   FamilyInfo.sort_key := hd "" (str_split "-"%char ck);
                   FamilyInfo.id := None;
                   FamilyInfo.number := None |}
    /\ ControlInfo.id control = ck
    /\ ControlInfo.number control = ck
    /\ ControlInfo.name control = name
    /\ ControlInfo.sort_key control = (StandardInfo.id standard, k)
    /\ ControlInfo.family control = None
    /\ ControlInfo.description control = None.
Proof.
  unfold OpenControl.control_metadata. simpl.
  destruct (assoc "standard_key" entry) as [sk|]; simpl; [|done].
  destruct (assoc "control_key" entry) as [ck|]; simpl; [|done].
  destruct ck as [| |ck| |]; simpl; try done.
  rewrite make_key_str. simpl.
  destruct (assoc "name" entry) as [name|]; simpl; [|done].
  destruct sk as [| |sk| |]; simpl; try done.
  intros H Hunknown. exists ck, name. eexists. split; [done|]. split; [done|].
  split; [apply make_key_str|].
  destruct (standards !! sk) as [std|] eqn:Hstd.
  - destruct (Standard.controls std !! ck) as [c|].
    + destruct (dict_lookup _ _) as [[f|]|e]; simpl in H; inversion H; subst;
        simpl in Hunknown; congruence.
    + inversion H; subst. simpl in Hunknown. congruence.
  - inversion H; subst. simpl. by repeat split.
Qed.

(** X12: a record whose standard is not among the standards given is
    built from the manifest alone: the standard is named by its key; the
    control's id and number are the entry's [control_key], its name is the
    entry's [name], it has no family and no description, and it sorts by
    the standard key and the natural key of the control key; the family's
    abbreviation, name and sort key are the control key up to its first
    hyphen (the whole key if it has none), and it has no id or number. *)
Theorem unknown_standard_fallback (fs : gmap string value)
    (component : Component.t) (standards : gmap string Standard.t)
    (r : ControlImpl.t) :
  r ∈ fst (OpenControl.load_project_component_controls fs component standards) ->
  standards !! StandardInfo.id (ControlImpl.standard r) = None ->
  let control := ControlImpl.control r in
  let family := ControlImpl.family r in
  StandardInfo.name (ControlImpl.standard r)
    = VStr (StandardInfo.id (ControlImpl.standard r))
  /\ ControlInfo.number control = ControlInfo.id control
  /\ ControlInfo.family control = None
  /\ ControlInfo.description control = None
  /\ (exists k,
        OpenControl.make_control_number_sort_key (VStr (ControlInfo.id control))
          = Ok k
        /\ ControlInfo.sort_key control
           = (StandardInfo.id (ControlImpl.standard r), k))
  /\ FamilyInfo.id family = None
  /\ FamilyInfo.number family = None
  /\ FamilyInfo.name family = VStr (FamilyInfo.abbrev family)
  /\ FamilyInfo.sort_key family = FamilyInfo.abbrev family
  /\ Forall (fun c => c <> "-"%char) (chars (FamilyInfo.abbrev family))
  /\ (ControlInfo.id control = FamilyInfo.abbrev family
      \/ exists tail,
           ControlInfo.id control = FamilyInfo.abbrev family +:+ String "-" tail).
Proof.
  intros (manifest & entries & entry & _ & _ & _ & _ & Hr)
    %load_project_component_controls_elem Hunknown.
  apply controls_of_entry_elem in Hr
    as (entry' & [[standard family] control] & parts & part & [= <-] & Hmetadata
        & _ & _ & Hr).
  apply controlimpl_of_part_Ok in Hr as (part' & k' & t & _ & _ & _ & ->).
  simpl in *.
  destruct (control_metadata_unknown _ _ _ _ _ _ Hmetadata Hunknown)
    as (ck & name & k & _ & _ & Hk & Hsname & -> & Hid & Hnumber & _ & Hsort
        & Hfamily & Hdescription).
  simpl. rewrite Hid. repeat split; try done.
  - by exists k.
  - unfold str_split.
    destruct (split_on_head "-"%char (chars ck)) as (first & others & -> & Hfirst & _).
    simpl. by rewrite chars_text.
  - unfold str_split.
    destruct (split_on_head "-"%char (chars ck))
      as (first & others & -> & _ & [Hck|(tail & Hck)]); simpl.
    + left. by rewrite <- Hck, text_chars.
    + right. exists (text tail).
      rewrite <- (text_chars ck), Hck, text_app. done.
Qed.

Lemma unknown_standard_fallback_witness :
  exists r,
    r ∈ fst (OpenControl.load_project_component_controls demo_fs demo_component ∅)
    /\ StandardInfo.name (ControlImpl.standard r) = VStr "NIST-800-53"
    /\ ControlInfo.id (ControlImpl.control r) = "AC-2"
    /\ ControlInfo.family (ControlImpl.control r) = None
    /\ FamilyInfo.abbrev (ControlImpl.family r) = "AC"
    /\ FamilyInfo.name (ControlImpl.family r) = VStr "AC".
Proof.
  eexists. split; [vm_compute; left|].
  edestruct (unknown_standard_fallback demo_fs demo_component ∅)
    as (Hname & _ & Hfamily & _ & _ & _ & _ & Hfname & _);
    [vm_compute; left|reflexivity|].
  split; [exact Hname|]. split; [reflexivity|]. split; [exact Hfamily|].
  split; [reflexivity|exact Hfname].
Defined.

Lemma load_project_component_controls_entries (fs : gmap string value)
    (component : Component.t) (standards : gmap string Standard.t)
    (manifest : list (string * value)) (entries : list value) :
  fs !! path_join (Component.path component) ["component.yaml"]
    = Some (VDict manifest) ->
  assoc "schema_version" manifest = Some (VStr "3.0.0") ->
  assoc "satisfies" manifest = Some (VList entries) ->
  OpenControl.load_project_component_controls fs component standards
  = gen_for (OpenControl.controls_of_entry component standards
               (path_join (Component.path component) ["component.yaml"]))
            entries.
Proof.
  intros Hfile Hversion Hsatisfies.
  unfold OpenControl.load_project_component_controls, read_yaml.
  rewrite Hfile. simpl. by rewrite Hversion, Hsatisfies.
Qed.

(** X13: the aggregator reads [name] from every [satisfies] entry, whether
    or not the standards know the control: at an entry without [name] the
    iteration ends with KeyError, after the records of the entries before
    it (those the manifest cut off before that entry gives) have been
    yielded. *)
Theorem entry_without_name_stops_aggregator (fs : gmap string value)
    (component : Component.t) (standards : gmap string Standard.t)
    (manifest entry : list (string * value)) (good later : list value)
    (rs : list ControlImpl.t) (sk : value) (ck : string) :
  let fn := path_join (Component.path component) ["component.yaml"] in
  fs !! fn = Some (VDict manifest) ->
  assoc "schema_version" manifest = Some (VStr "3.0.0") ->
  assoc "satisfies" manifest = Some (VList (good ++ VDict entry :: later)) ->
  OpenControl.load_project_component_controls
    (<[fn := VDict (assoc_set "satisfies" (VList good) manifest)]> fs)
    component standards = (rs, None) ->
  assoc "standard_key" entry = Some sk ->
  assoc "control_key" entry = Some (VStr ck) ->
  assoc "name" entry = None ->
  OpenControl.load_project_component_controls fs component standards
  = (rs, Some (KeyError "name")).
Proof.
  intros fn Hfile Hversion Hsatisfies Hgood Hsk Hck Hname.
  rewrite (load_project_component_controls_entries _ _ _
             (assoc_set "satisfies" (VList good) manifest) good) in Hgood.
  fold fn in Hgood.
  - rewrite (load_project_component_controls_entries _ _ _ _ _
               Hfile Hversion Hsatisfies).
    fold fn. rewrite (gen_for_app _ _ _ _ Hgood). cbn [gen_for].
    assert (OpenControl.controls_of_entry component standards fn (VDict entry)
            = ([], Some (KeyError "name"))) as ->.
    { unfold OpenControl.controls_of_entry, OpenControl.control_metadata.
      simpl. rewrite Hsk, Hck. simpl. rewrite make_key_str. simpl.
      by rewrite Hname. }
    simpl. by rewrite app_nil_r.
  - apply lookup_insert_eq.
  - by rewrite assoc_set_other.
  - apply assoc_set_lookup.
Qed.

Lemma entry_without_name_stops_aggregator_witness :
  OpenControl.load_project_component_controls demo_fs_nameless demo_component
    demo_standards
  = ([demo_controlimpl "a" (VStr "Accounts are reviewed.")],
     Some (KeyError "name")).
Proof.
  apply (entry_without_name_stops_aggregator demo_fs_nameless demo_component
           demo_standards
           [("schema_version", VStr "3.0.0");
            ("satisfies", VList [
               VDict [("standard_key", VStr "NIST-800-53");
                      ("control_key", VStr "AC-2");
                      ("name", VStr "Account Management");
                      ("narrative", VList [
                         VDict [("key", VStr "a");
                                ("text", VStr "Accounts are reviewed.")]])];
               VDict [("standard_key", VStr "NIST-800-53");
                      ("control_key", VStr "AC-3");
                      ("narrative", VList [
                         VDict [("text", VStr "Access is enforced.")]])]])]
           [("standard_key", VStr "NIST-800-53");
            ("control_key", VStr "AC-3");
            ("narrative", VList [VDict [("text", VStr "Access is enforced.")]])]
           [VDict [("standard_key", VStr "NIST-800-53");
                   ("control_key", VStr "AC-2");
                   ("name", VStr "Account Management");
                   ("narrative", VList [
                      VDict [("key", VStr "a");
                             ("text", VStr "Accounts are reviewed.")]])]]
           [] _ (VStr "NIST-800-53") "AC-3");
    reflexivity.
Defined.

(** ** Updating twice, and updating then reloading *)

Lemma assoc_set_twice (key : string) (v w : value) (d : list (string * value)) :
  assoc_set key w (assoc_set key v d) = assoc_set key w d.
Proof.
  induction d as [|[k x] d IH]; simpl.
  - by rewrite String.eqb_refl.
  - destruct (String.eqb k key) eqn:Hk; simpl; rewrite Hk; [done|].
    by rewrite IH.
Qed.

Lemma with_items_cases (d : list (string * value)) (key : string)
    (items' : list value) :
  (exists items, assoc key d = Some (VList items)
     /\ with_items (VDict d) key items' = VDict (assoc_set key (VList items') d))
  \/ ((forall items, assoc key d <> Some (VList items))
      /\ with_items (VDict d) key items' = VDict d).
Proof.
  unfold with_items.
  destruct (assoc key d) as [[| | |items|]|]; try (right; split; [done|done]).
  left. by exists items.
Qed.

Lemma map_res_again {A} (f g : A -> res A) (l l1 : list A) :
  (forall x x1, f x = Ok x1 -> g x1 = g x /\ exists x2, g x = Ok x2) ->
  map_res f l = Ok l1 ->
  map_res g l1 = map_res g l /\ exists l2, map_res g l = Ok l2.
Proof.
  intros Hfg. revert l1. induction l as [|x l IH]; simpl; intros l1 H.
  - inversion H; subst. simpl. eauto.
  - apply bind_Ok in H as (x1 & Hx & H). apply bind_Ok in H as (l1' & Hl & H).
    inversion H; subst; clear H. simpl.
    destruct (Hfg _ _ Hx) as (-> & x2 & ->).
    destruct (IH _ Hl) as (-> & l2 & ->). simpl. eauto.
Qed.

Lemma update_narrative_part_again (a b : ControlImpl.t) (p p1 : value) :
  ControlImpl.control_part a = ControlImpl.control_part b ->
  OpenControl.update_narrative_part a p = Ok p1 ->
  OpenControl.update_narrative_part b p1 = OpenControl.update_narrative_part b p
  /\ exists p2, OpenControl.update_narrative_part b p = Ok p2.
Proof.
  intros Hpart. unfold OpenControl.update_narrative_part.
  destruct p as [| | | |fields]; simpl; try done.
  rewrite Hpart.
  destruct (value_eqb _ (ControlImpl.control_part b)) eqn:Hkey; intros [= <-];
    simpl.
  - rewrite assoc_set_other by done. rewrite Hkey. simpl.
    rewrite assoc_set_twice. eauto.
  - rewrite Hkey. eauto.
Qed.

Lemma update_satisfies_entry_again (a b : ControlImpl.t) (e e1 : value) :
  same_target a b = true ->
  OpenControl.update_satisfies_entry a e = Ok e1 ->
  OpenControl.update_satisfies_entry b e1 = OpenControl.update_satisfies_entry b e
  /\ exists e2, OpenControl.update_satisfies_entry b e = Ok e2.
Proof.
  unfold same_target. rewrite !andb_true_iff, !String.eqb_eq, value_eqb_eq.
  intros [[Hsid Hcid] Hpart].
  unfold OpenControl.update_satisfies_entry. rewrite Hsid, Hcid.
  destruct e as [| | | |fields]; cbn -[with_items]; try done.
  destruct (assoc "standard_key" fields) as [sk|] eqn:Hsk;
    cbn -[with_items]; [|done].
  destruct (value_eqb sk _) eqn:Hskb; cbn -[with_items];
    [|intros [= <-]; simpl; rewrite Hsk; simpl; rewrite Hskb; eauto].
  destruct (assoc "control_key" fields) as [ck|] eqn:Hck;
    cbn -[with_items]; [|done].
  destruct (value_eqb ck _) eqn:Hckb; cbn -[with_items];
    [|intros [= <-]; simpl; rewrite Hsk; simpl; rewrite Hskb, Hck; simpl;
      rewrite Hckb; eauto].
  intros H. apply bind_Ok in H as (parts & Hparts & H).
  apply bind_Ok in H as (parts1 & Hparts1 & H).
  assert (e1 = with_items (VDict fields) "narrative" parts1) as -> by congruence.
  clear H.
  destruct (map_res_again _ (OpenControl.update_narrative_part b) _ _
              (fun x x1 => update_narrative_part_again a b x x1 Hpart) Hparts1)
    as (Hagain & parts2 & Hparts2).
  split; [|rewrite Hparts; cbn -[with_items]; rewrite Hparts2; simpl; eauto].
  destruct (with_items_cases fields "narrative" parts1)
    as [(parts0 & Hn & ->)|(Hn & ->)].
  - rewrite Hn in Hparts. simpl in Hparts. inversion Hparts; subst.
    cbn -[with_items]. rewrite !assoc_set_other by done.
    rewrite Hsk. cbn -[with_items]. rewrite Hskb, Hck.
    cbn -[with_items]. rewrite Hckb. rewrite assoc_set_lookup.
    cbn -[with_items]. rewrite Hagain, Hparts2. simpl.
    rewrite assoc_set_lookup, Hn. simpl. rewrite Hparts2. simpl.
    by rewrite assoc_set_twice.
  - cbn -[with_items]. rewrite Hsk. cbn -[with_items]. rewrite Hskb, Hck.
    cbn -[with_items]. by rewrite Hckb.
Qed.

(** X14: of two updates of the same fragment the later one wins: after an
    update, updating the same standard, control and part in the same file
    with another narrative succeeds and leaves every file exactly as that
    second update alone would have; in particular, repeating an update
    changes nothing. *)
Theorem update_last_narrative_wins (fs fs1 : gmap string value)
    (a b : ControlImpl.t) (r : value) :
  OpenControl.update_component_control fs a = Ok (fs1, r) ->
  ControlImpl.source_file a = ControlImpl.source_file b ->
  same_target a b = true ->
  (exists fs2, OpenControl.update_component_control fs b = Ok (fs2, VNone))
  /\ OpenControl.update_component_control fs1 b
     = OpenControl.update_component_control fs b
  /\ (ControlImpl.narrative a = ControlImpl.narrative b ->
      OpenControl.update_component_control fs1 b = Ok (fs1, VNone)).
Proof.
  intros Hupdate Hfile Htarget.
  assert (OpenControl.update_component_control fs1 b
          = OpenControl.update_component_control fs b
          /\ exists fs2, OpenControl.update_component_control fs b = Ok (fs2, VNone))
    as [Hagain Hok].
  { revert Hupdate. unfold OpenControl.update_component_control, read_yaml.
    rewrite Hfile.
    destruct (fs !! ControlImpl.source_file b) as [data|] eqn:Hdata;
      cbn -[with_items]; [|done].
    destruct data as [| | | |fields]; cbn -[with_items]; try done.
    destruct (assoc "satisfies" fields) as [satisfies|] eqn:Hs;
      cbn -[with_items]; [|done].
    intros H. apply bind_Ok in H as (entries & Hentries & H).
    apply bind_Ok in H as (entries1 & Hentries1 & H).
    assert (fs1 = <[ControlImpl.source_file b :=
                      with_items (VDict fields) "satisfies" entries1]> fs)
      as -> by congruence.
    clear H.
    destruct (map_res_again _ (OpenControl.update_satisfies_entry b) _ _
                (fun x x1 => update_satisfies_entry_again a b x x1 Htarget)
                Hentries1) as (Hagain & entries2 & Hentries2).
    rewrite lookup_insert_eq. cbn -[with_items]. rewrite Hentries.
    cbn -[with_items]. rewrite Hentries2. cbn -[with_items]. split; [|eauto].
    destruct (with_items_cases fields "satisfies" entries1)
      as [(entries0 & Hs0 & ->)|(Hs0 & ->)].
    - rewrite Hs in Hs0. inversion Hs0; subst. simpl in Hentries.
      inversion Hentries; subst. cbn -[with_items].
      rewrite assoc_set_lookup. cbn -[with_items].
      rewrite Hagain, Hentries2. simpl. rewrite insert_insert_eq.
      by rewrite assoc_set_lookup, Hs, assoc_set_twice.
    - cbn -[with_items]. rewrite Hs. cbn -[with_items]. rewrite Hentries.
      cbn -[with_items]. rewrite Hentries2.
      cbn -[with_items]. by rewrite insert_insert_eq. }
  split; [done|]. split; [done|].
  intros Hnarrative. rewrite Hagain.
  pose proof (update_component_control_returns_none _ _ _ _ Hupdate) as ->.
  rewrite <- Hupdate.
  unfold OpenControl.update_component_control, OpenControl.update_satisfies_entry,
    OpenControl.update_narrative_part.
  unfold same_target in Htarget.
  rewrite !andb_true_iff, !String.eqb_eq, value_eqb_eq in Htarget.
  destruct Htarget as [[-> ->] ->]. by rewrite Hfile, Hnarrative.
Qed.

Lemma update_last_narrative_wins_witness :
  OpenControl.update_component_control
    (<["my project/components/web app/component.yaml"
         := demo_manifest (VStr "Reviewed weekly.")]> demo_fs)
    (demo_controlimpl "a" (VStr "Reviewed daily."))
  = OpenControl.update_component_control demo_fs
      (demo_controlimpl "a" (VStr "Reviewed daily.")).
Proof.
  apply (update_last_narrative_wins demo_fs
           (<["my project/components/web app/component.yaml"
                := demo_manifest (VStr "Reviewed weekly.")]> demo_fs)
           (demo_controlimpl "a" (VStr "Reviewed weekly."))
           (demo_controlimpl "a" (VStr "Reviewed daily.")) VNone).
  - exact demo_update.
  - reflexivity.
  - reflexivity.
Defined.

Lemma gen_for_cons_None {A B} (body : A -> gen B) (x : A) (xs : list A)
    (rs : list B) :
  gen_for body (x :: xs) = (rs, None) ->
  exists ys zs,
    body x = (ys, None) /\ gen_for body xs = (zs, None) /\ rs = ys ++ zs.
Proof.
  simpl. destruct (body x) as [ys [e|]]; [done|].
  destruct (gen_for body xs) as [zs e]. intros [= <- ->]. by exists ys, zs.
Qed.

Lemma gen_for_yield_inv {A B} (f : A -> res B) (items : list A) (rs : list B) :
  gen_for (fun x => gen_yield (f x)) items = (rs, None) ->
  Forall2 (fun x y => f x = Ok y) items rs.
Proof.
  revert rs. induction items as [|x items IH]; intros rs H.
  - inversion H. constructor.
  - apply gen_for_cons_None in H as (ys & zs & Hx & Hrest & ->).
    cbv beta in Hx. unfold gen_yield, gen_raise in Hx.
    destruct (f x) as [y|e] eqn:Hfx; [|done].
    inversion Hx; subst. constructor; [done|by apply IH].
Qed.

Lemma gen_for_map_res {A B} (body : A -> gen B) (f : A -> res A) (g : B -> B)
    (entries : list A) (rs : list B) :
  (forall e rs_e,
     body e = (rs_e, None) ->
     exists e', f e = Ok e' /\ body e' = (map g rs_e, None)) ->
  gen_for body entries = (rs, None) ->
  exists entries',
    map_res f entries = Ok entries'
    /\ gen_for body entries' = (map g rs, None).
Proof.
  intros Hbody. revert rs. induction entries as [|e entries IH]; intros rs H.
  - inversion H. by exists [].
  - apply gen_for_cons_None in H as (ys & zs & He & Hrest & ->).
    destruct (Hbody _ _ He) as (e' & Hf & He').
    destruct (IH _ Hrest) as (entries' & Hmap & Hentries').
    exists (e' :: entries'). simpl. rewrite Hf, Hmap. split; [done|].
    rewrite He', Hentries'. by rewrite map_app.
Qed.

Lemma control_metadata_ids (component : Component.t)
    (standards : gmap string Standard.t) (entry : list (string * value))
    (standard : StandardInfo.t) (family : FamilyInfo.t) (control : ControlInfo.t) :
  catalog_ids_match standards ->
  OpenControl.control_metadata component standards (VDict entry)
    = Ok (standard, family, control) ->
  assoc "standard_key" entry = Some (VStr (StandardInfo.id standard))
  /\ assoc "control_key" entry = Some (VStr (ControlInfo.id control)).
Proof.
  intros Hids. unfold OpenControl.control_metadata. simpl.
  destruct (assoc "standard_key" entry) as [sk|]; simpl; [|done].
  destruct (assoc "control_key" entry) as [ck|]; simpl; [|done].
  destruct ck as [| |ck| |]; simpl; try done.
  rewrite make_key_str. simpl.
  destruct (assoc "name" entry) as [name|]; simpl; [|done].
  destruct sk as [| |sk| |]; simpl; try done.
  destruct (standards !! sk) as [std|] eqn:Hstd; [|by intros [= <- <- <-]].
  destruct (Standard.controls std !! ck) as [c|] eqn:Hc; [|by intros [= <- <- <-]].
  pose proof (Hids _ _ _ _ Hstd Hc) as Hid.
  destruct (dict_lookup _ _) as [[f|]|e]; simpl; [| |done];
    intros [= <- <- <-]; simpl; by rewrite Hid.
Qed.

Lemma control_metadata_narrative (component : Component.t)
    (standards : gmap string Standard.t) (entry : list (string * value))
    (v : value) :
  OpenControl.control_metadata component standards
    (VDict (assoc_set "narrative" v entry))
  = OpenControl.control_metadata component standards (VDict entry).
Proof.
  unfold OpenControl.control_metadata. simpl.
  by rewrite !assoc_set_other.
Qed.

Lemma update_part_then_reload (component : Component.t) (fn : string)
    (metadata : StandardInfo.t * FamilyInfo.t * ControlInfo.t)
    (u : ControlImpl.t) (p : value) (r : ControlImpl.t) :
  OpenControl.controlimpl_of_part component fn metadata p = Ok r ->
  exists p',
    OpenControl.update_narrative_part u p = Ok p'
    /\ OpenControl.controlimpl_of_part component fn metadata p'
       = Ok (if value_eqb (ControlImpl.control_part r) (ControlImpl.control_part u)
             then with_narrative r (ControlImpl.narrative u) else r).
Proof.
  intros Hr. destruct metadata as [[standard family] control].
  pose proof Hr as Hr'.
  apply controlimpl_of_part_Ok in Hr' as (part & k & t & -> & Htext & Hk & Heq).
  unfold OpenControl.update_narrative_part. simpl.
  replace (match assoc "key" part with Some v => v | None => VNone end)
    with (default VNone (assoc "key" part)) by by destruct (assoc "key" part).
  assert (ControlImpl.control_part r = default VNone (assoc "key" part)) as ->
    by by rewrite Heq.
  destruct (value_eqb _ (ControlImpl.control_part u)); [|by exists (VDict part)].
  eexists. split; [reflexivity|].
  unfold OpenControl.controlimpl_of_part. simpl.
  rewrite assoc_set_other by done. rewrite assoc_set_lookup.
  replace (match assoc "key" part with Some v => v | None => VNone end)
    with (default VNone (assoc "key" part)) by by destruct (assoc "key" part).
  rewrite Hk. simpl. by rewrite Heq.
Qed.

Lemma update_parts_then_reload (component : Component.t) (fn : string)
    (metadata : StandardInfo.t * FamilyInfo.t * ControlInfo.t)
    (u : ControlImpl.t) (parts : list value) (rs : list ControlImpl.t) :
  Forall2 (fun p r => OpenControl.controlimpl_of_part component fn metadata p = Ok r)
          parts rs ->
  exists parts',
    map_res (OpenControl.update_narrative_part u) parts = Ok parts'
    /\ Forall2 (fun p r =>
                  OpenControl.controlimpl_of_part component fn metadata p = Ok r)
         parts'
         (map (fun r =>
                 if value_eqb (ControlImpl.control_part r)
                              (ControlImpl.control_part u)
                 then with_narrative r (ControlImpl.narrative u) else r) rs).
Proof.
  induction 1 as [|p r parts rs Hp Hrest (parts' & Hmap & Hparts')].
  - exists []. split; [done|constructor].
  - destruct (update_part_then_reload _ _ _ u _ _ Hp) as (p' & Hupdate & Hp').
    exists (p' :: parts'). simpl. rewrite Hupdate, Hmap. split; [done|].
    by constructor.
Qed.

Lemma parts_records (component : Component.t) (fn : string)
    (standard : StandardInfo.t) (family : FamilyInfo.t) (control : ControlInfo.t)
    (parts : list value) (rs : list ControlImpl.t) :
  Forall2 (fun p r => OpenControl.controlimpl_of_part component fn
                        (standard, family, control) p = Ok r) parts rs ->
  Forall (fun r => ControlImpl.standard r = standard
                   /\ ControlImpl.control r = control
                   /\ ControlImpl.source_file r = fn) rs
  /\ Forall (fun p => is_dict p = true) parts.
Proof.
  induction 1 as [|p r parts rs Hp Hrest [IHrs IHparts]]; [by split|].
  apply controlimpl_of_part_Ok in Hp as (part & k & t & -> & _ & _ & ->).
  split; by constructor.
Qed.

Lemma update_entry_then_reload (component : Component.t)
    (standards : gmap string Standard.t) (fn : string) (u : ControlImpl.t)
    (e : value) (rs : list ControlImpl.t) :
  catalog_ids_match standards ->
  OpenControl.controls_of_entry component standards fn e = (rs, None) ->
  exists e',
    OpenControl.update_satisfies_entry u e = Ok e'
    /\ OpenControl.controls_of_entry component standards fn e'
       = (map (retarget u) rs, None).
Proof.
  intros Hids H. pose proof H as Hload.
  unfold OpenControl.controls_of_entry, gen_bind in H.
  destruct (OpenControl.control_metadata component standards e)
    as [[[standard family] control]|] eqn:Hmetadata; [|done].
  destruct e as [| | | |entry]; try done.
  destruct (control_metadata_ids _ _ _ _ _ _ Hids Hmetadata) as [Hsk Hck].
  cbn [py_get bind] in H.
  replace (match assoc "narrative" entry with Some v => v | None => VList [] end)
    with (default (VList []) (assoc "narrative" entry)) in H
    by by destruct (assoc "narrative" entry).
  destruct (py_iter _) as [parts|] eqn:Hparts; [|done].
  apply gen_for_yield_inv in H. rename H into Hrs.
  destruct (parts_records _ _ _ _ _ _ _ Hrs) as [Hrecords Hdicts].
  unfold OpenControl.update_satisfies_entry. cbn -[with_items].
  rewrite Hsk, Hck. cbn -[with_items].
  assert (forall r, r ∈ rs ->
            same_target r u
            = String.eqb (StandardInfo.id standard)
                         (StandardInfo.id (ControlImpl.standard u))
              && String.eqb (ControlInfo.id control)
                            (ControlInfo.id (ControlImpl.control u))
              && value_eqb (ControlImpl.control_part r)
                           (ControlImpl.control_part u)) as Htarget.
  { intros r Hr. rewrite Forall_forall in Hrecords.
    destruct (Hrecords r Hr) as (Hs & Hc & _).
    unfold same_target. by rewrite Hs, Hc. }
  destruct (String.eqb (StandardInfo.id standard) _) eqn:Hsid; cycle 1.
  { exists (VDict entry). split; [done|]. rewrite Hload. f_equal.
    rewrite <- (map_id rs) at 1. apply map_ext_in. intros r Hr%list_elem_of_In.
    unfold retarget. by rewrite (Htarget r Hr). }
  destruct (String.eqb (ControlInfo.id control) _) eqn:Hcid; cycle 1.
  { exists (VDict entry). split; [done|]. rewrite Hload. f_equal.
    rewrite <- (map_id rs) at 1. apply map_ext_in. intros r Hr%list_elem_of_In.
    unfold retarget. by rewrite (Htarget r Hr). }
  replace (match assoc "narrative" entry with Some v => v | None => VList [] end)
    with (default (VList []) (assoc "narrative" entry))
    by by destruct (assoc "narrative" entry).
  rewrite Hparts. cbn -[with_items].
  destruct (update_parts_then_reload _ _ _ u _ _ Hrs) as (parts' & Hmap & Hparts').
  rewrite Hmap. cbn -[with_items]. eexists. split; [reflexivity|].
  assert (map (retarget u) rs
          = map (fun r =>
                   if value_eqb (ControlImpl.control_part r)
                                (ControlImpl.control_part u)
                   then with_narrative r (ControlImpl.narrative u) else r) rs)
    as ->.
  { apply map_ext_in. intros r Hr%list_elem_of_In.
    unfold retarget. by rewrite (Htarget r Hr). }
  destruct (with_items_cases entry "narrative" parts')
    as [(parts0 & Hn & ->)|(Hn & ->)].
  - rewrite Hn in Hparts. simpl in Hparts. inversion Hparts; subst.
    unfold OpenControl.controls_of_entry.
    rewrite control_metadata_narrative, Hmetadata. simpl.
    rewrite assoc_set_lookup. simpl.
    by apply gen_for_yield_all.
  - destruct parts as [|p parts].
    + inversion Hrs; subst. simpl. exact Hload.
    + inversion Hdicts as [|? ? Hp _]; subst.
      destruct p as [| | | |part]; try done.
      assert (default (VList []) (assoc "narrative" entry)
              = VList (VDict part :: parts)) as Hlist.
      { eapply py_iter_dicts; [exact Hparts|left]. }
      destruct (assoc "narrative" entry) as [narrative|]; simpl in Hlist; [|done].
      subst narrative. by destruct (Hn (VDict part :: parts)).
Qed.

Lemma same_target_refl (r : ControlImpl.t) (t : value) :
  same_target r (with_narrative r t) = true.
Proof.
  unfold same_target. simpl. rewrite !String.eqb_refl. simpl.
  by apply value_eqb_eq.
Qed.

(** X15: what is written can be read back.  If the aggregator ran to its
    end and the standards store each control under its own id, then
    updating with a record it yielded, carrying a new narrative, succeeds
    and changes only the record's source file; loading again yields the
    same records in the same order, except that those with the record's
    standard, control and part now carry the new narrative. *)
Theorem update_then_reload (fs : gmap string value) (component : Component.t)
    (standards : gmap string Standard.t) (rs : list ControlImpl.t)
    (r : ControlImpl.t) (t : value) :
  catalog_ids_match standards ->
  OpenControl.load_project_component_controls fs component standards = (rs, None) ->
  r ∈ rs ->
  exists fs',
    OpenControl.update_component_control fs (with_narrative r t) = Ok (fs', VNone)
    /\ OpenControl.load_project_component_controls fs' component standards
       = (map (retarget (with_narrative r t)) rs, None)
    /\ with_narrative r t ∈ map (retarget (with_narrative r t)) rs
    /\ forall path, path <> ControlImpl.source_file r -> fs' !! path = fs !! path.
Proof.
  intros Hids Hload Hr.
  assert (r ∈ fst (OpenControl.load_project_component_controls fs component
                     standards)) as Hin by by rewrite Hload.
  apply load_project_component_controls_elem in Hin
    as (manifest & entries & entry & Hfile & Hversion & Hsatisfies & _ & Hentry).
  apply controls_of_entry_elem in Hentry
    as (entry0 & [[standard family] control] & parts & part & _ & _ & _ & _
        & Hpart).
  apply controlimpl_of_part_Ok in Hpart as (part0 & k & t0 & _ & _ & _ & Hrecord).
  assert (ControlImpl.source_file r
          = path_join (Component.path component) ["component.yaml"]) as Hsource
    by by rewrite Hrecord.
  rewrite (load_project_component_controls_entries _ _ _ _ _
             Hfile Hversion Hsatisfies) in Hload.
  destruct (gen_for_map_res _
              (OpenControl.update_satisfies_entry (with_narrative r t))
              (retarget (with_narrative r t)) entries rs
              (fun e rs_e => update_entry_then_reload component standards _
                               (with_narrative r t) e rs_e Hids) Hload)
    as (entries' & Hmap & Hreload).
  exists (<[ControlImpl.source_file r :=
             VDict (assoc_set "satisfies" (VList entries') manifest)]> fs).
  split; [|split; [|split]].
  - unfold OpenControl.update_component_control, read_yaml.
    cbn [with_narrative ControlImpl.source_file].
    rewrite Hsource, Hfile. simpl. rewrite Hsatisfies. simpl.
    by rewrite Hmap.
  - rewrite Hsource.
    rewrite (load_project_component_controls_entries _ _ _
               (assoc_set "satisfies" (VList entries') manifest) entries').
    + exact Hreload.
    + apply lookup_insert_eq.
    + by rewrite assoc_set_other.
    + apply assoc_set_lookup.
  - apply list_elem_of_fmap. exists r. split; [|done].
    unfold retarget. by rewrite same_target_refl.
  - intros path Hpath. by rewrite lookup_insert_ne.
Qed.

Lemma demo_catalog_ids_match : catalog_ids_match demo_standards.
Proof.
  intros sk s ck c Hs Hc. unfold demo_standards in Hs.
  apply lookup_singleton_Some in Hs as [<- <-]. simpl in Hc.
  by apply lookup_singleton_Some in Hc as [<- <-].
Qed.

Lemma update_then_reload_witness :
  exists fs',
    OpenControl.update_component_control demo_fs
      (with_narrative (demo_controlimpl "b" (VStr "Accounts expire."))
                      (VStr "Accounts expire after a year."))
    = Ok (fs', VNone)
    /\ OpenControl.load_project_component_controls fs' demo_component demo_standards
       = ([demo_controlimpl "a" (VStr "Accounts are reviewed.");
           demo_controlimpl "b" (VStr "Accounts expire after a year.")], None).
Proof.
  destruct (update_then_reload demo_fs demo_component demo_standards
              [demo_controlimpl "a" (VStr "Accounts are reviewed.");
               demo_controlimpl "b" (VStr "Accounts expire.")]
              (demo_controlimpl "b" (VStr "Accounts expire."))
              (VStr "Accounts expire after a year.")
              demo_catalog_ids_match)
    as (fs' & Hupdate & Hreload & _).
  - vm_compute. reflexivity.
  - right. left.
  - exists fs'. split; [exact Hupdate|exact Hreload].
Defined.

(** X16: the updater and the aggregator treat a manifest differently.  A
    manifest without [satisfies] yields no records when its schema version
    is right, but updating it raises KeyError and writes nothing; and the
    updater never looks at the schema version: on a manifest the
    aggregator rejects, an update whose target is absent succeeds and leaves
    the file as it is. *)
Theorem updater_checks_differ_from_aggregator (fs : gmap string value)
    (component : Component.t) (standards : gmap string Standard.t)
    (u : ControlImpl.t) (manifest : list (string * value)) :
  let fn := path_join (Component.path component) ["component.yaml"] in
  fs !! fn = Some (VDict manifest) ->
  ControlImpl.source_file u = fn ->
  (assoc "schema_version" manifest = Some (VStr "3.0.0") ->
   assoc "satisfies" manifest = None ->
   OpenControl.load_project_component_controls fs component standards = ([], None)
   /\ OpenControl.update_component_control fs u = Raise (KeyError "satisfies"))
  /\ (assoc "schema_version" manifest <> Some (VStr "3.0.0") ->
      well_formed_component (VDict manifest) = true ->
      has_match u (VDict manifest) = false ->
      OpenControl.load_project_component_controls fs component standards
      = ([], Some (ValueError
           "Don't know how to read OpenControl component file {} which has schema_version {}."
           [VStr fn; default VNone (assoc "schema_version" manifest)]))
      /\ OpenControl.update_component_control fs u = Ok (fs, VNone)).
Proof.
  intros fn Hfile Hsource. split.
  - intros Hversion Hsatisfies. split.
    + unfold OpenControl.load_project_component_controls, read_yaml.
      fold fn. rewrite Hfile. simpl. by rewrite Hversion, Hsatisfies.
    + unfold OpenControl.update_component_control, read_yaml.
      rewrite Hsource, Hfile. simpl. by rewrite Hsatisfies.
  - intros Hversion Hwf Hmiss. split.
    + unfold OpenControl.load_project_component_controls, read_yaml.
      fold fn. rewrite Hfile. simpl.
      destruct (assoc "schema_version" manifest) as [v|] eqn:Hv; simpl; [|done].
      assert (value_eqb v (VStr "3.0.0") = false) as ->; [|done].
      apply value_eqb_neq. congruence.
    + apply (update_without_match fs u (VDict manifest)); [|done..].
      by rewrite Hsource.
Qed.

Lemma updater_checks_differ_from_aggregator_witness :
  (OpenControl.load_project_component_controls
     (<["my project/components/web app/component.yaml"
          := VDict [("schema_version", VStr "3.0.0")]]> demo_fs)
     demo_component demo_standards = ([], None)
   /\ OpenControl.update_component_control
        (<["my project/components/web app/component.yaml"
             := VDict [("schema_version", VStr "3.0.0")]]> demo_fs)
        (demo_controlimpl "a" (VStr "Reviewed weekly."))
      = Raise (KeyError "satisfies"))
  /\ OpenControl.update_component_control
       (<["my project/components/web app/component.yaml"
            := VDict [("schema_version", VStr "2.0.0");
                      ("satisfies", VList [])]]> demo_fs)
       (demo_controlimpl "a" (VStr "Reviewed weekly."))
     = Ok (<["my project/components/web app/component.yaml"
               := VDict [("schema_version", VStr "2.0.0");
                         ("satisfies", VList [])]]> demo_fs, VNone).
Proof.
  split.
  - apply (updater_checks_differ_from_aggregator
             (<["my project/components/web app/component.yaml"
                  := VDict [("schema_version", VStr "3.0.0")]]> demo_fs)
             demo_component demo_standards
             (demo_controlimpl "a" (VStr "Reviewed weekly."))
             [("schema_version", VStr "3.0.0")]);
      vm_compute; reflexivity.
  - apply (updater_checks_differ_from_aggregator
             (<["my project/components/web app/component.yaml"
                  := VDict [("schema_version", VStr "2.0.0");
                            ("satisfies", VList [])]]> demo_fs)
             demo_component demo_standards
             (demo_controlimpl "a" (VStr "Reviewed weekly."))
             [("schema_version", VStr "2.0.0"); ("satisfies", VList [])]);
      try (vm_compute; reflexivity).
    discriminate.
Defined.

(** ** The control resolver on whole catalogs *)

Lemma get_contol_loop_total (standard : list (string * value))
    (control_id : string) (parts : list string) (indices : list nat) :
  (forall k v, assoc k standard = Some v -> catalog_entry_ok v = true) ->
  exists r suffix,
    Routes.get_contol_loop standard control_id parts indices = Ok r
    /\ Resolved.id r = control_id +:+ suffix
    /\ (suffix = "" \/ exists i, suffix = join (skipn (i + 1) parts)).
Proof.
  intros Hok. induction indices as [|i indices IH]; simpl.
  - eexists _, "". split; [reflexivity|]. simpl. rewrite app_empty_r. auto.
  - destruct (assoc _ standard) as [entry|] eqn:Hentry; [|exact IH].
    apply Hok in Hentry. destruct entry as [| | | |fields]; simpl in *; try done.
    destruct (assoc "name" fields) as [[| |name| |]|]; simpl; try done.
    unfold has_key in Hentry.
    destruct (String.eqb (join (skipn (i + 1) parts)) "") eqn:Hrest; simpl.
    + destruct (assoc "description" fields) as [d|]; simpl; [|done].
      eexists _, "". split; [reflexivity|]. simpl. auto.
    + eexists _, _. split; [reflexivity|]. simpl. split; [done|].
      right. by exists i.
Qed.

(** X17: on a catalog whose entries are all mappings with a string [name]
    and a [description], the resolver returns a result for every control id
    whatsoever; the id of the result is the requested id, followed, when
    the resolver backed off to a shorter key, by the part of the id it
    dropped.  What makes it raise is a malformed entry: resolving the key
    of an entry that is a scalar raises TypeError. *)
Theorem resolver_total_on_catalog (standard : list (string * value))
    (control_id : string) :
  ((forall k v, assoc k standard = Some v -> catalog_entry_ok v = true) ->
   exists r suffix,
     Routes.get_contol standard control_id = Ok r
     /\ Resolved.id r = control_id +:+ suffix
     /\ (suffix = ""
         \/ exists i, suffix
                      = join (skipn (i + 1) (re_split match_separator control_id))))
  /\ (forall v,
        assoc control_id standard = Some v -> is_dict v = false ->
        Routes.get_contol standard control_id = Raise TypeError).
Proof.
  split.
  - intros Hok. by apply get_contol_loop_total.
  - intros v Hv Hscalar.
    pose proof (re_split_length control_id) as Hlen.
    set (parts := re_split match_separator control_id) in *.
    assert (join (firstn (length parts - 1 + 1) parts) = control_id) as Hjoin.
    { replace (length parts - 1 + 1) with (length parts) by lia.
      rewrite firstn_all. apply join_re_split. }
    rewrite (get_contol_at standard control_id (length parts - 1) v).
    + fold parts. cbn [Routes.get_contol_loop]. rewrite Hjoin, Hv.
      destruct v as [| | |l|]; simpl in *; try done.
    + fold parts. lia.
    + fold parts. by rewrite Hjoin.
    + fold parts. intros j Hj. lia.
Qed.

Lemma resolver_total_on_catalog_witness :
  (exists r suffix,
     Routes.get_contol demo_catalog "AC-2 (H)" = Ok r
     /\ Resolved.id r = "AC-2 (H)" +:+ suffix
     /\ (suffix = ""
         \/ exists i, suffix
                      = join (skipn (i + 1) (re_split match_separator "AC-2 (H)"))))
  /\ Routes.get_contol (("name", VStr "NIST SP 800-53") :: demo_catalog) "name"
     = Raise TypeError.
Proof.
  split.
  - apply (proj1 (resolver_total_on_catalog demo_catalog "AC-2 (H)")).
    intros k v. unfold demo_catalog. cbn [assoc].
    destruct (String.eqb "AC-2" k); [|done]. by intros [= <-].
  - apply (proj2 (resolver_total_on_catalog
                    (("name", VStr "NIST SP 800-53") :: demo_catalog) "name")
             (VStr "NIST SP 800-53")); reflexivity.
Defined.

(** ** Cleaning text twice *)

Lemma span_run_nth (p : ascii -> bool) (l : list ascii) (i : nat) :
  i < length (fst (span p l)) ->
  exists x, nth_error l i = Some x /\ p x = true.
Proof.
  revert i. induction l as [|c l IH]; intros i; simpl; [lia|].
  destruct (p c) eqn:Hc; simpl; [|lia].
  destruct (span p l) as [run rest] eqn:Hspan. simpl in *.
  destruct i as [|i]; simpl; [eauto|].
  intros Hi. apply IH. lia.
Qed.

Lemma tidy_nth (l : list ascii) :
  tidy l = true ->
  forall i x y, nth_error l i = Some x -> nth_error l (S i) = Some y ->
    is_space x = true -> is_newline y = false.
Proof.
  induction l as [|c l IH]; intros Htidy i x y Hx Hy Hspace; [by destruct i|].
  cbn [tidy] in Htidy. apply andb_true_iff in Htidy as [Hhead Htail].
  destruct i as [|i]; simpl in Hx, Hy.
  - inversion Hx; subst. rewrite Hspace in Hhead.
    destruct l as [|c' l]; [done|]. simpl in Hy. inversion Hy; subst.
    simpl in Hhead. by destruct (is_newline y).
  - by apply (IH Htail i x y).
Qed.

Lemma tidy_no_match (l : list ascii) :
  tidy l = true -> match_space_newline l = None.
Proof.
  intros Htidy. destruct (match_space_newline l) as [[m rest]|] eqn:Hmatch; [|done].
  unfold match_space_newline in Hmatch.
  apply give_back_Some in Hmatch as (k & c & [Hk1 Hk2] & Hc & Hnewline & _).
  destruct k as [|k]; [lia|].
  destruct (span_run_nth is_space l k) as (x & Hx & Hspace); [lia|].
  rewrite (tidy_nth l Htidy k x c Hx Hc Hspace) in Hnewline. done.
Qed.

Lemma re_sub_tidy_fixed (fuel : nat) :
  forall l, tidy l = true -> re_sub_from fuel match_space_newline [newline] l = l.
Proof.
  induction fuel as [|fuel IH]; intros l Htidy; [done|].
  destruct l as [|c l]; [done|]. cbn [re_sub_from].
  rewrite tidy_no_match by done. f_equal. apply IH.
  cbn [tidy] in Htidy. by apply andb_true_iff in Htidy as [_ ?].
Qed.

(** X18: cleaning is idempotent: [clean_text] returns [None] or a string,
    and a string it returned is returned unchanged when it is cleaned
    again. *)
Theorem clean_text_idempotent (t : string) :
  (Routes.clean_text t = VNone \/ exists s, Routes.clean_text t = VStr s)
  /\ forall s, Routes.clean_text t = VStr s -> Routes.clean_text s = VStr s.
Proof.
  split.
  - unfold Routes.clean_text. destruct (String.eqb _ ""); eauto.
  - intros s Hclean.
    pose proof (clean_text_normalized t) as Hnormal. rewrite Hclean in Hnormal.
    simpl in Hnormal. apply andb_true_iff in Hnormal as [Hnormal Htidy].
    apply andb_true_iff in Hnormal as [Hnonempty Hstrip].
    apply String.eqb_eq in Hstrip.
    unfold Routes.clean_text. rewrite Hstrip. unfold re_sub.
    rewrite re_sub_tidy_fixed by done. rewrite text_chars.
    by apply negb_true_iff in Hnonempty as ->.
Qed.

Lemma clean_text_idempotent_witness :
  Routes.clean_text ("Reviewed weekly." +:+ String newline "" +:+ "By the owner.")
  = VStr ("Reviewed weekly." +:+ String newline "" +:+ "By the owner.").
Proof.
  apply (proj2 (clean_text_idempotent
                  ("  Reviewed weekly.  " +:+ String newline ""
                   +:+ "By the owner. "))).
  reflexivity.
Defined.

(** ** What [update_control] leaves alone *)

Lemma apply_form_frame (form : gmap string string) (e e' : value) :
  Routes.apply_form form e = Ok e' ->
  exists fields fields',
    e = VDict fields /\ e' = VDict fields'
    /\ forall key,
         key <> "summary" -> key <> "narrative" -> key <> "implementation_status" ->
         assoc key fields' = assoc key fields.
Proof.
  unfold Routes.apply_form. destruct e as [| | | |fields]; simpl; try done.
  intros [= <-]. eexists _, _. split; [done|]. split; [done|].
  intros key H1 H2 H3.
  rewrite !assoc_set_other; [done|by apply String.eqb_neq..].
Qed.

Lemma update_first_match_frame (form : gmap string string)
    (entries entries' : list value) :
  Routes.update_first_match form entries = Ok (Some entries') ->
  exists before e after e',
    entries = before ++ e :: after
    /\ entries' = before ++ e' :: after
    /\ Forall (fun x => Routes.form_matches form x = Ok false) before
    /\ Routes.form_matches form e = Ok true
    /\ Routes.apply_form form e = Ok e'.
Proof.
  revert entries'. induction entries as [|x entries IH]; simpl; intros entries' H;
    [done|].
  apply bind_Ok in H as (hit & Hhit & H). destruct hit.
  - apply bind_Ok in H as (e' & He' & H). injection H as <-.
    exists [], x, entries, e'. by repeat split.
  - apply bind_Ok in H as (found & Hfound & H).
    destruct found as [found|]; simpl in H; [|done]. injection H as <-.
    destruct (IH _ Hfound) as (before & e & after & e' & -> & -> & Hbefore & He & He').
    exists (x :: before), e, after, e'. repeat split; try done. by constructor.
Qed.

Lemma update_first_match_None (form : gmap string string) (entries : list value) :
  Routes.update_first_match form entries = Ok None ->
  Forall (fun x => Routes.form_matches form x = Ok false) entries.
Proof.
  induction entries as [|x entries IH]; simpl; intros H; [constructor|].
  apply bind_Ok in H as (hit & Hhit & H). destruct hit.
  - by apply bind_Ok in H as (e' & _ & H).
  - apply bind_Ok in H as (found & Hfound & H).
    destruct found as [found|]; simpl in H; [done|].
    constructor; [done|by apply IH].
Qed.

(** X19: [update_control] changes at most one entry of one file.  When it
    answers "NOTFOUND", nothing was written and every file was read and
    had no matching entry.  When it answers "OK", the entry changed is the
    first matching entry of the first file that has one: the files listed
    before that file were read and had no matching entry, the entries
    before it in that file did not match, the entries after it (matching or
    not) and all other files are as they were, and in the entry itself
    every field but [summary], [narrative] and [implementation_status] is
    as it was.  It gives no other answer. *)
Theorem update_control_changes_first_match (control_files : list string)
    (form : gmap string string) (fs fs' : gmap string value) (answer : value) :
  Routes.update_control control_files form fs = Ok (fs', answer) ->
  (answer = VStr "NOTFOUND" /\ fs' = fs
   /\ Forall (passed_over form fs) control_files)
  \/ (answer = VStr "OK"
      /\ exists earlier file later data before entry after entry',
           control_files = earlier ++ file :: later
           /\ Forall (passed_over form fs) earlier
           /\ fs !! file = Some (VDict data)
           /\ assoc "satisfies" data = Some (VList (before ++ VDict entry :: after))
           /\ fs' = <[file := VDict (assoc_set "satisfies"
                                       (VList (before ++ VDict entry' :: after))
                                       data)]> fs
           /\ Forall (fun x => Routes.form_matches form x = Ok false) before
           /\ Routes.form_matches form (VDict entry) = Ok true
           /\ (forall key,
                 key <> "summary" -> key <> "narrative" ->
                 key <> "implementation_status" ->
                 assoc key entry' = assoc key entry)).
Proof.
  revert fs'. induction control_files as [|file files IH]; simpl; intros fs' H.
  - injection H as <- <-. left. by repeat split.
  - unfold read_yaml in H.
    destruct (fs !! file) as [doc|] eqn:Hfile; simpl in H; [|done].
    apply bind_Ok in H as (satisfies & Hsatisfies & H).
    apply bind_Ok in H as (entries & Hentries & H).
    apply bind_Ok in H as (found & Hfound & H).
    destruct found as [entries'|].
    + right. assert (answer = VStr "OK") as -> by congruence. split; [done|].
      rewrite (update_first_match_list _ _ _ _ Hentries Hfound) in Hsatisfies.
      destruct doc as [| | | |data]; simpl in Hsatisfies; try done.
      destruct (assoc "satisfies" data) as [v|] eqn:Hv; [|done].
      injection Hsatisfies as ->.
      apply update_first_match_frame in Hfound
        as (before & e & after & e' & -> & -> & Hbefore & He & He').
      apply apply_form_frame in He' as (entry & entry' & -> & -> & Hframe).
      exists [], file, files, data, before, entry, after, entry'.
      split; [done|]. split; [constructor|]. split; [done|]. split; [done|].
      split; [|done].
      unfold with_items in H. rewrite Hv in H. congruence.
    + assert (passed_over form fs file) as Hpassed.
      { exists doc, entries. split; [done|]. split.
        - by rewrite Hsatisfies.
        - by apply update_first_match_None. }
      destruct (IH _ H) as [(-> & -> & Hall)|(-> & earlier & file' & later & data
                                     & before & entry & after & entry' & -> & Hearlier
                                     & Hrest)].
      * left. split; [done|]. split; [done|]. by constructor.
      * right. split; [done|].
        exists (file :: earlier), file', later, data, before, entry, after, entry'.
        split; [done|]. split; [by constructor|done].
Qed.

Example legacy_update_db_first :
  Routes.update_control legacy_files_db_first legacy_form legacy_fs_two
  = Ok (<["components/web/AC.yaml" :=
            VDict [("name", VStr "web");
                   ("satisfies", VList [
                      VDict [("control_key", VStr "AC-1");
                             ("narrative", VStr "Policy is documented.")];
                      VDict [("control_key", VStr "AC-2");
                             ("narrative",
                              VStr ("Reviewed weekly." +:+ String newline ""
                                    +:+ "By the owner."));
                             ("implementation_status", VNone);
                             ("summary", VNone)]])]]> legacy_fs_two,
        VStr "OK").
Proof. vm_compute. reflexivity. Qed.

Lemma update_control_changes_first_match_witness :
  exists earlier file later data before entry after entry',
    legacy_files_db_first = earlier ++ file :: later
    /\ Forall (passed_over legacy_form legacy_fs_two) earlier
    /\ legacy_fs_two !! file = Some (VDict data)
    /\ assoc "satisfies" data = Some (VList (before ++ VDict entry :: after))
    /\ Forall (fun x => Routes.form_matches legacy_form x = Ok false) before
    /\ Routes.form_matches legacy_form (VDict entry) = Ok true
    /\ (forall key,
          key <> "summary" -> key <> "narrative" ->
          key <> "implementation_status" ->
          assoc key entry' = assoc key entry).
Proof.
  destruct (update_control_changes_first_match legacy_files_db_first
              legacy_form legacy_fs_two _ _ legacy_update_db_first)
    as [[Hanswer _]|[_ (earlier & file & later & data & before & entry & after
                        & entry' & Hfiles & Hearlier & Hfile & Hsatisfies & _
                        & Hbefore & Hmatch & Hframe)]];
    [discriminate|].
  by exists earlier, file, later, data, before, entry, after, entry'.
Defined.

(** ** Fragment keys that are not strings *)

Lemma make_key_falsy (v : value) :
  truthy v = false -> OpenControl.make_control_number_sort_key v = Ok [PStr ""].
Proof.
  intros Hv. unfold OpenControl.make_control_number_sort_key, py_or.
  by rewrite Hv.
Qed.

Lemma make_key_not_str (v : value) :
  truthy v = true -> is_str v = false ->
  OpenControl.make_control_number_sort_key v = Raise TypeError.
Proof.
  intros Hv Hstr. unfold OpenControl.make_control_number_sort_key, py_or.
  rewrite Hv. by destruct v.
Qed.

(** X20: the key builder takes strings and false values only.  Every
    false value ([None], the empty string, zero, an empty list or mapping)
    has the key of the empty string; any other value that is not a string
    raises TypeError.  So a fragment whose [key] is a non-zero number, as
    YAML reads [key: 1], stops the aggregator with TypeError: when it is
    the first fragment of the first entry, before anything is yielded. *)
Theorem sort_key_needs_strings :
  (forall v, truthy v = false ->
     OpenControl.make_control_number_sort_key v = Ok [PStr ""])
  /\ (forall v, truthy v = true -> is_str v = false ->
        OpenControl.make_control_number_sort_key v = Raise TypeError)
  /\ (forall fs component standards manifest entry later metadata part more key,
        fs !! path_join (Component.path component) ["component.yaml"]
          = Some (VDict manifest) ->
        assoc "schema_version" manifest = Some (VStr "3.0.0") ->
        assoc "satisfies" manifest = Some (VList (VDict entry :: later)) ->
        OpenControl.control_metadata component standards (VDict entry)
          = Ok metadata ->
        assoc "narrative" entry = Some (VList (VDict part :: more)) ->
        assoc "key" part = Some key ->
        truthy key = true -> is_str key = false ->
        OpenControl.load_project_component_controls fs component standards
        = ([], Some TypeError)).
Proof.
  split; [exact make_key_falsy|]. split; [exact make_key_not_str|].
  intros fs component standards manifest entry later [[standard family] control]
    part more key Hfile Hversion Hsatisfies Hmetadata Hnarrative Hkey Htruthy Hstr.
  rewrite (load_project_component_controls_entries _ _ _ _ _
             Hfile Hversion Hsatisfies).
  assert (forall fn,
            OpenControl.controls_of_entry component standards fn (VDict entry)
            = ([], Some TypeError)) as Hentry.
  { intros fn. unfold OpenControl.controls_of_entry. rewrite Hmetadata.
    cbn -[OpenControl.make_control_number_sort_key]. rewrite Hnarrative.
    cbn -[OpenControl.make_control_number_sort_key]. rewrite Hkey.
    by rewrite (make_key_not_str key Htruthy Hstr). }
  cbn [gen_for]. by rewrite Hentry.
Qed.

Lemma sort_key_needs_strings_witness :
  OpenControl.load_project_component_controls demo_fs_numbered demo_component
    demo_standards
  = ([], Some TypeError).
Proof.
  eapply (proj2 (proj2 sort_key_needs_strings) demo_fs_numbered demo_component
            demo_standards _ _ _ _ _ _ (VInt 1));
    reflexivity.
Defined.

(** ** Updates of different fragments *)

Lemma with_items_twice (d : value) (key : string) (items items' : list value) :
  with_items (with_items d key items) key items' = with_items d key items'.
Proof.
  destruct d as [| | | |fields]; try done.
  destruct (with_items_cases fields key items) as [(items0 & Hkey & ->)|(Hkey & ->)];
    [|done].
  unfold with_items. by rewrite assoc_set_lookup, Hkey, assoc_set_twice.
Qed.

Lemma with_items_not_list (fields : list (string * value)) (key : string)
    (items : list value) :
  (forall l, assoc key fields <> Some (VList l)) ->
  with_items (VDict fields) key items = VDict fields.
Proof.
  intros Hkey. unfold with_items.
  destruct (assoc key fields) as [[| | |l|]|]; try done. by destruct (Hkey l).
Qed.

Lemma map_res_commute {A} (f g : A -> res A) (l l1 l2 : list A) :
  (forall x x1 x2, f x = Ok x1 -> g x1 = Ok x2 ->
     exists x1', g x = Ok x1' /\ f x1' = Ok x2) ->
  map_res f l = Ok l1 -> map_res g l1 = Ok l2 ->
  exists l1', map_res g l = Ok l1' /\ map_res f l1' = Ok l2.
Proof.
  intros Hfg. revert l1 l2. induction l as [|x l IH]; simpl; intros l1 l2 H1 H2.
  - injection H1 as <-. simpl in H2. injection H2 as <-. by exists [].
  - apply bind_Ok in H1 as (x1 & Hx1 & H1). apply bind_Ok in H1 as (l1' & Hl1 & H1).
    injection H1 as <-. simpl in H2.
    apply bind_Ok in H2 as (x2 & Hx2 & H2). apply bind_Ok in H2 as (l2' & Hl2 & H2).
    injection H2 as <-.
    destruct (Hfg _ _ _ Hx1 Hx2) as (y & Hy1 & Hy2).
    destruct (IH _ _ Hl1 Hl2) as (m & Hm1 & Hm2).
    exists (y :: m). simpl. by rewrite Hy1, Hm1, Hy2, Hm2.
Qed.

Lemma update_narrative_part_commute (a b : ControlImpl.t) (p p1 p2 : value) :
  ControlImpl.control_part a <> ControlImpl.control_part b ->
  OpenControl.update_narrative_part a p = Ok p1 ->
  OpenControl.update_narrative_part b p1 = Ok p2 ->
  exists p1',
    OpenControl.update_narrative_part b p = Ok p1'
    /\ OpenControl.update_narrative_part a p1' = Ok p2.
Proof.
  intros Hne. unfold OpenControl.update_narrative_part.
  destruct p as [| | | |fields]; simpl; try done.
  destruct (value_eqb _ (ControlImpl.control_part a)) eqn:Ha.
  - assert (value_eqb (match assoc "key" fields with Some v => v | None => VNone end)
              (ControlImpl.control_part b) = false) as Hb.
    { apply value_eqb_neq. apply value_eqb_eq in Ha. congruence. }
    intros [= <-]. simpl. rewrite assoc_set_other by done. rewrite Hb.
    intros [= <-]. exists (VDict fields). split; [done|]. simpl. by rewrite Ha.
  - intros [= <-]. simpl.
    destruct (value_eqb _ (ControlImpl.control_part b)) eqn:Hb; intros [= <-].
    + eexists. split; [reflexivity|]. simpl.
      rewrite assoc_set_other by done. by rewrite Ha.
    + exists (VDict fields). split; [done|]. simpl. by rewrite Ha.
Qed.

(** How [update_satisfies_entry] goes on a mapping, by the test of its
    loop. *)
Lemma update_satisfies_entry_hit (u : ControlImpl.t) (fields : list (string * value)) :
  entry_matches u fields = true ->
  OpenControl.update_satisfies_entry u (VDict fields)
  = let* parts := py_iter (default (VList []) (assoc "narrative" fields)) in
    let* parts' := map_res (OpenControl.update_narrative_part u) parts in
    Ok (with_items (VDict fields) "narrative" parts').
Proof.
  unfold entry_matches, OpenControl.update_satisfies_entry.
  cbn -[with_items].
  destruct (assoc "standard_key" fields) as [sk|]; [|done].
  destruct (assoc "control_key" fields) as [ck|]; [|done].
  intros [Hs Hc]%andb_true_iff. cbn -[with_items]. rewrite Hs.
  cbn -[with_items]. rewrite Hc.
  by destruct (assoc "narrative" fields).
Qed.

Lemma update_satisfies_entry_skip (u : ControlImpl.t) (fields : list (string * value))
    (e' : value) :
  entry_matches u fields = false ->
  OpenControl.update_satisfies_entry u (VDict fields) = Ok e' ->
  e' = VDict fields.
Proof.
  unfold entry_matches, OpenControl.update_satisfies_entry.
  cbn -[with_items].
  destruct (assoc "standard_key" fields) as [sk|]; [|done]. cbn -[with_items].
  destruct (value_eqb sk _); [|by intros _ [= <-]].
  destruct (assoc "control_key" fields) as [ck|]; [|done]. cbn -[with_items].
  destruct (value_eqb ck _); [done|by intros _ [= <-]].
Qed.

(** A mapping with the keys of [fields] on which the test of the loop
    comes out as on [fields]. *)
Lemma update_satisfies_entry_same_keys (u : ControlImpl.t)
    (fields fields' : list (string * value)) :
  assoc "standard_key" fields' = assoc "standard_key" fields ->
  assoc "control_key" fields' = assoc "control_key" fields ->
  entry_matches u fields = false ->
  (exists e', OpenControl.update_satisfies_entry u (VDict fields) = Ok e') ->
  OpenControl.update_satisfies_entry u (VDict fields') = Ok (VDict fields').
Proof.
  unfold entry_matches, OpenControl.update_satisfies_entry.
  cbn -[with_items]. intros -> ->.
  destruct (assoc "standard_key" fields) as [sk|]; [|by intros _ [? ?]].
  cbn -[with_items]. destruct (value_eqb sk _); [|done].
  destruct (assoc "control_key" fields) as [ck|]; [|by intros _ [? ?]].
  cbn -[with_items]. by destruct (value_eqb ck _).
Qed.

Lemma update_satisfies_entry_keys (u : ControlImpl.t)
    (fields : list (string * value)) (e' : value) :
  OpenControl.update_satisfies_entry u (VDict fields) = Ok e' ->
  exists fields',
    e' = VDict fields'
    /\ assoc "standard_key" fields' = assoc "standard_key" fields
    /\ assoc "control_key" fields' = assoc "control_key" fields
    /\ ((forall l, assoc "narrative" fields <> Some (VList l)) -> fields' = fields).
Proof.
  destruct (entry_matches u fields) eqn:Hmatch.
  - rewrite update_satisfies_entry_hit by done. intros H.
    apply bind_Ok in H as (parts & _ & H). apply bind_Ok in H as (parts' & _ & H).
    assert (e' = with_items (VDict fields) "narrative" parts') as -> by congruence.
    destruct (with_items_cases fields "narrative" parts')
      as [(parts0 & Hn & ->)|(Hn & ->)].
    + eexists. split; [done|]. rewrite !assoc_set_other by done.
      split; [done|]. split; [done|]. intros Hnot. by destruct (Hnot parts0).
    + by exists fields.
  - intros ->%update_satisfies_entry_skip; [|done]. by exists fields.
Qed.

Lemma entry_matches_same_keys (u : ControlImpl.t)
    (fields fields' : list (string * value)) :
  assoc "standard_key" fields' = assoc "standard_key" fields ->
  assoc "control_key" fields' = assoc "control_key" fields ->
  entry_matches u fields' = entry_matches u fields.
Proof. unfold entry_matches. by intros -> ->. Qed.

Lemma entry_matches_both (a b : ControlImpl.t) (fields : list (string * value)) :
  entry_matches a fields = true -> entry_matches b fields = true ->
  same_target a b = false ->
  ControlImpl.control_part a <> ControlImpl.control_part b.
Proof.
  unfold entry_matches, same_target.
  destruct (assoc "standard_key" fields) as [sk|]; [|done].
  destruct (assoc "control_key" fields) as [ck|]; [|done].
  intros [Hsa Hca]%andb_true_iff [Hsb Hcb]%andb_true_iff.
  apply value_eqb_eq in Hsa, Hca, Hsb, Hcb. subst sk ck.
  injection Hsb as ->. injection Hcb as ->.
  rewrite !String.eqb_refl. simpl. by intros ?%value_eqb_neq.
Qed.

Lemma update_satisfies_entry_commute (a b : ControlImpl.t) (e e1 e2 : value) :
  same_target a b = false ->
  OpenControl.update_satisfies_entry a e = Ok e1 ->
  OpenControl.update_satisfies_entry b e1 = Ok e2 ->
  exists e1',
    OpenControl.update_satisfies_entry b e = Ok e1'
    /\ OpenControl.update_satisfies_entry a e1' = Ok e2.
Proof.
  intros Htarget Ha Hb.
  destruct e as [| | | |fields]; try done.
  destruct (update_satisfies_entry_keys _ _ _ Ha)
    as (fields1 & -> & Hsk1 & Hck1 & Hsame1).
  destruct (update_satisfies_entry_keys _ _ _ Hb)
    as (fields2 & -> & Hsk2 & Hck2 & Hsame2).
  destruct (entry_matches a fields) eqn:Hma; cycle 1.
  { (* [a] passes the entry by *)
    pose proof (update_satisfies_entry_skip _ _ _ Hma Ha) as [= ->].
    exists (VDict fields2). split; [done|].
    apply (update_satisfies_entry_same_keys a fields); try done.
    by exists (VDict fields). }
  destruct (entry_matches b fields) eqn:Hmb; cycle 1.
  { (* [b] passes the entry by *)
    assert (entry_matches b fields1 = false) as Hmb1
      by by rewrite (entry_matches_same_keys b fields fields1).
    pose proof (update_satisfies_entry_skip _ _ _ Hmb1 Hb) as [= ->].
    exists (VDict fields). split; [|done].
    apply (update_satisfies_entry_same_keys b fields1); try done.
    by exists (VDict fields1). }
  (* both change fragments of the entry *)
  pose proof (entry_matches_both a b fields Hma Hmb Htarget) as Hparts.
  assert (entry_matches b fields1 = true) as Hmb1
    by by rewrite (entry_matches_same_keys b fields fields1).
  rewrite update_satisfies_entry_hit in Ha, Hb by done.
  apply bind_Ok in Ha as (parts & Hiter & Ha).
  apply bind_Ok in Ha as (parts1 & Hmap1 & Ha).
  apply bind_Ok in Hb as (parts1_ & Hiter1 & Hb).
  apply bind_Ok in Hb as (parts2 & Hmap2 & Hb).
  destruct (with_items_cases fields "narrative" parts1)
    as [(parts0 & Hn & Hitems)|(Hn & Hitems)].
  - rewrite Hn in Hiter. simpl in Hiter. injection Hiter as <-.
    rewrite Hitems in Ha. injection Ha as <-.
    rewrite assoc_set_lookup in Hiter1. simpl in Hiter1. injection Hiter1 as <-.
    destruct (map_res_commute _ _ _ _ _
                (fun x x1 x2 => update_narrative_part_commute a b x x1 x2 Hparts)
                Hmap1 Hmap2) as (parts1' & Hmap1' & Hmap2').
    exists (VDict (assoc_set "narrative" (VList parts1') fields)). split.
    { rewrite update_satisfies_entry_hit by done.
      rewrite Hn. cbn -[with_items]. rewrite Hmap1'. cbn -[with_items].
      unfold with_items. by rewrite Hn. }
    rewrite update_satisfies_entry_hit
      by (rewrite (entry_matches_same_keys a fields);
          [done|by rewrite assoc_set_other..]).
    rewrite assoc_set_lookup. cbn -[with_items]. rewrite Hmap2'.
    cbn -[with_items]. rewrite <- Hb. f_equal. unfold with_items.
    by rewrite !assoc_set_lookup, !assoc_set_twice.
  - rewrite (Hsame1 Hn) in *. rewrite (Hsame2 Hn) in *.
    exists (VDict fields). split.
    + rewrite update_satisfies_entry_hit by done. rewrite Hiter1.
      cbn -[with_items]. rewrite Hmap2. cbn -[with_items].
      by rewrite with_items_not_list.
    + rewrite update_satisfies_entry_hit by done. rewrite Hiter.
      cbn -[with_items]. rewrite Hmap1. cbn -[with_items].
      by rewrite with_items_not_list.
Qed.

Lemma update_component_control_document (fs : gmap string value)
    (u : ControlImpl.t) :
  OpenControl.update_component_control fs u
  = let* data := read_yaml fs (ControlImpl.source_file u) in
    let* data' := updated_document u data in
    Ok (<[ControlImpl.source_file u := data']> fs, VNone).
Proof.
  unfold OpenControl.update_component_control, updated_document.
  destruct (read_yaml fs _) as [data|]; cbn -[with_items]; [|done].
  destruct (py_getitem data "satisfies") as [satisfies|]; cbn -[with_items]; [|done].
  destruct (py_iter satisfies) as [controls|]; cbn -[with_items]; [|done].
  by destruct (map_res _ controls).
Qed.

Lemma updated_document_commute (a b : ControlImpl.t) (d d1 d2 : value) :
  same_target a b = false ->
  updated_document a d = Ok d1 -> updated_document b d1 = Ok d2 ->
  exists d1', updated_document b d = Ok d1' /\ updated_document a d1' = Ok d2.
Proof.
  intros Htarget. unfold updated_document.
  destruct d as [| | | |fields]; cbn -[with_items]; try done.
  destruct (assoc "satisfies" fields) as [satisfies|] eqn:Hs;
    cbn -[with_items]; [|done].
  intros Ha Hb.
  apply bind_Ok in Ha as (entries & Hiter & Ha).
  apply bind_Ok in Ha as (entries1 & Hmap1 & Ha).
  assert (d1 = with_items (VDict fields) "satisfies" entries1) as -> by congruence.
  clear Ha.
  destruct (with_items_cases fields "satisfies" entries1)
    as [(entries0 & Hs0 & Hitems)|(Hs0 & Hitems)]; rewrite Hitems in Hb.
  - rewrite Hs in Hs0. injection Hs0 as ->. simpl in Hiter. injection Hiter as <-.
    cbn -[with_items] in Hb. rewrite assoc_set_lookup in Hb. cbn -[with_items] in Hb.
    apply bind_Ok in Hb as (entries2 & Hmap2 & Hb).
    destruct (map_res_commute _ _ _ _ _
                (fun x x1 x2 => update_satisfies_entry_commute a b x x1 x2 Htarget)
                Hmap1 Hmap2) as (entries1' & Hmap1' & Hmap2').
    cbn -[with_items]. rewrite Hmap1'. cbn -[with_items].
    eexists. split; [reflexivity|].
    unfold with_items at 1 2 3. rewrite Hs. cbn -[with_items].
    rewrite assoc_set_lookup. cbn -[with_items]. rewrite Hmap2'.
    cbn -[with_items]. rewrite <- Hb. f_equal. unfold with_items.
    by rewrite !assoc_set_lookup, !assoc_set_twice.
  - cbn -[with_items] in Hb. rewrite Hs in Hb. cbn -[with_items] in Hb.
    rewrite Hiter in Hb. cbn -[with_items] in Hb.
    apply bind_Ok in Hb as (entries2 & Hmap2 & Hb).
    rewrite with_items_not_list in Hb by done.
    exists (VDict fields). rewrite Hiter. cbn -[with_items].
    rewrite Hmap2. cbn -[with_items]. rewrite with_items_not_list by done.
    split; [done|]. cbn -[with_items]. rewrite Hs. cbn -[with_items].
    rewrite Hiter. cbn -[with_items]. rewrite Hmap1. cbn -[with_items].
    by rewrite Hitems.
Qed.

(** X21: updates of different fragments can be made in either order.  If
    updating with [a] and then with [b] succeeds, where the two records
    differ in their standard, control or part, or name different files,
    then updating with [b] and then with [a] succeeds as well and leaves
    every file with the same content. *)
Theorem updates_of_different_fragments_commute (fs fs1 fs2 : gmap string value)
    (a b : ControlImpl.t) (r1 r2 : value) :
  OpenControl.update_component_control fs a = Ok (fs1, r1) ->
  OpenControl.update_component_control fs1 b = Ok (fs2, r2) ->
  same_target a b = false
  \/ ControlImpl.source_file a <> ControlImpl.source_file b ->
  exists fs1',
    OpenControl.update_component_control fs b = Ok (fs1', VNone)
    /\ OpenControl.update_component_control fs1' a = Ok (fs2, VNone).
Proof.
  rewrite !update_component_control_document. unfold read_yaml.
  intros Ha Hb Hdiffer.
  destruct (fs !! ControlImpl.source_file a) as [da|] eqn:Hfa; [|done].
  cbn [bind] in Ha. apply bind_Ok in Ha as (da' & Hda & Ha).
  injection Ha as <- <-.
  destruct (decide (ControlImpl.source_file a = ControlImpl.source_file b))
    as [Hfile|Hfile].
  - destruct Hdiffer as [Htarget|?]; [|done].
    rewrite <- Hfile in *. rewrite lookup_insert_eq in Hb. cbn [bind] in Hb.
    apply bind_Ok in Hb as (d2 & Hd2 & Hb). injection Hb as <- <-.
    destruct (updated_document_commute a b da da' d2 Htarget Hda Hd2)
      as (d1' & Hb1 & Ha1).
    exists (<[ControlImpl.source_file a := d1']> fs).
    rewrite !update_component_control_document. unfold read_yaml.
    rewrite Hfa. cbn [bind]. rewrite Hb1. cbn [bind].
    split; [done|]. rewrite lookup_insert_eq. cbn [bind]. rewrite Ha1.
    cbn [bind]. by rewrite !insert_insert_eq.
  - rewrite lookup_insert_ne in Hb by done.
    destruct (fs !! ControlImpl.source_file b) as [db|] eqn:Hfb; [|done].
    cbn [bind] in Hb. apply bind_Ok in Hb as (db' & Hdb & Hb).
    injection Hb as <- <-.
    exists (<[ControlImpl.source_file b := db']> fs).
    rewrite !update_component_control_document. unfold read_yaml.
    cbn [bind]. rewrite Hdb. cbn [bind]. split; [done|].
    rewrite lookup_insert_ne by done. rewrite Hfa. cbn [bind]. rewrite Hda.
    cbn [bind]. by rewrite insert_insert_ne.
Qed.

Lemma updates_of_different_fragments_commute_witness :
  exists fs1',
    OpenControl.update_component_control demo_fs
      (demo_controlimpl "b" (VStr "Accounts expire after a year."))
    = Ok (fs1', VNone)
    /\ OpenControl.update_component_control fs1'
         (demo_controlimpl "a" (VStr "Reviewed weekly."))
       = Ok (<["my project/components/web app/component.yaml"
                 := demo_manifest_both]> demo_fs, VNone).
Proof.
  apply (updates_of_different_fragments_commute demo_fs
           (<["my project/components/web app/component.yaml"
                := demo_manifest (VStr "Reviewed weekly.")]> demo_fs)
           (<["my project/components/web app/component.yaml"
                := demo_manifest_both]> demo_fs)
           (demo_controlimpl "a" (VStr "Reviewed weekly."))
           (demo_controlimpl "b" (VStr "Accounts expire after a year."))
           VNone VNone).
  - exact demo_update.
  - unfold OpenControl.update_component_control, read_yaml.
    rewrite lookup_insert_eq. cbn. by rewrite insert_insert_eq.
  - left. reflexivity.
Defined.

(** ** The component list *)

Example str_replace_samples :
  map (str_replace "-0" "-") ["AC-02"; "AC-2"; "AC-002"; "AC-10"; "SC-07 (AC-01)"; "-0-0"]
  = ["AC-2"; "AC-2"; "AC-02"; "AC-10"; "SC-7 (AC-1)"; "--"].
Proof. reflexivity. Qed.

Lemma insert_sorted_elem (x y : string) (l : list string) :
  y ∈ insert_sorted x l <-> y = x \/ y ∈ l.
Proof.
  induction l as [|z l IH]; simpl.
  - rewrite list_elem_of_singleton, elem_of_nil. tauto.
  - destruct (String.ltb x z).
    + by rewrite elem_of_cons.
    + rewrite !elem_of_cons, IH. tauto.
Qed.

Lemma insert_sorted_sorted (x : string) (l : list string) :
  x ∉ l ->
  StronglySorted (fun a b => String.ltb a b = true) l ->
  StronglySorted (fun a b => String.ltb a b = true) (insert_sorted x l).
Proof.
  intros Hx Hsorted.
  induction Hsorted as [|z l Hl IH Hz]; simpl.
  - repeat constructor.
  - apply not_elem_of_cons in Hx as [Hxz Hx].
    destruct (String.ltb x z) eqn:Hlt.
    + constructor; [by constructor|]. constructor; [done|].
      eapply Forall_impl; [exact Hz|]. intros y Hy.
      by apply (string_ltb_trans x z y).
    + constructor; [by apply IH|].
      apply Forall_forall. intros y [->|Hy]%insert_sorted_elem.
      * destruct (string_ltb_total x z Hxz) as [H|H]; [congruence|done].
      * rewrite Forall_forall in Hz. by apply Hz.
Qed.

Lemma sort_strings_spec (l : list string) :
  NoDup l ->
  StronglySorted (fun a b => String.ltb a b = true) (sort_strings l)
  /\ forall y, y ∈ sort_strings l <-> y ∈ l.
Proof.
  induction 1 as [|x l Hx Hl [IHsorted IHelem]]; simpl.
  - split; [constructor|done].
  - split.
    + apply insert_sorted_sorted; [by rewrite IHelem|done].
    + intros y. rewrite insert_sorted_elem, IHelem, elem_of_cons. tauto.
Qed.

Lemma gen_yield_some_elem {A} (r : res (option A)) (y : A) :
  y ∈ fst (gen_yield_some r) -> r = Ok (Some y).
Proof.
  destruct r as [[x|]|e]; simpl.
  - by intros ->%list_elem_of_singleton.
  - by intros ?%elem_of_nil.
  - by intros ?%elem_of_nil.
Qed.

Lemma gen_seq_elem {A} (first second : gen A) (y : A) :
  y ∈ fst (gen_seq first second) -> y ∈ fst first \/ y ∈ fst second.
Proof.
  unfold gen_seq. destruct first as [ys [e|]]; simpl; [by left|].
  destruct second as [zs e]. simpl. by intros ?%elem_of_app.
Qed.

Lemma record_of_satisfies_name (standards : list (string * value))
    (filter_control_number : value) (component_name : string) (control : value)
    (r : ControlRecord.t) :
  Routes.record_of_satisfies standards filter_control_number component_name control
    = Ok (Some r) ->
  ControlRecord.component_name r = component_name.
Proof.
  unfold Routes.record_of_satisfies. intros H. unbind H.
  destruct (_ && _); [done|]. unbind H. by injection H as <-.
Qed.

Lemma record_of_control_name (standards : list (string * value))
    (filter_control_number : value) (component_name : string) (control : value)
    (r : ControlRecord.t) :
  Routes.record_of_control standards filter_control_number component_name control
    = Ok (Some r) ->
  ControlRecord.component_name r = component_name.
Proof.
  unfold Routes.record_of_control. intros H.
  apply bind_Ok in H as (skip & _ & H). destruct skip; [done|].
  unbind H. by injection H as <-.
Qed.

Lemma load_component_controls_name (standards : list (string * value))
    (control_files : list (string * string)) (filter_control_number : value)
    (fs : gmap string value) (r : ControlRecord.t) :
  r ∈ fst (Routes.load_component_controls standards control_files
             filter_control_number fs) ->
  ControlRecord.component_name r ∈ map fst control_files.
Proof.
  unfold Routes.load_component_controls.
  intros ([component_name fn] & Hfile & Hr)%gen_for_elem.
  assert (ControlRecord.component_name r = component_name) as ->.
  { unfold Routes.records_of_file, gen_bind in Hr.
    destruct (read_yaml fs fn) as [data|]; [|by apply elem_of_nil in Hr].
    apply gen_seq_elem in Hr as [Hr|Hr].
    - destruct (let* satisfies := _ in py_iter satisfies) as [entries|];
        [|by apply elem_of_nil in Hr].
      apply gen_for_elem in Hr as (control & _ & Hr%gen_yield_some_elem).
      by eapply record_of_satisfies_name.
    - destruct (let* controls := _ in py_iter controls) as [entries|];
        [|by apply elem_of_nil in Hr].
      apply gen_for_elem in Hr as (control & _ & Hr%gen_yield_some_elem).
      by eapply record_of_control_name. }
  apply list_elem_of_fmap. by exists (component_name, fn).
Qed.

(** X22: [load_components] (from the records on) lists exactly the
    components that have at least one control record: each of them once,
    as a mapping with its name, in increasing order of the names; a
    component whose files hold no control entries is not listed, and every
    name listed is the name of a component directory.  If reading the
    records raises, so does [load_components]. *)
Theorem components_listed_have_records (standards : list (string * value))
    (control_files : list (string * string)) (fs : gmap string value)
    (rs : list ControlRecord.t) :
  (Routes.load_component_controls standards control_files VNone fs = (rs, None) ->
   exists names,
     Routes.load_components standards control_files fs
     = Ok (map (fun name => VDict [("name", VStr name)]) names)
     /\ StronglySorted (fun a b => String.ltb a b = true) names
     /\ (forall name,
           name ∈ names
           <-> exists r, r ∈ rs /\ ControlRecord.component_name r = name)
     /\ (forall name, name ∈ names -> name ∈ map fst control_files))
  /\ (forall e,
        Routes.load_component_controls standards control_files VNone fs
          = (rs, Some e) ->
        Routes.load_components standards control_files fs = Raise e).
Proof.
  split.
  - intros Hload. unfold Routes.load_components. rewrite Hload.
    destruct (sort_strings_spec
                (remove_dups (map ControlRecord.component_name rs))
                (NoDup_remove_dups _)) as [Hsorted Helem].
    eexists. split; [reflexivity|]. split; [done|].
    assert (forall name,
              name ∈ sort_strings (remove_dups (map ControlRecord.component_name rs))
              <-> exists r, r ∈ rs /\ ControlRecord.component_name r = name)
      as Hnames.
    { intros name. rewrite Helem, elem_of_remove_dups, list_elem_of_fmap.
      split; intros (r & H1 & H2); exists r; done. }
    split; [done|].
    intros name (r & Hr & <-)%Hnames.
    apply (load_component_controls_name standards control_files VNone fs).
    by rewrite Hload.
  - intros e Hload. unfold Routes.load_components. by rewrite Hload.
Qed.

Lemma components_listed_have_records_witness :
  exists names,
    Routes.load_components demo_catalog legacy_files legacy_fs_two
    = Ok (map (fun name => VDict [("name", VStr name)]) names)
    /\ StronglySorted (fun a b => String.ltb a b = true) names
    /\ (forall name, name ∈ names -> name ∈ map fst legacy_files).
Proof.
  destruct (proj1 (components_listed_have_records demo_catalog legacy_files
                     legacy_fs_two
                     (fst (Routes.load_component_controls demo_catalog
                             legacy_files VNone legacy_fs_two))))
    as (names & Hload & Hsorted & _ & Hfiles).
  - vm_compute. reflexivity.
  - by exists names.
Defined.

(** ** Filtering by control number *)

Lemma gen_for_filter {A B} (body body' : A -> gen B) (p : B -> bool)
    (items : list A) (rs : list B) :
  (forall x ys, body x = (ys, None) -> body' x = (List.filter p ys, None)) ->
  gen_for body items = (rs, None) ->
  gen_for body' items = (List.filter p rs, None).
Proof.
  intros Hbody. revert rs. induction items as [|x items IH]; intros rs H.
  - by injection H as <-.
  - apply gen_for_cons_None in H as (ys & zs & Hx & Hrest & ->).
    simpl. rewrite (Hbody _ _ Hx), (IH _ Hrest). by rewrite List.filter_app.
Qed.

Lemma gen_seq_None {A} (first second : gen A) (rs : list A) :
  gen_seq first second = (rs, None) ->
  exists ys zs, first = (ys, None) /\ second = (zs, None) /\ rs = ys ++ zs.
Proof.
  unfold gen_seq. destruct first as [ys [e|]]; [done|].
  destruct second as [zs e]. intros [= <- ->]. by exists ys, zs.
Qed.

Lemma gen_yield_some_None {A} (r : res (option A)) (ys : list A) :
  gen_yield_some r = (ys, None) ->
  exists o, r = Ok o /\ ys = match o with Some y => [y] | None => [] end.
Proof.
  destruct r as [[y|]|e]; simpl; [| |done]; intros [= <-]; eauto.
Qed.

Lemma py_or_not_none (a b : value) : b <> VNone -> py_or a b <> VNone.
Proof.
  intros Hb. unfold py_or. destruct (truthy a) eqn:Ha; [|done].
  by intros ->.
Qed.

Lemma record_of_satisfies_filter (standards : list (string * value))
    (f : value) (component_name : string) (control : value)
    (o : option ControlRecord.t) :
  truthy f = true ->
  Routes.record_of_satisfies standards VNone component_name control = Ok o ->
  exists r,
    o = Some r
    /\ Routes.record_of_satisfies standards f component_name control
       = Ok (if passes_filter f r then Some r else None).
Proof.
  intros Hf. unfold Routes.record_of_satisfies. rewrite Hf.
  destruct control as [| | | |fields]; simpl; try done.
  destruct (assoc "control_key" fields) as [control_key|]; simpl; [|done].
  destruct control_key as [| |key| |]; simpl; try done.
  destruct (Routes.get_contol standards _) as [control_standard|]; simpl; [|done].
  set (group := match assoc "control_family" fields with
                | Some control_family => Ok control_family
                | None => Ok (VStr (hd "" (str_split "-"%char key)))
                end).
  destruct group as [control_group|] eqn:Hgroup; simpl; [|done].
  intros [= <-]. eexists. split; [reflexivity|].
  unfold passes_filter. simpl.
  pose proof (py_or_not_none
                (match assoc "control_key_part" fields with
                 | Some v => v | None => VNone end) (VStr "")) as Hpart.
  destruct (py_or _ (VStr "")); [by destruct Hpart|..];
    (destruct f as [| |t| |]; simpl; try done;
     by destruct (String.eqb (str_replace "-0" "-" key) t)).
Qed.

Lemma record_of_control_filter (standards : list (string * value))
    (f : value) (component_name : string) (control : value)
    (o : option ControlRecord.t) :
  truthy f = true ->
  Routes.record_of_control standards VNone component_name control = Ok o ->
  exists r,
    o = Some r
    /\ Routes.record_of_control standards f component_name control
       = Ok (if passes_filter f r then Some r else None).
Proof.
  intros Hf. unfold Routes.record_of_control. rewrite Hf.
  destruct control as [| | | |fields]; simpl; try done.
  destruct (assoc "control" fields) as [number|]; simpl; [|done].
  destruct number as [| |number| |]; simpl; try done.
  destruct (Routes.get_contol standards _) as [control_standard|]; simpl; [|done].
  intros [= <-]. eexists. split; [reflexivity|].
  unfold passes_filter. simpl.
  destruct f as [| |t| |]; simpl; try done.
  by destruct (String.eqb number t).
Qed.

(** X23: filtering by control number selects among the records and does
    nothing else.  If [load_component_controls] runs to its end without a
    filter, then with a filter it yields, in the same order, exactly those
    of the same records that pass it: the records of [satisfies] entries
    whose control key, with "-0" replaced by "-", is the filter, and the
    records of [controls] entries whose control number is the filter.  A
    false filter (None or the empty string) is no filter. *)
Theorem filter_selects_among_records (standards : list (string * value))
    (control_files : list (string * string)) (fs : gmap string value) :
  (forall f,
     truthy f = false ->
     Routes.load_component_controls standards control_files f fs
     = Routes.load_component_controls standards control_files VNone fs)
  /\ (forall f rs,
        truthy f = true ->
        Routes.load_component_controls standards control_files VNone fs
          = (rs, None) ->
        Routes.load_component_controls standards control_files f fs
        = (List.filter (passes_filter f) rs, None)).
Proof.
  split.
  - intros f Hf. unfold Routes.load_component_controls, Routes.records_of_file,
      Routes.record_of_satisfies, Routes.record_of_control.
    by rewrite Hf.
  - intros f rs Hf. unfold Routes.load_component_controls.
    apply gen_for_filter. intros [component_name fn] ys.
    unfold Routes.records_of_file, gen_bind.
    destruct (read_yaml fs fn) as [data|]; [|done].
    intros (ss & cs & Hsatisfies & Hcontrols & ->)%gen_seq_None.
    destruct (let* satisfies := py_get data "satisfies" (VList []) in
              py_iter satisfies) as [entries|]; [|done].
    destruct (let* controls := py_get data "controls" (VList []) in
              py_iter controls) as [numbered|]; [|done].
    assert (forall control zs,
              gen_yield_some
                (Routes.record_of_satisfies standards VNone component_name control)
              = (zs, None) ->
              gen_yield_some
                (Routes.record_of_satisfies standards f component_name control)
              = (List.filter (passes_filter f) zs, None)) as Hbody_s.
    { intros control zs (o & Ho & ->)%gen_yield_some_None.
      destruct (record_of_satisfies_filter standards f component_name control o
                  Hf Ho) as (r & -> & ->).
      simpl. by destruct (passes_filter f r). }
    assert (forall control zs,
              gen_yield_some
                (Routes.record_of_control standards VNone component_name control)
              = (zs, None) ->
              gen_yield_some
                (Routes.record_of_control standards f component_name control)
              = (List.filter (passes_filter f) zs, None)) as Hbody_c.
    { intros control zs (o & Ho & ->)%gen_yield_some_None.
      destruct (record_of_control_filter standards f component_name control o
                  Hf Ho) as (r & -> & ->).
      simpl. by destruct (passes_filter f r). }
    rewrite (gen_for_filter _ _ _ _ _ Hbody_s Hsatisfies).
    rewrite (gen_for_filter _ _ _ _ _ Hbody_c Hcontrols).
    simpl. by rewrite List.filter_app.
Qed.

Lemma filter_selects_among_records_witness :
  Routes.load_component_controls demo_catalog legacy_files (VStr "AC-2")
    legacy_fs_two
  = (List.filter (passes_filter (VStr "AC-2"))
       (fst (Routes.load_component_controls demo_catalog legacy_files VNone
               legacy_fs_two)),
     None).
Proof.
  apply (proj2 (filter_selects_among_records demo_catalog legacy_files
                  legacy_fs_two)).
  - reflexivity.
  - vm_compute. reflexivity.
Defined.

(** ** Updating through the form, then listing again *)

Lemma gen_for_ext_in {A B} (body body' : A -> gen B) (items : list A) :
  (forall x, x ∈ items -> body x = body' x) ->
  gen_for body items = gen_for body' items.
Proof.
  induction items as [|x items IH]; intros Hbody; [done|].
  simpl. rewrite (Hbody x) by left. rewrite IH; [done|].
  intros y Hy. apply Hbody. by right.
Qed.

Lemma records_of_file_ext (standards : list (string * value)) (f : value)
    (fs fs' : gmap string value) (file : string * string) :
  fs' !! snd file = fs !! snd file ->
  Routes.records_of_file standards f fs' file
  = Routes.records_of_file standards f fs file.
Proof.
  destruct file as [component_name fn]. simpl. intros Hfile.
  unfold Routes.records_of_file, read_yaml. by rewrite Hfile.
Qed.

Lemma update_control_other_files (control_files : list string)
    (form : gmap string string) (fs fs' : gmap string value) (answer : value) :
  Routes.update_control control_files form fs = Ok (fs', answer) ->
  forall path, path ∉ control_files -> fs' !! path = fs !! path.
Proof.
  revert fs'. induction control_files as [|file files IH]; simpl; intros fs' H.
  - by injection H as <- <-.
  - intros path [Hfile Hfiles]%not_elem_of_cons.
    apply bind_Ok in H as (data & _ & H).
    apply bind_Ok in H as (satisfies & _ & H).
    apply bind_Ok in H as (entries & _ & H).
    apply bind_Ok in H as (found & _ & H).
    destruct found as [entries'|]; [|by apply (IH fs')].
    injection H as <- <-. by rewrite lookup_insert_ne.
Qed.

Lemma record_of_satisfies_unfiltered (standards : list (string * value))
    (component_name : string) (control : value) (o : option ControlRecord.t) :
  Routes.record_of_satisfies standards VNone component_name control = Ok o ->
  exists r, o = Some r.
Proof.
  intros H.
  destruct (record_of_satisfies_filter standards (VStr "-") component_name
              control o eq_refl H) as (r & -> & _).
  by exists r.
Qed.

Lemma record_after_form (standards : list (string * value))
    (component_name : string) (form : gmap string string) (e e' : value)
    (r : ControlRecord.t) :
  Routes.record_of_satisfies standards VNone component_name e = Ok (Some r) ->
  Routes.apply_form form e = Ok e' ->
  Routes.record_of_satisfies standards VNone component_name e'
  = Ok (Some (with_form form r)).
Proof.
  unfold Routes.record_of_satisfies, Routes.apply_form.
  destruct e as [| | | |fields]; simpl; try done.
  destruct (assoc "control_key" fields) as [control_key|] eqn:Hkey;
    simpl; [|done].
  destruct control_key as [| |key| |]; simpl; try done.
  destruct (Routes.get_contol standards _) as [control_standard|] eqn:Hstandard;
    simpl; [|done].
  intros Hr [= <-]. simpl.
  rewrite !(assoc_set_other "control_key") by done. rewrite Hkey. simpl.
  rewrite Hstandard. simpl.
  rewrite !(assoc_set_other "control_family") by done.
  rewrite !(assoc_set_other "control_key_part") by done.
  rewrite !(assoc_set_other "security_control_type") by done.
  rewrite assoc_set_lookup.
  rewrite (assoc_set_other "narrative" "implementation_status") by done.
  rewrite assoc_set_lookup.
  rewrite (assoc_set_other "summary" "implementation_status") by done.
  rewrite (assoc_set_other "summary" "narrative") by done.
  rewrite assoc_set_lookup.
  destruct (assoc "control_family" fields) as [family|]; simpl in *;
    injection Hr as <-; reflexivity.
Qed.

Lemma form_matches_record (standards : list (string * value))
    (component_name : string) (form : gmap string string) (e : value)
    (r : ControlRecord.t) :
  Routes.form_matches form e = Ok true ->
  Routes.record_of_satisfies standards VNone component_name e = Ok (Some r) ->
  (exists key, form !! "control_key" = Some key
               /\ ControlRecord.control_key r = VStr key)
  /\ ControlRecord.control_part r = VStr (Routes.form_get form "control_part").
Proof.
  unfold Routes.form_matches, Routes.record_of_satisfies, Routes.form_getitem.
  destruct e as [| | | |fields]; simpl; try done.
  destruct (assoc "control_key" fields) as [control_key|]; simpl; [|done].
  destruct (form !! "control_key") as [wanted|]; simpl; [|done].
  destruct control_key as [| |key| |]; simpl; try done.
  destruct (String.eqb key wanted) eqn:Hwanted; [|done].
  apply String.eqb_eq in Hwanted. subst wanted.
  intros [= Hpart]. apply value_eqb_eq in Hpart.
  destruct (Routes.get_contol standards _) as [control_standard|]; simpl; [|done].
  destruct (assoc "control_family" fields) as [family|]; simpl;
    intros [= <-]; simpl; (split; [by exists key|by rewrite Hpart]).
Qed.

Lemma gen_for_app_None {A B} (body : A -> gen B) (l1 l2 : list A)
    (rs : list B) :
  gen_for body (l1 ++ l2) = (rs, None) ->
  exists r1 r2,
    gen_for body l1 = (r1, None) /\ gen_for body l2 = (r2, None)
    /\ rs = r1 ++ r2.
Proof.
  revert rs. induction l1 as [|x l1 IH]; intros rs H.
  - by exists [], rs.
  - change ((x :: l1) ++ l2) with (x :: (l1 ++ l2)) in H.
    apply gen_for_cons_None in H as (ys & zs & Hx & Hrest & ->).
    destruct (IH _ Hrest) as (r1 & r2 & H1 & H2 & ->).
    exists (ys ++ r1), r2. simpl. rewrite Hx, H1. by rewrite app_assoc.
Qed.

(** X24: what the form wrote is what the listing shows.  If the listing
    of a set of control files (no file named twice) runs to its end and
    [update_control] on these files answers "OK", then the listing
    afterwards is the same list of records with one record changed: the
    record of the entry whose control key and part are those of the form;
    its summary, narrative and status are now the cleaned texts of the
    form, and nothing else in it has changed. *)
Theorem update_control_then_list (standards : list (string * value))
    (control_files : list (string * string)) (form : gmap string string)
    (fs fs' : gmap string value) (rs : list ControlRecord.t) :
  NoDup (map snd control_files) ->
  Routes.load_component_controls standards control_files VNone fs = (rs, None) ->
  Routes.update_control (map snd control_files) form fs = Ok (fs', VStr "OK") ->
  exists before r after,
    rs = before ++ r :: after
    /\ Routes.load_component_controls standards control_files VNone fs'
       = (before ++ with_form form r :: after, None)
    /\ (exists key, form !! "control_key" = Some key
                    /\ ControlRecord.control_key r = VStr key)
    /\ ControlRecord.control_part r = VStr (Routes.form_get form "control_part").
Proof.
  unfold Routes.load_component_controls.
  revert rs fs'. induction control_files as [|[component_name fn] files IH];
    intros rs fs' Hnodup Hload Hupdate; [done|].
  apply NoDup_cons in Hnodup as [Hfn Hnodup].
  apply gen_for_cons_None in Hload as (rs1 & rs2 & Hfile & Hrest & ->).
  cbn [map snd Routes.update_control] in Hupdate.
  apply bind_Ok in Hupdate as (data & Hdata & Hupdate).
  apply bind_Ok in Hupdate as (satisfies & Hsatisfies & Hupdate).
  apply bind_Ok in Hupdate as (entries & Hentries & Hupdate).
  apply bind_Ok in Hupdate as (found & Hfound & Hupdate).
  destruct found as [entries'|].
  - (* the entry is in this file *)
    rewrite (update_first_match_list _ _ _ _ Hentries Hfound) in Hsatisfies.
    destruct data as [| | | |fields]; simpl in Hsatisfies; try done.
    destruct (assoc "satisfies" fields) as [v|] eqn:Hv; [|done].
    injection Hsatisfies as ->.
    unfold with_items in Hupdate. rewrite Hv in Hupdate.
    injection Hupdate as <-.
    apply update_first_match_frame in Hfound
      as (bef & e & aft & e' & -> & -> & _ & Hmatch & Hform).
    unfold Routes.records_of_file, gen_bind in Hfile. rewrite Hdata in Hfile.
    apply gen_seq_None in Hfile as (ss & cs & Hss & Hcs & ->).
    cbn [py_get bind] in Hss. rewrite Hv in Hss. cbn [py_iter gen_bind] in Hss.
    apply gen_for_app_None in Hss as (rb & rea & Hbef & Hea & ->).
    apply gen_for_cons_None in Hea as (re & ra & He & Haft & ->).
    apply gen_yield_some_None in He as (o & He & ->).
    destruct (record_of_satisfies_unfiltered _ _ _ _ He) as (r & ->).
    exists rb, r, (ra ++ cs ++ rs2).
    split; [by rewrite <- !app_assoc|].
    destruct (form_matches_record _ _ _ _ _ Hmatch He) as [Hkey Hpart].
    split; [|done].
    cbn [gen_for]. unfold Routes.records_of_file at 1, gen_bind, read_yaml.
    rewrite lookup_insert_eq. cbn [py_get bind].
    rewrite assoc_set_lookup, (assoc_set_other "controls") by done.
    cbn [py_iter gen_bind].
    rewrite (gen_for_app _ _ _ _ Hbef). cbn [gen_for].
    rewrite (record_after_form _ _ _ _ _ _ He Hform). cbn [gen_yield_some].
    rewrite Haft. cbn [py_get bind] in Hcs. rewrite Hcs. cbn [gen_seq fst snd].
    rewrite (gen_for_ext_in _ (Routes.records_of_file standards VNone fs)).
    + rewrite Hrest. by rewrite <- !app_assoc.
    + intros [name' fn'] Hin. apply records_of_file_ext. simpl.
      apply lookup_insert_ne. intros <-. apply Hfn.
      apply list_elem_of_fmap. by exists (name', fn).
  - (* the entry is in a later file *)
    destruct (IH rs2 fs' Hnodup Hrest Hupdate)
      as (before & r & after & -> & Hreload & Hkey & Hpart).
    exists (rs1 ++ before), r, after.
    split; [by rewrite <- app_assoc|]. split; [|done].
    cbn [gen_for].
    rewrite (records_of_file_ext _ _ fs fs' (component_name, fn)), Hfile, Hreload.
    + by rewrite <- app_assoc.
    + simpl. by apply (update_control_other_files _ _ _ _ _ Hupdate).
Qed.

Lemma update_control_then_list_witness :
  exists fs' before r after,
    Routes.update_control ["components/web/AC.yaml"] legacy_form legacy_fs
    = Ok (fs', VStr "OK")
    /\ fst (Routes.load_component_controls demo_catalog
              [("web", "components/web/AC.yaml")] VNone legacy_fs)
       = before ++ r :: after
    /\ Routes.load_component_controls demo_catalog
         [("web", "components/web/AC.yaml")] VNone fs'
       = (before ++ with_form legacy_form r :: after, None)
    /\ ControlRecord.control_part r
       = VStr (Routes.form_get legacy_form "control_part").
Proof.
  eexists.
  edestruct (update_control_then_list demo_catalog
               [("web", "components/web/AC.yaml")] legacy_form legacy_fs)
    as (before & r & after & Hrs & Hreload & _ & Hpart).
  - repeat constructor. by intros ?%elem_of_nil.
  - vm_compute. reflexivity.
  - exact legacy_update.
  - exists before, r, after. split; [exact legacy_update|].
    split; [|split; [exact Hreload|exact Hpart]].
    rewrite <- Hrs. vm_compute. reflexivity.
Defined.

(** ** Cleaning keeps the text *)

Lemma give_back_match (n : nat) (l m rest : list ascii) :
  give_back n l = Some (m, rest) ->
  exists k c, k <= n /\ nth_error l k = Some c /\ is_newline c = true
    /\ m = firstn (S k) l /\ rest = skipn (S k) l.
Proof.
  induction n as [|n IH]; cbn [give_back]; [discriminate|].
  destruct (nth_error l (S n)) as [c|] eqn:Hc.
  - destruct (is_newline c) eqn:Hnl.
    + intros [= <- <-]. exists (S n), c. auto.
    + intros H. destruct (IH H) as (k & c' & ? & ?). exists k, c'. split; [lia|done].
  - intros H. destruct (IH H) as (k & c' & ? & ?). exists k, c'. split; [lia|done].
Qed.

Lemma firstn_spaces (l : list ascii) : forall k c,
  k <= length (fst (span is_space l)) -> nth_error l k = Some c ->
  is_space c = true ->
  Forall (fun x => is_space x = true) (firstn (S k) l).
Proof.
  induction l as [|x l IH]; intros k c Hk Hc Hs.
  - by destruct k.
  - destruct k as [|k].
    + simpl in Hc. injection Hc as ->. cbn [firstn]. by repeat constructor.
    + simpl in Hk, Hc. destruct (is_space x) eqn:Hx; [|simpl in Hk; lia].
      destruct (span is_space l) as [run rest] eqn:Hspan. simpl in Hk, IH.
      change (firstn (S (S k)) (x :: l)) with (x :: firstn (S k) l).
      constructor; [done|]. eapply IH; [lia|done..].
Qed.

Lemma visible_spaces (l : list ascii) :
  Forall (fun x => is_space x = true) l -> visible l = [].
Proof.
  induction 1 as [|x l Hx _ IH]; [done|]. unfold visible in *. simpl.
  by rewrite Hx.
Qed.

Lemma visible_drop_while (l : list ascii) :
  visible (drop_while is_space l) = visible l.
Proof.
  induction l as [|c l IH]; [done|]. cbn [drop_while].
  destruct (is_space c) eqn:Hc; [|done].
  rewrite IH. unfold visible. simpl. by rewrite Hc.
Qed.

Lemma visible_strip (l : list ascii) :
  visible (strip_chars is_space l) = visible l.
Proof.
  unfold strip_chars. unfold visible at 1. rewrite filter_rev.
  fold (visible (drop_while is_space (rev (drop_while is_space l)))).
  rewrite visible_drop_while. unfold visible at 1. rewrite filter_rev, rev_involutive.
  apply visible_drop_while.
Qed.

Lemma visible_re_sub (fuel : nat) : forall l,
  visible (re_sub_from fuel match_space_newline [newline] l) = visible l.
Proof.
  induction fuel as [|fuel IH]; intros l; [done|].
  destruct l as [|a l]; [done|]. cbn [re_sub_from].
  destruct (match_space_newline (a :: l)) as [[m rest]|] eqn:Hm.
  - unfold match_space_newline in Hm.
    apply give_back_match in Hm as (k & c & Hk & Hc & Hnl & -> & ->).
    rewrite <- (firstn_skipn (S k) (a :: l)) at 2.
    unfold visible at 2. rewrite List.filter_app.
    fold (visible (firstn (S k) (a :: l))) (visible (skipn (S k) (a :: l))).
    rewrite (visible_spaces (firstn (S k) (a :: l))).
    + simpl. apply IH.
    + eapply firstn_spaces; [done..|]. by apply newline_is_space.
  - unfold visible in *. simpl. by rewrite IH.
Qed.

(** X25: [clean_text] removes white space and nothing else: the characters
    of the cleaned text that are not white space are those of the submitted
    text, in the same order ([None] standing for the empty text). *)
Theorem clean_text_keeps_text (t : string) :
  visible (chars (text_of (Routes.clean_text t))) = visible (chars t).
Proof.
  rewrite clean_text_cleaned.
  assert (text_of (if String.eqb (text (cleaned t)) ""
                   then VNone else VStr (text (cleaned t)))
          = text (cleaned t)) as ->.
  { destruct (String.eqb (text (cleaned t)) "") eqn:E; [|done].
    apply String.eqb_eq in E. by rewrite E. }
  rewrite chars_text. unfold cleaned. cbv zeta.
  rewrite visible_re_sub. apply visible_strip.
Qed.

(** ** Components and their manifests *)

Lemma path_join_absolute (dir path : string) (ps : list string) :
  starts_with_slash path = true -> path_join dir (path :: ps) = path_join path ps.
Proof. intros H. unfold path_join. simpl. unfold join_step at 2. by rewrite H. Qed.

Lemma load_component_manifest (fs : gmap string value) (project : Project.t)
    (component_path : value) (c : Component.t) :
  OpenControl.load_component fs project component_path = Ok c ->
  exists path manifest,
    component_path = VStr path
    /\ Component.project c = project
    /\ Component.path c = path_join (Project.path project) [path]
    /\ fs !! path_join (Project.path project) [path; "component.yaml"]
       = Some (VDict manifest)
    /\ assoc "schema_version" manifest = Some (VStr "3.0.0")
    /\ VStr (Component.name c)
       = py_or (default VNone (assoc "name" manifest))
               (VStr (splitext_root (basename (normpath path)))).
Proof.
  unfold OpenControl.load_component, read_yaml. intros H.
  apply bind_Ok in H as (path & ->%as_str_Ok & H). cbv zeta in H.
  destruct (fs !! path_join (Project.path project) [path; "component.yaml"])
    as [doc|] eqn:Hfile; [|done].
  destruct doc as [| | | |manifest]; try done. simpl in H.
  destruct (value_eqb _ (VStr "3.0.0")) eqn:Hv; [|done]. simpl in H.
  apply value_eqb_eq in Hv.
  apply bind_Ok in H as (name & Hname%as_str_Ok & H).
  injection H as <-. simpl. exists path, manifest.
  repeat split; try done.
  by destruct (assoc "schema_version" manifest) as [v|]; [subst|].
Qed.

(** X26: every component [load_project_components] yields can be opened
    by the aggregator: its path is the project's directory joined with the
    path the system manifest declares (the declared path itself when that is
    absolute), the file [component.yaml] under it holds a mapping of schema
    version 3.0.0, its name is that mapping's [name] or, when that is
    missing or empty, the name of the declared directory, and the
    aggregator's records for it are those of the entries under
    [satisfies], none when the key is missing. *)
Theorem components_open_as_loaded (fs : gmap string value)
    (project : Project.t) (component : Component.t) :
  component ∈ fst (OpenControl.load_project_components fs project) ->
  exists path manifest,
    Component.project component = project
    /\ Component.path component = path_join (Project.path project) [path]
    /\ (starts_with_slash path = true -> Component.path component = path)
    /\ fs !! path_join (Component.path component) ["component.yaml"]
       = Some (VDict manifest)
    /\ assoc "schema_version" manifest = Some (VStr "3.0.0")
    /\ VStr (Component.name component)
       = py_or (default VNone (assoc "name" manifest))
               (VStr (splitext_root (basename (normpath path))))
    /\ forall standards,
         OpenControl.load_project_component_controls fs component standards
         = gen_bind (py_iter (default (VList []) (assoc "satisfies" manifest)))
             (gen_for (OpenControl.controls_of_entry component standards
                (path_join (Component.path component) ["component.yaml"]))).
Proof.
  intros (component_path & H)%load_project_components_elem.
  apply load_component_manifest in H
    as (path & manifest & -> & Hproject & Hpath & Hfile & Hversion & Hname).
  exists path, manifest.
  assert (fs !! path_join (Component.path component) ["component.yaml"]
          = Some (VDict manifest)) as Hfile' by (by rewrite Hpath).
  repeat split; try done.
  - intros Habs. rewrite Hpath. by apply path_join_absolute.
  - intros standards.
    unfold OpenControl.load_project_component_controls, read_yaml.
    rewrite Hfile'. simpl. rewrite Hversion. simpl.
    by destruct (assoc "satisfies" manifest).
Qed.

Lemma components_open_as_loaded_witness :
  exists path manifest,
    Component.project demo_component = demo_project
    /\ Component.path demo_component = path_join (Project.path demo_project) [path]
    /\ (starts_with_slash path = true -> Component.path demo_component = path)
    /\ demo_fs !! path_join (Component.path demo_component) ["component.yaml"]
       = Some (VDict manifest)
    /\ assoc "schema_version" manifest = Some (VStr "3.0.0")
    /\ VStr (Component.name demo_component)
       = py_or (default VNone (assoc "name" manifest))
               (VStr (splitext_root (basename (normpath path))))
    /\ forall standards,
         OpenControl.load_project_component_controls demo_fs demo_component standards
         = gen_bind (py_iter (default (VList []) (assoc "satisfies" manifest)))
             (gen_for (OpenControl.controls_of_entry demo_component standards
                (path_join (Component.path demo_component) ["component.yaml"]))).
Proof.
  apply (components_open_as_loaded demo_fs demo_project demo_component).
  rewrite demo_components_load. simpl. by left.
Defined.

(** ** Records of a known standard *)

Lemma control_metadata_known (component : Component.t)
    (standards : gmap string Standard.t) (entry : list (string * value))
    (standard : StandardInfo.t) (family : FamilyInfo.t) (control : ControlInfo.t)
    (std : Standard.t) :
  OpenControl.control_metadata component standards (VDict entry)
    = Ok (standard, family, control) ->
  standards !! StandardInfo.id standard = Some std ->
  exists ck name k,
    assoc "control_key" entry = Some (VStr ck)
    /\ assoc "name" entry = Some name
    /\ OpenControl.make_control_number_sort_key (VStr ck) = Ok k
    /\ StandardInfo.name standard = Standard.name std
    /\ ControlInfo.url control
       = Project.url (Component.project component) +:+ "/controls/"
         +:+ quote_plus (StandardInfo.id standard) +:+ "/" +:+ quote_plus ck
    /\ match Standard.controls std !! ck with
       | None =>
           family = family_of_key ck
           /\ ControlInfo.id control = ck
           /\ ControlInfo.number control = ck
           /\ ControlInfo.name control = name
           /\ ControlInfo.sort_key control = (StandardInfo.id standard, k)
           /\ ControlInfo.family control = None
           /\ ControlInfo.description control = None
       | Some c =>
           ControlInfo.id control = CatalogControl.id c
           /\ ControlInfo.number control = CatalogControl.number c
           /\ ControlInfo.name control = CatalogControl.name c
           /\ ControlInfo.sort_key control = CatalogControl.sort_key c
           /\ ControlInfo.family control = Some (CatalogControl.family c)
           /\ ControlInfo.description control = Some (CatalogControl.description c)
           /\ exists found,
                dict_lookup (CatalogControl.family c) (Standard.families std)
                  = Ok found
                /\ family
                   = match found with
                     | None => family_of_key ck
                     | Some f =>
                         {| FamilyInfo.abbrev := hd "" (str_split "-"%char ck);
                            FamilyInfo.name := CatalogFamily.name f;
                            FamilyInfo.sort_key := CatalogFamily.sort_key f;
                            FamilyInfo.id := Some (CatalogFamily.id f);
                            FamilyInfo.number := Some (CatalogFamily.number f) |}
                     end
       end.
Proof.
  unfold OpenControl.control_metadata. simpl.
  destruct (assoc "standard_key" entry) as [sk|]; simpl; [|done].
  destruct (assoc "control_key" entry) as [ck|]; simpl; [|done].
  destruct ck as [| |ck| |]; simpl; try done.
  rewrite make_key_str. simpl.
  destruct (assoc "name" entry) as [name|]; simpl; [|done].
  destruct sk as [| |sk| |]; simpl; try done.
  intros H Hknown. exists ck, name. eexists. split; [done|]. split; [done|].
  split; [apply make_key_str|].
  destruct (standards !! sk) as [std'|] eqn:Hstd.
  - destruct (Standard.controls std' !! ck) as [c|] eqn:Hc.
    + destruct (dict_lookup (CatalogControl.family c) (Standard.families std'))
        as [found|e] eqn:Hfound; simpl in H; [|done].
      assert (std' = std) as ->.
      { destruct found; inversion H; subst; simpl in Hknown; congruence. }
      rewrite Hc. destruct found as [f|]; inversion H; subst; simpl;
        (repeat split; try done); eexists; (split; [exact Hfound|done]).
    + inversion H; subst. simpl in Hknown.
      assert (std' = std) as -> by congruence. rewrite Hc. by repeat split.
  - inversion H; subst. simpl in Hknown. congruence.
Qed.

(** X27: a record whose standard is among the standards given carries the
    standard's name.  If the standard lists the entry's control key, the
    record's control takes its id, number, name, sort key, family and
    description from the standard (the entry's own [name], though it must
    be there, is not used) and keeps the URL built from the entry's keys;
    its family takes name, sort key, id and number from the standard when
    the standard has the control's family, and keeps the abbreviation cut
    from the control key.  Otherwise control and family are built from the
    manifest alone. *)
Theorem catalog_overrides_manifest (fs : gmap string value)
    (component : Component.t) (standards : gmap string Standard.t)
    (r : ControlImpl.t) (std : Standard.t) :
  r ∈ fst (OpenControl.load_project_component_controls fs component standards) ->
  standards !! StandardInfo.id (ControlImpl.standard r) = Some std ->
  exists manifest entries entry ck name k,
    fs !! ControlImpl.source_file r = Some (VDict manifest)
    /\ assoc "satisfies" manifest = Some (VList entries)
    /\ VDict entry ∈ entries
    /\ assoc "control_key" entry = Some (VStr ck)
    /\ assoc "name" entry = Some name
    /\ OpenControl.make_control_number_sort_key (VStr ck) = Ok k
    /\ StandardInfo.name (ControlImpl.standard r) = Standard.name std
    /\ ControlInfo.url (ControlImpl.control r)
       = Project.url (Component.project component) +:+ "/controls/"
         +:+ quote_plus (StandardInfo.id (ControlImpl.standard r))
         +:+ "/" +:+ quote_plus ck
    /\ match Standard.controls std !! ck with
       | None =>
           ControlImpl.family r = family_of_key ck
           /\ ControlInfo.id (ControlImpl.control r) = ck
           /\ ControlInfo.number (ControlImpl.control r) = ck
           /\ ControlInfo.name (ControlImpl.control r) = name
           /\ ControlInfo.sort_key (ControlImpl.control r)
              = (StandardInfo.id (ControlImpl.standard r), k)
           /\ ControlInfo.family (ControlImpl.control r) = None
           /\ ControlInfo.description (ControlImpl.control r) = None
       | Some c =>
           ControlInfo.id (ControlImpl.control r) = CatalogControl.id c
           /\ ControlInfo.number (ControlImpl.control r) = CatalogControl.number c
           /\ ControlInfo.name (ControlImpl.control r) = CatalogControl.name c
           /\ ControlInfo.sort_key (ControlImpl.control r)
              = CatalogControl.sort_key c
           /\ ControlInfo.family (ControlImpl.control r)
              = Some (CatalogControl.family c)
           /\ ControlInfo.description (ControlImpl.control r)
              = Some (CatalogControl.description c)
           /\ exists found,
                dict_lookup (CatalogControl.family c) (Standard.families std)
                  = Ok found
                /\ ControlImpl.family r
                   = match found with
                     | None => family_of_key ck
                     | Some f =>
                         {| FamilyInfo.abbrev := hd "" (str_split "-"%char ck);
                            FamilyInfo.name := CatalogFamily.name f;
                            FamilyInfo.sort_key := CatalogFamily.sort_key f;
                            FamilyInfo.id := Some (CatalogFamily.id f);
                            FamilyInfo.number := Some (CatalogFamily.number f) |}
                     end
       end.
Proof.
  intros (manifest & entries & entry & Hfile & _ & Hsatisfies & Hentry & Hr)
    %load_project_component_controls_elem Hknown.
  apply controls_of_entry_elem in Hr
    as (entry' & [[standard family] control] & parts & part & [= <-] & Hmetadata
        & _ & _ & Hr).
  apply controlimpl_of_part_Ok in Hr as (part' & k' & t & _ & _ & _ & ->).
  simpl in *.
  destruct (control_metadata_known _ _ _ _ _ _ _ Hmetadata Hknown)
    as (ck & name & k & Hck & Hname & Hk & Hsname & Hurl & Hcases).
  exists manifest, entries, entry, ck, name, k. by repeat split.
Qed.

Lemma catalog_overrides_manifest_witness :
  exists std,
  demo_standards !! "NIST-800-53" = Some std /\
  exists manifest entries entry ck name k,
    demo_fs !! ControlImpl.source_file (demo_controlimpl "a" (VStr "Accounts are reviewed.")) = Some (VDict manifest)
    /\ assoc "satisfies" manifest = Some (VList entries)
    /\ VDict entry ∈ entries
    /\ assoc "control_key" entry = Some (VStr ck)
    /\ assoc "name" entry = Some name
    /\ OpenControl.make_control_number_sort_key (VStr ck) = Ok k
    /\ StandardInfo.name (ControlImpl.standard (demo_controlimpl "a" (VStr "Accounts are reviewed."))) = Standard.name std
    /\ ControlInfo.url (ControlImpl.control (demo_controlimpl "a" (VStr "Accounts are reviewed.")))
       = Project.url (Component.project demo_component) +:+ "/controls/"
         +:+ quote_plus (StandardInfo.id (ControlImpl.standard (demo_controlimpl "a" (VStr "Accounts are reviewed."))))
         +:+ "/" +:+ quote_plus ck
    /\ match Standard.controls std !! ck with
       | None =>
           ControlImpl.family (demo_controlimpl "a" (VStr "Accounts are reviewed.")) = family_of_key ck
           /\ ControlInfo.id (ControlImpl.control (demo_controlimpl "a" (VStr "Accounts are reviewed."))) = ck
           /\ ControlInfo.number (ControlImpl.control (demo_controlimpl "a" (VStr "Accounts are reviewed."))) = ck
           /\ ControlInfo.name (ControlImpl.control (demo_controlimpl "a" (VStr "Accounts are reviewed."))) = name
           /\ ControlInfo.sort_key (ControlImpl.control (demo_controlimpl "a" (VStr "Accounts are reviewed.")))
              = (StandardInfo.id (ControlImpl.standard (demo_controlimpl "a" (VStr "Accounts are reviewed."))), k)
           /\ ControlInfo.family (ControlImpl.control (demo_controlimpl "a" (VStr "Accounts are reviewed."))) = None
           /\ ControlInfo.description (ControlImpl.control (demo_controlimpl "a" (VStr "Accounts are reviewed."))) = None
       | Some c =>
           ControlInfo.id (ControlImpl.control (demo_controlimpl "a" (VStr "Accounts are reviewed."))) = CatalogControl.id c
           /\ ControlInfo.number (ControlImpl.control (demo_controlimpl "a" (VStr "Accounts are reviewed."))) = CatalogControl.number c
           /\ ControlInfo.name (ControlImpl.control (demo_controlimpl "a" (VStr "Accounts are reviewed."))) = CatalogControl.name c
           /\ ControlInfo.sort_key (ControlImpl.control (demo_controlimpl "a" (VStr "Accounts are reviewed.")))
              = CatalogControl.sort_key c
           /\ ControlInfo.family (ControlImpl.control (demo_controlimpl "a" (VStr "Accounts are reviewed.")))
              = Some (CatalogControl.family c)
           /\ ControlInfo.description (ControlImpl.control (demo_controlimpl "a" (VStr "Accounts are reviewed.")))
              = Some (CatalogControl.description c)
           /\ exists found,
                dict_lookup (CatalogControl.family c) (Standard.families std)
                  = Ok found
                /\ ControlImpl.family (demo_controlimpl "a" (VStr "Accounts are reviewed."))
                   = match found with
                     | None => family_of_key ck
                     | Some f =>
                         {| FamilyInfo.abbrev := hd "" (str_split "-"%char ck);
                            FamilyInfo.name := CatalogFamily.name f;
                            FamilyInfo.sort_key := CatalogFamily.sort_key f;
                            FamilyInfo.id := Some (CatalogFamily.id f);
                            FamilyInfo.number := Some (CatalogFamily.number f) |}
                     end
       end.
Proof.
  eexists. split; [vm_compute; reflexivity|].
  apply (catalog_overrides_manifest demo_fs demo_component demo_standards
           (demo_controlimpl "a" (VStr "Accounts are reviewed."))).
  - rewrite demo_controls_load. simpl. by left.
  - vm_compute. reflexivity.
Defined.
